(** * Portfolio backtest page and simulation engine: a shallow embedding

    The repository is a Streamlit dashboard.  The page
    [pages/4_Portfolio_Backtest.py] collects the run inputs, computes the
    target weights, validates them and drives [PortfolioBacktester].
    The home page [app.py], the two screener pages and the stock-details
    page are embedded where they compute: the market-cap parser, the
    progress callback, the data-update flow, the scoring-weight check and
    the dividend-yield series.
    Python floats are idealised as exact rationals ([Qc]), and as real
    numbers in the risk statistics, which take square roots; where a
    statement turns on rounding, on an infinity or on NaN (the tolerance
    of the weight check at its edge, the market-cap parser, the yield
    chart) they are the binary64 values of [PrimFloat]; Python dicts
    keyed by ticker symbol are [gmap string _]. *)

From Stdlib Require Import PrimFloat SpecFloat FloatOps.
From Stdlib Require Import QArith Qcanon Qcabs Qround Lqa Reals Qreals Lra.
From Stdlib Require Import Ascii.
From stdpp Require Import gmap strings list fin_maps numbers.

Local Open Scope Qc_scope.

(* [[x]] is for lists here; absolute values are written [Qcabs x]. *)
Disable Notation "[ q ]" : Qc_scope.

(* Decimal literals in [float_scope] denote the nearest double, as in Python. *)
Set Warnings "-inexact-float".

(* ===================================================================== *)
(** * Part I: definitions                                                 *)
(* ===================================================================== *)

(** ** Numbers *)

Definition Qc_of_nat (n : nat) : Qc := Qc_of_Z (Z.of_nat n).

(** [a / b] for integer literals, e.g. [frac 1 100] for [0.01]. *)
Definition frac (a : Z) (b : positive) : Qc := Q2Qc (a # b).

(** Sum of a list of numbers (Python's [sum], started at 0). *)
Definition sum_list (l : list Qc) : Qc := foldr Qcplus 0 l.

(** [sum(d.values())] for a dict [d]. *)
Definition dict_sum (m : gmap string Qc) : Qc :=
  map_fold (λ _ v acc, acc + v) 0 m.

(** Dict comprehension [{k: f(k) for k in l}]: keys are inserted in list
    order, a repeated key overwrites the earlier entry. *)
Definition dict_comp {V} (f : string → V) (l : list string) : gmap string V :=
  foldl (λ m k, <[k := f k]> m) ∅ l.

(** [np.isclose(a, b, rtol, atol)]: [|a - b| <= atol + rtol * |b|]. *)
Definition isclose (a b rtol atol : Qc) : bool :=
  bool_decide (Qcabs (a - b) ≤ atol + rtol * Qcabs b).

(** NumPy's default relative tolerance, [rtol=1e-05]. *)
Definition default_rtol : Qc := frac 1 100000.

(** ** Binary64 *)

Module Float64.

(** An int as a double: the nearest one, ties to even; past the largest
    double the result is an infinity. *)
Definition of_Z (n : Z) : float :=
  SF2Prim (binary_normalize prec emax n 0 false).

(** The conversion of an int operand of a float operation, as in
    [n / 1e9]: [None] stands for [OverflowError] (int too large to convert
    to float). *)
Definition float_of_int (n : Z) : option float :=
  match binary_normalize prec emax n 0 false with
  | S754_infinity _ => None
  | x => Some (SF2Prim x)
  end.

(** [sum(xs)] over floats, started at the int 0 and added left to right.
    CPython 3.12 and later compensate the rounding errors of the
    additions; for a single value and for two values that gives the same
    double. *)
Definition fsum (xs : list float) : float := foldl PrimFloat.add 0%float xs.

(** [np.isclose(a, b, rtol, atol)] on finite doubles:
    [abs(a - b) <= atol + rtol * abs(b)]. *)
Definition isclose (a b rtol atol : float) : bool :=
  (PrimFloat.abs (a - b) <=? atol + rtol * PrimFloat.abs b)%float.

(** The exact value of a finite double. *)
Definition to_Qc (x : float) : option Qc :=
  match Prim2SF x with
  | S754_zero _ => Some 0
  | S754_finite s m e =>
      let magnitude :=
        match e with
        | Zneg k => Q2Qc (Z.pos m # 2 ^ k)
        | _ => Qc_of_Z (Z.pos m * 2 ^ e)
        end in
      Some (if s then - magnitude else magnitude)
  | _ => None
  end.

End Float64.

(** ** Calendar dates *)

Record Date := mkDate { year : Z; month : Z; day : Z }.

Global Instance Date_eq_dec : EqDecision Date.
Proof. solve_decision. Defined.

(** ** The backtest page, [pages/4_Portfolio_Backtest.py] *)

Module Page.

(** Modelled from the spec: [BacktestConfig.MAX_PORTFOLIO_STOCKS] lives in
    [config.py], which is not among the sources; the spec bounds the symbol
    list by 20 and the page's own widget label reads "max 20". *)
Definition MAX_PORTFOLIO_STOCKS : nat := 20.

(** A row of the main dataframe [df]; a NaN yield is [None]. *)
Record row := mkRow { Symbol : string; Div_Yield : option Qc }.

(** The [tax_config] dict built at lines 172-197: exactly three keys. *)
Record tax_config := mkTaxConfig {
  qualified_dividend_rate : Qc;
  ordinary_dividend_rate : Qc;
  long_term_capital_gains_rate : Qc }.

(** The values the widgets return on one execution of the script. *)
Record widgets := mkWidgets {
  w_selected : list string;            (* st.sidebar.multiselect *)
  w_allocation_method : string;        (* st.sidebar.radio *)
  w_slider : string → Z;               (* per-stock "Weight (%)" slider *)
  w_start_date : Date;
  w_end_date : Date;
  w_initial_investment : Z;
  w_monthly_contribution : Z;
  w_drip_enabled : bool;
  w_drip_fee_pct : Qc;
  w_tax_enabled : bool;
  w_qualified_pct : Qc;
  w_ordinary_pct : Qc;
  w_long_term_pct : Qc;
  w_rebalancing_frequency : string;
  w_rebalancing_fee_pct : Qc;
  w_run_backtest : bool }.             (* the "Run Backtest" button *)

(** What the script shows in the sidebar before the button is handled. *)
Inductive notice :=
  | SidebarError (msg : string)
  | SidebarWarning (total_weight : Qc)
  | SidebarSuccess (total_weight : Qc)
  | SidebarInfo (frequency : string)
  | Warning (msg : string)
  | Info (msg : string).

(** The arguments of the [PortfolioBacktester(...)] constructor call and of
    the [run_backtest(...)] call at lines 272-295. *)
Record launch := mkLaunch {
  l_stocks : list string;
  l_weights : gmap string Qc;
  l_start_date : Date;
  l_end_date : Date;
  l_initial_investment : Z;
  l_monthly_contribution : Z;
  l_drip_enabled : bool;
  l_drip_fee : Qc;
  l_tax_config : option tax_config;
  l_rebalancing_frequency : string;
  l_rebalancing_fee : Qc }.

(** How the [if run_backtest:] block ends, up to the [try:] at line 270. *)
Inductive outcome :=
  | NotRun                         (* button not pressed *)
  | Stopped (msg : string)         (* st.error(msg); st.stop() *)
  | KeyError (key : string)        (* yields[stock] on an absent label *)
  | Launched (l : launch).         (* backtester constructed, fetched, run *)

(** Lines 71-73: more than the maximum shows a sidebar error and keeps the
    first [MAX_PORTFOLIO_STOCKS] entries. *)
Definition over_limit (selected : list string) : bool :=
  bool_decide (MAX_PORTFOLIO_STOCKS < length selected)%nat.

Definition selected_stocks (selected : list string) : list string :=
  if over_limit selected then take MAX_PORTFOLIO_STOCKS selected else selected.

(** Lines 83-94: the custom weights, [slider / 100] per stock. *)
Definition custom_weights (slider : string → Z) (stocks : list string)
  : gmap string Qc :=
  dict_comp (λ stock, Qc_of_Z (slider stock) / Qc_of_Z 100) stocks.

Definition is_custom (method : string) (stocks : list string) : bool :=
  bool_decide (method = "Custom Weight") && bool_decide (0 < length stocks)%nat.

Definition sidebar_weights (w : widgets) : gmap string Qc :=
  let stocks := selected_stocks (w_selected w) in
  if is_custom (w_allocation_method w) stocks
  then custom_weights (w_slider w) stocks else ∅.

(** Lines 240, 253, 257: [{stock: 1/len(selected_stocks) for stock in ...}]. *)
Definition equal_weights (stocks : list string) : gmap string Qc :=
  dict_comp (λ _, 1 / Qc_of_nat (length stocks)) stocks.

(** Lines 245-246: the rows of the selected stocks, NaN yields filled
    with 0, indexed by symbol. *)
Definition yields (df : list row) (stocks : list string) : list (string * Qc) :=
  (λ r, (Symbol r, default 0 (Div_Yield r)))
    <$> filter (λ r, Symbol r ∈ stocks) df.

(** [yields[stock]]: label lookup in the symbol-indexed series. *)
Fixpoint yields_get (ys : list (string * Qc)) (stock : string) : option Qc :=
  match ys with
  | [] => None
  | (s, y) :: ys' => if decide (s = stock) then Some y else yields_get ys' stock
  end.

(** The dividend yield the dataframe records for a stock: [None] when the
    value is missing (NaN, or no row at all). *)
Fixpoint div_yield (df : list row) (stock : string) : option Qc :=
  match df with
  | [] => None
  | r :: df' =>
      if decide (Symbol r = stock) then Div_Yield r else div_yield df' stock
  end.

(** The same with a missing yield counted as 0. *)
Definition yield_or_zero (df : list row) (stock : string) : Qc :=
  default 0 (div_yield df stock).

(** Line 247: [yields.sum()]. *)
Definition total_yield (ys : list (string * Qc)) : Qc := sum_list (snd <$> ys).

(** Line 250, with the [KeyError] of a label the series does not have. *)
Definition yield_weights (ys : list (string * Qc)) (stocks : list string)
  : string + gmap string Qc :=
  foldl (λ acc stock,
           match acc with
           | inl k => inl k
           | inr m =>
               match yields_get ys stock with
               | Some y => inr (<[stock := y / total_yield ys]> m)
               | None => inl stock
               end
           end) (inr ∅) stocks.

(** Lines 239-261: the weights by allocation method, with the notices shown
    on the way. *)
Definition compute_weights (w : widgets) (df : list row)
  : list notice * (string + gmap string Qc) :=
  let stocks := selected_stocks (w_selected w) in
  let method := w_allocation_method w in
  if decide (method = "Equal Weight") then ([], inr (equal_weights stocks))
  else if decide (method = "Yield Weight") then
    let ys := yields df stocks in
    if decide (0 < total_yield ys)
    then ([], yield_weights ys stocks)
    else ([Warning "No yield data available, using equal weights"],
          inr (equal_weights stocks))
  else if decide (method = "Market Cap Weight") then
    ([Info "Market cap weighting requires additional data. Using equal weights for now."],
     inr (equal_weights stocks))
  else ([], inr (sidebar_weights w)).

(** Lines 264 and 98: [np.isclose(sum(weights.values()), 1.0, atol=0.01)]. *)
Definition weights_valid (weights : gmap string Qc) : bool :=
  isclose (dict_sum weights) 1 default_rtol (frac 1 100).

(** Line 95 in binary64: [slider / 100] on the int the slider returns, the
    correctly rounded quotient.  The slider values and 100 are doubles
    exactly, so this is the quotient of the two doubles. *)
Definition slider_weight (k : Z) : float :=
  (Float64.of_Z k / 100)%float.

(** Lines 264 and 98 in binary64, on the values of [weights] in the order
    of the dict. *)
Definition weights_valid64 (weights : list float) : bool :=
  Float64.isclose (Float64.fsum weights) 1 1e-05 0.01.

(** Lines 151-160, 169-197, 211-220. *)
Definition drip_fee (w : widgets) : Qc :=
  if w_drip_enabled w then w_drip_fee_pct w / Qc_of_Z 100 else 0.

Definition tax_config_of (w : widgets) : option tax_config :=
  if w_tax_enabled w then
    Some {| qualified_dividend_rate := w_qualified_pct w / Qc_of_Z 100;
            ordinary_dividend_rate := w_ordinary_pct w / Qc_of_Z 100;
            long_term_capital_gains_rate := w_long_term_pct w / Qc_of_Z 100 |}
  else None.

Definition rebalancing_fee (w : widgets) : Qc :=
  if decide (w_rebalancing_frequency w = "No Rebalancing") then 0
  else w_rebalancing_fee_pct w / Qc_of_Z 100.

(** The sidebar part of the script, lines 60-224. *)
Definition sidebar (w : widgets) : list notice :=
  let stocks := selected_stocks (w_selected w) in
  (if over_limit (w_selected w)
   then [SidebarError "Maximum 20 stocks allowed!"] else [])
  ++ (if is_custom (w_allocation_method w) stocks then
        let total_weight := dict_sum (sidebar_weights w) in
        if weights_valid (sidebar_weights w)
        then [SidebarSuccess total_weight] else [SidebarWarning total_weight]
      else [])
  ++ (if decide (w_rebalancing_frequency w = "No Rebalancing") then []
      else [SidebarInfo (w_rebalancing_frequency w)]).

(** Lines 263-295: the validation of the weights, then the backtester
    calls with their arguments. *)
Definition validate_and_launch (w : widgets) (weights : gmap string Qc)
  : outcome :=
  if negb (weights_valid weights) then
    Stopped "Weights must sum to 100%. Please adjust your custom weights."
  else
    Launched {| l_stocks := selected_stocks (w_selected w);
                l_weights := weights;
                l_start_date := w_start_date w;
                l_end_date := w_end_date w;
                l_initial_investment := w_initial_investment w;
                l_monthly_contribution := w_monthly_contribution w;
                l_drip_enabled := w_drip_enabled w;
                l_drip_fee := drip_fee w;
                l_tax_config := tax_config_of w;
                l_rebalancing_frequency := w_rebalancing_frequency w;
                l_rebalancing_fee := rebalancing_fee w |}.

(** The [if run_backtest:] block, lines 234-295. *)
Definition on_run (w : widgets) (df : list row) : list notice * outcome :=
  let stocks := selected_stocks (w_selected w) in
  if negb (w_run_backtest w) then ([], NotRun)
  else if decide (length stocks = 0)%nat then
    ([], Stopped "Please select at least one stock to backtest.")
  else
    let '(notes, r) := compute_weights w df in
    match r with
    | inl key => (notes, KeyError key)
    | inr weights => (notes, validate_and_launch w weights)
    end.

(** One execution of the script up to the backtester calls: everything
    shown, and how the run block ended. *)
Definition script (w : widgets) (df : list row) : list notice * outcome :=
  let '(notes, o) := on_run w df in (sidebar w ++ notes, o).

(** The backtester is constructed, data fetched and days simulated only on
    the [Launched] path. *)
Definition simulation_started (o : outcome) : bool :=
  match o with Launched _ => true | _ => false end.

(** The same widget values with another selection, or another method. *)
Definition with_selected (l : list string) (w : widgets) : widgets :=
  {| w_selected := l;
     w_allocation_method := w_allocation_method w;
     w_slider := w_slider w;
     w_start_date := w_start_date w;
     w_end_date := w_end_date w;
     w_initial_investment := w_initial_investment w;
     w_monthly_contribution := w_monthly_contribution w;
     w_drip_enabled := w_drip_enabled w;
     w_drip_fee_pct := w_drip_fee_pct w;
     w_tax_enabled := w_tax_enabled w;
     w_qualified_pct := w_qualified_pct w;
     w_ordinary_pct := w_ordinary_pct w;
     w_long_term_pct := w_long_term_pct w;
     w_rebalancing_frequency := w_rebalancing_frequency w;
     w_rebalancing_fee_pct := w_rebalancing_fee_pct w;
     w_run_backtest := w_run_backtest w |}.

Definition with_method (m : string) (w : widgets) : widgets :=
  {| w_selected := w_selected w;
     w_allocation_method := m;
     w_slider := w_slider w;
     w_start_date := w_start_date w;
     w_end_date := w_end_date w;
     w_initial_investment := w_initial_investment w;
     w_monthly_contribution := w_monthly_contribution w;
     w_drip_enabled := w_drip_enabled w;
     w_drip_fee_pct := w_drip_fee_pct w;
     w_tax_enabled := w_tax_enabled w;
     w_qualified_pct := w_qualified_pct w;
     w_ordinary_pct := w_ordinary_pct w;
     w_long_term_pct := w_long_term_pct w;
     w_rebalancing_frequency := w_rebalancing_frequency w;
     w_rebalancing_fee_pct := w_rebalancing_fee_pct w;
     w_run_backtest := w_run_backtest w |}.

(** Line 92: the value a weight slider starts at,
    [100 // len(selected_stocks)]. *)
Definition default_slider (stocks : list string) : Z :=
  (100 / Z.of_nat (length stocks))%Z.

(** The slider values of the stocks added up, in percent. *)
Definition slider_total (slider : string → Z) (stocks : list string) : Z :=
  foldr Z.add 0%Z (slider <$> stocks).

(** The ranges the widgets are declared with ([min_value], [max_value]):
    the sliders (lines 90-91), the amounts (128-129, 137-138), the DRIP fee
    (155-156), the tax rates (175-176, 183-184, 191-192) and the rebalancing
    fee (215-216), the fees and rates in percent. *)
Record within_bounds (w : widgets) : Prop := {
  slider_bounds : ∀ s, (0 ≤ w_slider w s ≤ 100)%Z;
  initial_bounds : (1000 ≤ w_initial_investment w ≤ 10000000)%Z;
  monthly_bounds : (0 ≤ w_monthly_contribution w ≤ 100000)%Z;
  drip_fee_bounds : 0 ≤ w_drip_fee_pct w ≤ Qc_of_Z 5;
  qualified_bounds : 0 ≤ w_qualified_pct w ≤ Qc_of_Z 50;
  ordinary_bounds : 0 ≤ w_ordinary_pct w ≤ Qc_of_Z 50;
  long_term_bounds : 0 ≤ w_long_term_pct w ≤ Qc_of_Z 50;
  rebalancing_fee_bounds : 0 ≤ w_rebalancing_fee_pct w ≤ Qc_of_Z 2 }.

End Page.

(** ** Sample inputs *)

Module Sample.
Import Page.

Definition df : list row :=
  [ mkRow "JNJ" (Some (frac 3 1)); mkRow "KO" (Some (frac 3 1));
    mkRow "MMM" None; mkRow "PG" (Some (frac 2 1)) ].

(** Three stocks, equal weight, quarterly rebalancing, button pressed. *)
Definition widgets_equal : widgets :=
  {| w_selected := ["JNJ"; "KO"; "PG"];
     w_allocation_method := "Equal Weight";
     w_slider := λ _, 33%Z;
     w_start_date := mkDate 2020 1 2;
     w_end_date := mkDate 2021 1 4;
     w_initial_investment := 10000;
     w_monthly_contribution := 100;
     w_drip_enabled := true;
     w_drip_fee_pct := 0;
     w_tax_enabled := false;
     w_qualified_pct := frac 15 1;
     w_ordinary_pct := frac 22 1;
     w_long_term_pct := frac 15 1;
     w_rebalancing_frequency := "Quarterly";
     w_rebalancing_fee_pct := frac 1 10;
     w_run_backtest := true |}.

(** Twenty-one distinct symbols, one more than the page allows. *)
Definition twenty_one : list string :=
  ["S01"; "S02"; "S03"; "S04"; "S05"; "S06"; "S07"; "S08"; "S09"; "S10";
   "S11"; "S12"; "S13"; "S14"; "S15"; "S16"; "S17"; "S18"; "S19"; "S20";
   "S21"].

Definition widgets_too_many : widgets := with_selected twenty_one widgets_equal.

(** Custom sliders at 33% each for three stocks: the weights sum to 0.99. *)
Definition widgets_custom : widgets := with_method "Custom Weight" widgets_equal.

(** Custom sliders at 33% each for two stocks: the weights sum to 0.66. *)
Definition widgets_custom_bad : widgets :=
  with_selected ["JNJ"; "KO"] widgets_custom.

Definition widgets_yield : widgets :=
  with_selected ["JNJ"; "MMM"; "PG"] (with_method "Yield Weight" widgets_equal).

(** One stock on custom weights, its slider moved from 100 to 99. *)
Definition widgets_99 : widgets :=
  {| w_selected := ["KO"];
     w_allocation_method := "Custom Weight";
     w_slider := λ _, 99%Z;
     w_start_date := mkDate 2020 1 2;
     w_end_date := mkDate 2021 1 4;
     w_initial_investment := 10000;
     w_monthly_contribution := 100;
     w_drip_enabled := true;
     w_drip_fee_pct := 0;
     w_tax_enabled := false;
     w_qualified_pct := frac 15 1;
     w_ordinary_pct := frac 22 1;
     w_long_term_pct := frac 15 1;
     w_rebalancing_frequency := "Quarterly";
     w_rebalancing_fee_pct := frac 1 10;
     w_run_backtest := true |}.

(** The weight mapping the page builds from it, each value the exact value
    of the double: [99 / 100] is 0.98999999999999999111... *)
Definition weights_99 : gmap string Qc :=
  {[ "KO" := default 0 (Float64.to_Qc (slider_weight (w_slider widgets_99 "KO"))) ]}.

End Sample.

(** ** Calendar arithmetic *)

Module Calendar.

(** Days since 1970-01-01 in the proleptic Gregorian calendar. *)
Definition days_from_civil (d : Date) : Z :=
  let y := if (month d <=? 2)%Z then (year d - 1)%Z else year d in
  let era := (y / 400)%Z in
  let yoe := (y - era * 400)%Z in
  let mp := ((month d + 9) mod 12)%Z in
  let doy := ((153 * mp + 2) / 5 + day d - 1)%Z in
  let doe := (yoe * 365 + yoe / 4 - yoe / 100 + doy)%Z in
  (era * 146097 + doe - 719468)%Z.

(** [later - earlier] in days. *)
Definition days_between (earlier later : Date) : Z :=
  (days_from_civil later - days_from_civil earlier)%Z.

Definition date_le (a b : Date) : bool :=
  bool_decide (days_from_civil a ≤ days_from_civil b)%Z.

Definition date_lt (a b : Date) : bool :=
  bool_decide (days_from_civil a < days_from_civil b)%Z.

(** Months since year 0, to compare calendar months. *)
Definition month_index (d : Date) : Z := (year d * 12 + (month d - 1))%Z.

End Calendar.

(** ** Tax calculator, spec section 4.2 *)

Module TaxCalc.
Import Calendar.

(** Modelled from the spec: the TaxLot of section 3 (acquisition date,
    shares, cost basis per share); [modules/portfolio_backtester.py] is not
    among the sources. *)
Record TaxLot := mkLot {
  lot_date : Date;
  lot_shares : Qc;
  lot_basis : Qc }.

(** The part of a lot matched to a sale. *)
Record Portion := mkPortion {
  p_acquired : Date;
  p_shares : Qc;
  p_basis : Qc }.

Inductive term := ShortTerm | LongTerm.

Global Instance term_eq_dec : EqDecision term.
Proof. solve_decision. Defined.

(** Modelled from the spec: what the tax calculator of section 4.2 is
    configured with, a rate for each class of dividend and of capital
    gain.  [config] is the page's three-key [tax_config]; the rate for
    short-term gains has no key there and is a field of its own; the
    qualified-dividend holding threshold is the configurable parameter of
    sections 3 and 9. *)
Record rates := mkRates {
  config : Page.tax_config;
  short_term_capital_gains_rate : Qc;
  qualified_holding_days : Z }.

(** Modelled from the spec: the threshold's default, "default 60 days". *)
Definition QUALIFIED_HOLDING_DAYS : Z := 60.

Definition total_shares (lots : list TaxLot) : Qc :=
  sum_list (lot_shares <$> lots).

Definition matched_shares (ps : list Portion) : Qc :=
  sum_list (p_shares <$> ps).

(** Modelled from the spec: FIFO matching of section 4.2, "match sold
    shares to TaxLots FIFO (earliest lot first)", on the per-symbol queue of
    section 9 (append on purchase, pop from the front on sale).  Returns the
    lots that remain and the matched portions, earliest first. *)
Fixpoint fifo_match (lots : list TaxLot) (qty : Qc)
  : list TaxLot * list Portion :=
  match lots with
  | [] => ([], [])
  | lot :: rest =>
      if decide (qty ≤ 0) then (lots, [])
      else if decide (lot_shares lot ≤ qty) then
        let '(remaining, matched) := fifo_match rest (qty - lot_shares lot) in
        (remaining,
         mkPortion (lot_date lot) (lot_shares lot) (lot_basis lot) :: matched)
      else
        (mkLot (lot_date lot) (lot_shares lot - qty) (lot_basis lot) :: rest,
         [mkPortion (lot_date lot) qty (lot_basis lot)])
  end.

(** Modelled from the spec: "holding period (sale date − lot acquisition
    date); classify short-term (≤365 days) vs long-term (>365 days)". *)
Definition holding_period (sale : Date) (p : Portion) : Z :=
  days_between (p_acquired p) sale.

Definition classify (sale : Date) (p : Portion) : term :=
  if decide (holding_period sale p ≤ 365)%Z then ShortTerm else LongTerm.

Definition capital_gains_rate (r : rates) (t : term) : Qc :=
  match t with
  | LongTerm => Page.long_term_capital_gains_rate (config r)
  | ShortTerm => short_term_capital_gains_rate r
  end.

(** Gain (or, when negative, loss) realized by selling a portion at [price]. *)
Definition realized_gain (price : Qc) (p : Portion) : Qc :=
  p_shares p * (price - p_basis p).

(** A sale of one symbol inside a rebalancing pass. *)
Record Sale := mkSale {
  s_symbol : string;
  s_shares : Qc;
  s_price : Qc;
  s_portions : list Portion }.

Definition sale_gain (s : Sale) : Qc :=
  sum_list (realized_gain (s_price s) <$> s_portions s).

(** Rate times gain, portion by portion; a loss enters negatively. *)
Definition sale_liability (r : rates) (date : Date) (s : Sale) : Qc :=
  sum_list ((λ p, capital_gains_rate r (classify date p)
                  * realized_gain (s_price s) p) <$> s_portions s).

Definition Qcmax (x y : Qc) : Qc := if decide (x ≤ y) then y else x.

(** Modelled from the spec: "apply the corresponding configured rate to the
    realized gain only (losses reduce taxable gain but never produce a tax
    credit)": the liabilities of the event's sales are netted and floored
    at zero. *)
Definition capital_gains_tax (r : rates) (date : Date) (sales : list Sale) : Qc :=
  Qcmax 0 (sum_list (sale_liability r date <$> sales)).

Inductive tax_source :=
  | DividendTax (symbol : string)
  | CapitalGainsTax.

(** Modelled from the spec: the tax-payment record, "date, symbol, gross
    amount, tax withheld, net amount". *)
Record TaxPayment := mkTaxPayment {
  tp_date : Date;
  tp_source : tax_source;
  tp_gross : Qc;
  tp_tax : Qc;
  tp_net : Qc }.

(** The record emitted for a rebalancing event: gross is the net realized
    gain of the event. *)
Definition capital_gains_payment (r : rates) (date : Date) (sales : list Sale)
  : TaxPayment :=
  let gross := sum_list (sale_gain <$> sales) in
  let tax := capital_gains_tax r date sales in
  mkTaxPayment date CapitalGainsTax gross tax (gross - tax).

(** Lots acquired strictly before the ex-date: only these earn the dividend. *)
Definition eligible_lots (ex_date : Date) (lots : list TaxLot) : list TaxLot :=
  filter (λ lot, (0 < days_between (lot_date lot) ex_date)%Z) lots.

Definition dividend_rate (r : rates) (ex_date : Date) (lot : TaxLot) : Qc :=
  if decide (qualified_holding_days r ≤ days_between (lot_date lot) ex_date)%Z
  then Page.qualified_dividend_rate (config r)
  else Page.ordinary_dividend_rate (config r).

(** Modelled from the spec: dividend tax of section 4.2; each lot's share
    of the dividend is qualified when the lot has been held for at least the
    threshold as of the ex-date, ordinary otherwise. *)
Definition dividend_tax (r : rates) (ex_date : Date) (lots : list TaxLot)
    (per_share : Qc) : Qc :=
  sum_list ((λ lot, dividend_rate r ex_date lot * (lot_shares lot * per_share))
              <$> lots).

(** A lot taken whole, and a lot taken in part. *)
Definition whole (lot : TaxLot) : Portion :=
  mkPortion (lot_date lot) (lot_shares lot) (lot_basis lot).

Definition part (lot : TaxLot) (q : Qc) : Portion :=
  mkPortion (lot_date lot) q (lot_basis lot).

Definition rest_of (lot : TaxLot) (q : Qc) : TaxLot :=
  mkLot (lot_date lot) (lot_shares lot - q) (lot_basis lot).

(** First in, first out: the matched portions are the first [n] lots of
    the queue taken whole, then possibly a part of the next one; the queue
    that remains is what is behind them. *)
Definition fifo (lots : list TaxLot) (remaining : list TaxLot)
    (matched : list Portion) : Prop :=
  ∃ n : nat,
    (matched = whole <$> take n lots ∧ remaining = drop n lots)
    ∨ (∃ lot q, lots !! n = Some lot ∧ 0 < q ∧ q < lot_shares lot
                ∧ matched = (whole <$> take n lots) ++ [part lot q]
                ∧ remaining = rest_of lot q :: drop (S n) lots).


End TaxCalc.

(** ** Simulation engine, spec sections 3, 4.1 and 4.3 *)

Module Engine.
Import Calendar TaxCalc.

(** Modelled from the spec: the data model of section 3;
    [modules/portfolio_backtester.py], which holds the engine, is not among
    the sources. *)
Record Holding := mkHolding {
  h_shares : Qc;
  h_lots : list TaxLot;
  h_dividends : Qc }.            (* cumulative dividends received *)

Inductive frequency := NoRebalancing | Monthly | Quarterly | SemiAnnual | Annual.

Global Instance frequency_eq_dec : EqDecision frequency.
Proof. solve_decision. Defined.

(** Months between two rebalancing passes; "none" has no period. *)
Definition period_months (f : frequency) : option Z :=
  match f with
  | NoRebalancing => None
  | Monthly => Some 1%Z
  | Quarterly => Some 3%Z
  | SemiAnnual => Some 6%Z
  | Annual => Some 12%Z
  end.

(** Modelled from the spec: the inputs of a run, section 6. *)
Record Input := mkInput {
  symbols : list string;
  weights : gmap string Qc;
  start_date : Date;
  end_date : Date;
  initial_investment : Qc;
  monthly_contribution : Qc;
  drip_enabled : bool;
  drip_fee : Qc;
  tax : option rates;
  rebalancing_frequency : frequency;
  rebalancing_fee : Qc }.

(** Modelled from the spec: the pre-fetched series of the market data provider: the trading-date
    axis, close prices and per-share dividends by symbol and date, and the
    benchmark close. *)
Record MarketData := mkMarketData {
  trading_dates : list Date;
  price : string → Date → option Qc;
  dividend : string → Date → option Qc;
  benchmark : Date → option Qc }.

Record DividendPayment := mkDividendPayment {
  dp_date : Date;
  dp_symbol : string;
  dp_gross : Qc;
  dp_tax : Qc;
  dp_net : Qc;
  dp_fee : Qc;                   (* DRIP fee, 0 when not reinvested *)
  dp_reinvested : bool }.

Record Trade := mkTrade {
  tr_symbol : string;
  tr_shares : Qc;                (* shares delta: negative for a sale *)
  tr_gain : Qc }.                (* realized gain or loss *)

Record RebalancingEvent := mkRebalancingEvent {
  re_date : Date;
  re_pre_weights : gmap string Qc;
  re_target_weights : gmap string Qc;
  re_trades : list Trade;
  re_fees : Qc;
  re_taxes : Qc }.

(** Modelled from the spec: portfolioState of section 3, with the histories the run accumulates. *)
Record State := mkState {
  as_of : Date;
  cash : Qc;
  holdings : gmap string Holding;
  last_price : gmap string Qc;
  contributions : list (Date * Qc);
  dividend_history : list DividendPayment;
  tax_payments : list TaxPayment;
  rebalancing_history : list RebalancingEvent }.

Inductive violation :=
  | NegativeCash
  | NegativeShares (symbol : string).

(** Modelled from the spec: the error taxonomy of section 7 (a symbol without data is a warning,
    not an error). *)
Inductive error :=
  | ConfigurationError (msg : string)
  | SimulationInvariantError (date : Date) (v : violation).

(** *** Field updates *)

Definition set_as_of (d : Date) (st : State) : State :=
  mkState d (cash st) (holdings st) (last_price st) (contributions st)
    (dividend_history st) (tax_payments st) (rebalancing_history st).

Definition set_cash (c : Qc) (st : State) : State :=
  mkState (as_of st) c (holdings st) (last_price st) (contributions st)
    (dividend_history st) (tax_payments st) (rebalancing_history st).

Definition set_holdings (H : gmap string Holding) (st : State) : State :=
  mkState (as_of st) (cash st) H (last_price st) (contributions st)
    (dividend_history st) (tax_payments st) (rebalancing_history st).

Definition set_last_price (P : gmap string Qc) (st : State) : State :=
  mkState (as_of st) (cash st) (holdings st) P (contributions st)
    (dividend_history st) (tax_payments st) (rebalancing_history st).

Definition record_contribution (c : Date * Qc) (st : State) : State :=
  mkState (as_of st) (cash st) (holdings st) (last_price st)
    (contributions st ++ [c])
    (dividend_history st) (tax_payments st) (rebalancing_history st).

Definition record_dividend (p : DividendPayment) (st : State) : State :=
  mkState (as_of st) (cash st) (holdings st) (last_price st) (contributions st)
    (dividend_history st ++ [p]) (tax_payments st) (rebalancing_history st).

Definition record_tax (p : TaxPayment) (st : State) : State :=
  mkState (as_of st) (cash st) (holdings st) (last_price st) (contributions st)
    (dividend_history st) (tax_payments st ++ [p]) (rebalancing_history st).

Definition record_rebalancing (e : RebalancingEvent) (st : State) : State :=
  mkState (as_of st) (cash st) (holdings st) (last_price st) (contributions st)
    (dividend_history st) (tax_payments st) (rebalancing_history st ++ [e]).

(** *** Valuation *)

Definition price_in (P : gmap string Qc) (sym : string) : Qc :=
  default 0 (P !! sym).

Definition shares_in (H : gmap string Holding) (sym : string) : Qc :=
  default 0 (h_shares <$> H !! sym).

(** Modelled from the spec: [Σ(shares × last known price)] of section 3. *)
Definition positions_value (H : gmap string Holding) (P : gmap string Qc) : Qc :=
  map_fold (λ sym h acc, acc + h_shares h * price_in P sym) 0 H.

(** Modelled from the spec: "total market value = cash + Σ(shares × last
    known price)". *)
Definition net_worth (st : State) : Qc :=
  cash st + positions_value (holdings st) (last_price st).

Definition weight_of (W : gmap string Qc) (sym : string) : Qc :=
  default 0 (W !! sym).

(** *** Purchases *)

Definition empty_holding : Holding := mkHolding 0 [] 0.

Definition add_lot (d : Date) (q p : Qc) (h : Holding) : Holding :=
  mkHolding (h_shares h + q) (h_lots h ++ [mkLot d q p]) (h_dividends h).

(** Modelled from the spec: a purchase, of the initial allocation, a
    contribution, a reinvestment or a rebalancing pass.  Buy [amount] worth
    of [sym] at its last known price, as a new lot dated
    [d]; nothing happens while the symbol has no price yet. *)
Definition buy (d : Date) (sym : string) (amount : Qc) (st : State) : State :=
  match last_price st !! sym with
  | Some p =>
      let h := default empty_holding (holdings st !! sym) in
      set_cash (cash st - amount)
        (set_holdings (<[sym := add_lot d (amount / p) p h]> (holdings st)) st)
  | None => st
  end.

(** Modelled from the spec: "deploy it across symbols according to the
    current target weights (creating new TaxLots)". *)
Definition deploy (d : Date) (W : gmap string Qc) (syms : list string)
    (amount : Qc) (st : State) : State :=
  foldl (λ st sym, buy d sym (weight_of W sym * amount) st) st syms.

(** *** Step 1: mark-to-market *)

(** Modelled from the spec: step 1, "update last known price per symbol
    (carry forward previous price if a symbol's series has a gap)". *)
Definition mark_to_market (md : MarketData) (syms : list string) (d : Date)
    (st : State) : State :=
  set_as_of d
    (set_last_price
       (foldl (λ P sym, match price md sym d with
                        | Some p => <[sym := p]> P
                        | None => P
                        end) (last_price st) syms) st).

(** *** Step 2: dividends *)

Definition credit_dividend (gross : Qc) (h : Holding) : Holding :=
  mkHolding (h_shares h) (h_lots h) (h_dividends h + gross).

(** Modelled from the spec: step 2 of section 4.1.  The payment a holding
    earns on an ex-date: gross on the shares held
    before that date, tax withheld by the tax calculator (bypassed when tax
    modelling is off), and the DRIP fee when the net amount is reinvested. *)
Definition dividend_payment (inp : Input) (d : Date) (per_share : Qc)
    (sym : string) (h : Holding) (reinvest : bool) : DividendPayment :=
  let lots := eligible_lots d (h_lots h) in
  let gross := total_shares lots * per_share in
  let withheld := match tax inp with
                  | Some r => dividend_tax r d lots per_share
                  | None => 0
                  end in
  let net := gross - withheld in
  mkDividendPayment d sym gross withheld net
    (if reinvest then net * drip_fee inp else 0) reinvest.

(** Modelled from the spec: step 2 of section 4.1.  Book a payment: the
    net amount less the fee goes to cash, and from
    there into new shares at today's price when it is reinvested. *)
Definition settle_dividend (inp : Input) (p : DividendPayment) (h : Holding)
    (st : State) : State :=
  let st1 :=
    record_dividend p
      (set_cash (cash st + (dp_net p - dp_fee p))
         (set_holdings
            (<[dp_symbol p := credit_dividend (dp_gross p) h]> (holdings st)) st)) in
  let st2 :=
    match tax inp with
    | Some _ =>
        record_tax (mkTaxPayment (dp_date p) (DividendTax (dp_symbol p))
                      (dp_gross p) (dp_tax p) (dp_net p)) st1
    | None => st1
    end in
  if dp_reinvested p
  then buy (dp_date p) (dp_symbol p) (dp_net p - dp_fee p) st2
  else st2.

(** Modelled from the spec: a dividend is paid only on shares held before
    the ex-date. *)
Definition pay_dividend (inp : Input) (d : Date) (per_share : Qc)
    (sym : string) (st : State) : State :=
  match holdings st !! sym with
  | None => st
  | Some h =>
      if decide (0 < total_shares (eligible_lots d (h_lots h))) then
        let reinvest :=
          drip_enabled inp && bool_decide (is_Some (last_price st !! sym)) in
        settle_dividend inp (dividend_payment inp d per_share sym h reinvest) h st
      else st
  end.

(** Modelled from the spec: step 2 for every symbol with a dividend event
    on [d]. *)
Definition apply_dividends (inp : Input) (md : MarketData) (syms : list string)
    (d : Date) (st : State) : State :=
  foldl (λ st sym, match dividend md sym d with
                   | Some per_share => pay_dividend inp d per_share sym st
                   | None => st
                   end) st syms.

(** *** Step 3: the monthly contribution *)

(** Modelled from the spec: "same calendar day-of-month as start, or
    closest prior trading day": [d] is not past the start's day-of-month and
    the next trading day is in a later month or past that day. *)
Definition is_contribution_day (start d : Date) (next : option Date) : bool :=
  bool_decide (day d ≤ day start)%Z
  && match next with
     | Some n => bool_decide (month_index d < month_index n)%Z
                 || bool_decide (day start < day n)%Z
     | None => bool_decide (day d = day start)
     end.

(** Modelled from the spec: step 3, "add the contribution amount to cash,
    then immediately deploy it". *)
Definition contribute (inp : Input) (syms : list string) (d : Date) (st : State)
  : State :=
  let amount := monthly_contribution inp in
  deploy d (weights inp) syms amount
    (record_contribution (d, amount) (set_cash (cash st + amount) st)).

(** *** Step 4: rebalancing, section 4.3 *)

(** Modelled from the spec: the trigger policy.  "none" never fires; a
    periodic policy fires on the first trading day of a month that is a
    whole number of periods after the start month. *)
Definition rebalancing_due (f : frequency) (start : Date) (prev : option Date)
    (d : Date) : bool :=
  match period_months f, prev with
  | Some k, Some p =>
      bool_decide (month_index p < month_index d)%Z
      && bool_decide ((month_index d - month_index start) mod k = 0)%Z
  | _, _ => false
  end.

(** Modelled from the spec: "current weights = (shares × price) / total
    value per symbol". *)
Definition current_weights (syms : list string) (st : State) : gmap string Qc :=
  dict_comp (λ sym, shares_in (holdings st) sym * price_in (last_price st) sym
                    / net_worth st) syms.

(** Target value minus current value: positive when underweight. *)
Definition gap (W : gmap string Qc) (total : Qc) (st : State) (sym : string) : Qc :=
  weight_of W sym * total
  - shares_in (holdings st) sym * price_in (last_price st) sym.

(** Modelled from the spec: "for overweight symbols, sell the excess".
    The sale that removes the excess of an overweight symbol, with the
    portions FIFO matching assigns to it. *)
Definition plan_sale (W : gmap string Qc) (total : Qc) (st : State)
    (sym : string) : option Sale :=
  match holdings st !! sym, last_price st !! sym with
  | Some h, Some p =>
      if decide (gap W total st sym < 0) then
        let qty := (- gap W total st sym) / p in
        Some (mkSale sym qty p (fifo_match (h_lots h) qty).2)
      else None
  | _, _ => None
  end.

(** Modelled from the spec: a sale removes or partially removes FIFO lots
    and credits the proceeds. *)
Definition apply_sale (st : State) (s : Sale) : State :=
  match holdings st !! s_symbol s with
  | Some h =>
      let h' := mkHolding (h_shares h - s_shares s)
                          (fifo_match (h_lots h) (s_shares s)).1
                          (h_dividends h) in
      set_cash (cash st + s_shares s * s_price s)
        (set_holdings (<[s_symbol s := h']> (holdings st)) st)
  | None => st
  end.

(** Modelled from the spec: "for underweight symbols, buy with the freed
    proceeds": the purchase an underweight symbol asks for. *)
Definition plan_purchase (W : gmap string Qc) (total : Qc) (st : State)
    (sym : string) : option (string * Qc) :=
  match last_price st !! sym with
  | Some _ =>
      if decide (0 < gap W total st sym) then Some (sym, gap W total st sym)
      else None
  | None => None
  end.

(** Modelled from the spec: purchases are paid from the freed proceeds
    ("fees consume some proceeds"): when amounts plus fees
    exceed the cash at hand, every purchase is scaled down alike. *)
Definition purchase_scale (budget wanted fee : Qc) : Qc :=
  if decide (wanted * (1 + fee) ≤ budget) then 1
  else if decide (0 < budget) then budget / (wanted * (1 + fee))
  else 0.

Definition sale_trade (s : Sale) : Trade :=
  mkTrade (s_symbol s) (- s_shares s) (sale_gain s).

Definition purchase_trade (st : State) (b : string * Qc) : Trade :=
  mkTrade b.1 (b.2 / price_in (last_price st) b.1) 0.

(** Modelled from the spec: a rebalancing pass of section 4.3: sales, their
    fees and the capital-gains tax, then purchases and their fees, recorded
    as one RebalancingEvent (and one tax payment when taxes are on). *)
Definition rebalance (inp : Input) (syms : list string) (d : Date) (st : State)
  : State :=
  let W := weights inp in
  let fee := rebalancing_fee inp in
  let total := net_worth st in
  let sales := omap (plan_sale W total st) syms in
  let st1 := foldl apply_sale st sales in
  let sale_fees := fee * sum_list ((λ s, s_shares s * s_price s) <$> sales) in
  let taxes := match tax inp with
               | Some r => capital_gains_tax r d sales
               | None => 0
               end in
  let st2 := set_cash (cash st1 - sale_fees - taxes) st1 in
  let wanted := omap (plan_purchase W total st) syms in
  let scale := purchase_scale (cash st2) (sum_list (snd <$> wanted)) fee in
  let purchases := (λ b : string * Qc, (b.1, scale * b.2)) <$> wanted in
  let st3 := foldl (λ st b, buy d b.1 b.2 st) st2 purchases in
  let purchase_fees := fee * sum_list (snd <$> purchases) in
  let st4 := set_cash (cash st3 - purchase_fees) st3 in
  let event :=
    mkRebalancingEvent d (current_weights syms st) W
      ((sale_trade <$> sales) ++ (purchase_trade st <$> purchases))
      (sale_fees + purchase_fees) taxes in
  let st5 := record_rebalancing event st4 in
  match tax inp with
  | Some r => record_tax (capital_gains_payment r d sales) st5
  | None => st5
  end.

(** *** One trading day: the five steps of section 4.1 in their order
    (the snapshot is the returned state) *)

(** Modelled from the spec: the per-day transition of section 4.1. *)
Definition day_step (inp : Input) (md : MarketData) (syms : list string)
    (prev : option Date) (d : Date) (next : option Date) (st : State) : State :=
  let st1 := mark_to_market md syms d st in
  let st2 := apply_dividends inp md syms d st1 in
  let st3 := if is_contribution_day (start_date inp) d next
                && bool_decide (0 < monthly_contribution inp)
             then contribute inp syms d st2 else st2 in
  if rebalancing_due (rebalancing_frequency inp) (start_date inp) prev d
  then rebalance inp syms d st3 else st3.

(** *** Invariants, section 7 *)

Definition negative_holdings (st : State) : list (string * Holding) :=
  map_to_list (filter (λ kv : string * Holding, h_shares kv.2 < 0) (holdings st)).

(** Modelled from the spec: SimulationInvariantError, "negative cash,
    negative shares", reporting the violating date and symbol. *)
Definition check_invariants (d : Date) (st : State) : option error :=
  if decide (cash st < 0) then Some (SimulationInvariantError d NegativeCash)
  else match negative_holdings st with
       | (sym, _) :: _ => Some (SimulationInvariantError d (NegativeShares sym))
       | [] => None
       end.

(** *** The day loop *)

(** Modelled from the spec: Running advances one trading day at a time
    and aborts on the first state that breaks the invariant. *)
Fixpoint run_days (inp : Input) (md : MarketData) (syms : list string)
    (prev : option Date) (dates : list Date) (st : State)
  : error + list State :=
  match dates with
  | [] => inr []
  | d :: rest =>
      let st' := day_step inp md syms prev d (head rest) st in
      match check_invariants d st' with
      | Some e => inl e
      | None =>
          match run_days inp md syms (Some d) rest st' with
          | inl e => inl e
          | inr trace => inr (st' :: trace)
          end
      end
  end.

(** The same loop without the invariant check: the states the steps
    produce, whatever their sign. *)
Fixpoint unchecked_days (inp : Input) (md : MarketData) (syms : list string)
    (prev : option Date) (dates : list Date) (st : State) : list State :=
  match dates with
  | [] => []
  | d :: rest =>
      let st' := day_step inp md syms prev d (head rest) st in
      st' :: unchecked_days inp md syms (Some d) rest st'
  end.

(** *** Set-up *)

(** Modelled from the spec: ConfigurationError, "weights not summing to 1,
    symbol count > 20, start ≥ end, negative amounts". *)
Definition validate (inp : Input) : option string :=
  if decide (Page.MAX_PORTFOLIO_STOCKS < length (symbols inp))%nat
  then Some "more than 20 symbols"
  else if decide (frac 1 100 < Qcabs (dict_sum (weights inp) - 1))
  then Some "weights do not sum to 1"
  else if negb (date_lt (start_date inp) (end_date inp))
  then Some "start date is not before end date"
  else if decide (initial_investment inp < 0 ∨ monthly_contribution inp < 0
                  ∨ drip_fee inp < 0 ∨ rebalancing_fee inp < 0)
  then Some "negative amount"
  else None.

Definition run_dates (inp : Input) (md : MarketData) : list Date :=
  filter (λ d, date_le (start_date inp) d && date_le d (end_date inp))
         (trading_dates md).

Definition has_prices (md : MarketData) (dates : list Date) (sym : string) : bool :=
  existsb (λ d, bool_decide (is_Some (price md sym d))) dates.

(** Modelled from the spec: symbols with no price in the range are
    excluded from the run. *)
Definition tradable (inp : Input) (md : MarketData) : list string :=
  filter (λ sym, has_prices md (run_dates inp md) sym) (symbols inp).

Definition excluded (inp : Input) (md : MarketData) : list string :=
  filter (λ sym, ¬ has_prices md (run_dates inp md) sym) (symbols inp).

(** Modelled from the spec: "a PortfolioState is created at the backtest
    start date from the initial allocation": the initial investment, deployed by
    the target weights at the first day's prices. *)
Definition open_portfolio (inp : Input) (md : MarketData) (syms : list string)
    (d0 : Date) : State :=
  deploy d0 (weights inp) syms (initial_investment inp)
    (mark_to_market md syms d0
       (mkState d0 (initial_investment inp) ∅ ∅ [] [] [] [])).

(** Modelled from the spec: Initialized → Running → Finalized: the
    end-of-day states of a run, or
    the error that ended it. *)
Definition simulate (inp : Input) (md : MarketData) : error + list State :=
  match validate inp with
  | Some msg => inl (ConfigurationError msg)
  | None =>
      match tradable inp md, run_dates inp md with
      | [], _ | _, [] => inl (ConfigurationError "no symbol has price data")
      | syms, d0 :: rest =>
          let st0 := open_portfolio inp md syms d0 in
          match check_invariants d0 st0 with
          | Some e => inl e
          | None => run_days inp md syms None (d0 :: rest) st0
          end
      end
  end.

(** *** The result bundle, section 6 *)

Record HoldingRow := mkHoldingRow {
  hr_symbol : string;
  hr_shares : Qc;
  hr_price : Qc;
  hr_value : Qc;
  hr_dividends : Qc }.

(** Modelled from the spec: the output of section 6 (the metrics are in
    [Analytics]). *)
Record Bundle := mkBundle {
  daily_values : list (Date * Qc);
  daily_values_no_drip : list (Date * Qc);
  benchmark_values : list (Date * option Qc);
  b_contributions : list (Date * Qc);
  b_dividend_history : list DividendPayment;
  b_tax_payments : list TaxPayment;
  b_rebalancing_history : list RebalancingEvent;
  final_cash : Qc;
  final_holdings : list HoldingRow;
  warnings : list string }.

Definition value_series (trace : list State) : list (Date * Qc) :=
  (λ st, (as_of st, net_worth st)) <$> trace.

Definition holding_rows (st : State) : list HoldingRow :=
  (λ kv : string * Holding,
     let p := price_in (last_price st) kv.1 in
     mkHoldingRow kv.1 (h_shares kv.2) p (h_shares kv.2 * p) (h_dividends kv.2))
    <$> map_to_list (holdings st).

Definition without_drip (inp : Input) : Input :=
  mkInput (symbols inp) (weights inp) (start_date inp) (end_date inp)
    (initial_investment inp) (monthly_contribution inp) false (drip_fee inp)
    (tax inp) (rebalancing_frequency inp) (rebalancing_fee inp).

Definition finalize (inp : Input) (md : MarketData) (trace no_drip : list State)
  : option Bundle :=
  match list.last trace with
  | None => None
  | Some st =>
      Some (mkBundle (value_series trace) (value_series no_drip)
              ((λ st, (as_of st, benchmark md (as_of st))) <$> trace)
              (contributions st) (dividend_history st) (tax_payments st)
              (rebalancing_history st) (cash st) (holding_rows st)
              (excluded inp md))
  end.

(** Modelled from the spec: the engine, [run_backtest] of
    [modules/portfolio_backtester.py] (not among the sources), as a function
    of the run inputs and the pre-fetched series. *)
Definition run_backtest (inp : Input) (md : MarketData) : error + Bundle :=
  match simulate inp md, simulate (without_drip inp) md with
  | inl e, _ => inl e
  | _, inl e => inl e
  | inr trace, inr no_drip =>
      match finalize inp md trace no_drip with
      | Some b => inr b
      | None => inl (ConfigurationError "no trading day in range")
      end
  end.

(** *** The ledger of a state: what went in and what was paid out *)

Definition total_contributions (st : State) : Qc :=
  sum_list (snd <$> contributions st).

(** Net dividends, reinvested or credited to cash. *)
Definition total_net_dividends (st : State) : Qc :=
  sum_list (dp_net <$> dividend_history st).

(** Net dividends that were not reinvested. *)
Definition total_cash_dividends (st : State) : Qc :=
  sum_list (dp_net <$> filter (λ p, dp_reinvested p = false) (dividend_history st)).

Definition total_drip_fees (st : State) : Qc :=
  sum_list (dp_fee <$> dividend_history st).

Definition total_rebalancing_fees (st : State) : Qc :=
  sum_list (re_fees <$> rebalancing_history st).

Definition total_rebalancing_taxes (st : State) : Qc :=
  sum_list (re_taxes <$> rebalancing_history st).

(** Mark-to-market gain of one day: the shares held at the previous close
    times the change of their price. *)
Definition price_gain (before after : State) : Qc :=
  map_fold (λ sym h acc,
              acc + h_shares h * (price_in (last_price after) sym
                                  - price_in (last_price before) sym))
           0 (holdings before).

(** The gains summed along a run that starts in [st0]. *)
Fixpoint price_gains (st0 : State) (trace : list State) : Qc :=
  match trace with
  | [] => 0
  | st :: rest => price_gain st0 st + price_gains st rest
  end.


(** What a run has received and paid: contributions and net dividends in,
    DRIP fees, rebalancing fees and rebalancing taxes out. *)
Definition ledger (st : State) : Qc :=
  total_contributions st + total_net_dividends st - total_drip_fees st
  - total_rebalancing_fees st - total_rebalancing_taxes st.

(** *** Predicates on states and data *)

(** The invariant of section 3: cash and every share count are not
    negative. *)
Definition sound (st : State) : Prop :=
  0 ≤ cash st ∧ map_Forall (λ _ h, 0 ≤ h_shares h) (holdings st).

Definition violated (v : violation) (st : State) : Prop :=
  match v with
  | NegativeCash => cash st < 0
  | NegativeShares sym => ∃ h, holdings st !! sym = Some h ∧ h_shares h < 0
  end.

(** No trace of a rebalancing pass: no event and no capital-gains tax. *)
Definition never_rebalanced (st : State) : Prop :=
  rebalancing_history st = []
  ∧ Forall (λ p, tp_source p ≠ CapitalGainsTax) (tax_payments st).

(** The date, the prices and the histories agree: what a purchase or a sale
    leaves alone. *)
Definition same_books (st st' : State) : Prop :=
  as_of st' = as_of st
  ∧ last_price st' = last_price st
  ∧ contributions st' = contributions st
  ∧ dividend_history st' = dividend_history st
  ∧ tax_payments st' = tax_payments st
  ∧ rebalancing_history st' = rebalancing_history st.

Definition positive_prices (md : MarketData) : Prop :=
  ∀ sym d p, price md sym d = Some p → 0 < p.

Definition with_frequency (f : frequency) (inp : Input) : Input :=
  mkInput (symbols inp) (weights inp) (start_date inp) (end_date inp)
    (initial_investment inp) (monthly_contribution inp) (drip_enabled inp)
    (drip_fee inp) (tax inp) f (rebalancing_fee inp).


(** The date and the prices agree: what steps 2 to 4 of a day leave alone. *)
Definition same_market (st st' : State) : Prop :=
  as_of st' = as_of st ∧ last_price st' = last_price st.

(** The states the steps of a run produce, first the opened portfolio, then
    one per trading day, whether or not they satisfy the invariant. *)
Definition reached_states (inp : Input) (md : MarketData) : list State :=
  match run_dates inp md with
  | [] => []
  | d0 :: rest =>
      let syms := tradable inp md in
      let st0 := open_portfolio inp md syms d0 in
      st0 :: unchecked_days inp md syms None (d0 :: rest) st0
  end.


(** Every known price is non-zero, so an amount converts to shares and
    back. *)
Definition prices_nonzero (st : State) : Prop :=
  ∀ sym p, last_price st !! sym = Some p → p ≠ 0.

(** All taxes recorded, on dividends and on rebalancing gains. *)
Definition total_taxes (st : State) : Qc :=
  sum_list (tp_tax <$> tax_payments st).

(** The right-hand side of the conservation law as section 8 words it:
    initial investment, plus contributions, plus net dividends not
    reinvested, minus fees, minus taxes. *)
Definition conserved_as_worded (inp : Input) (st : State) : Qc :=
  initial_investment inp + total_contributions st + total_cash_dividends st
  - (total_drip_fees st + total_rebalancing_fees st) - total_taxes st.

(** The mark-to-market gains along the states of a run. *)
Definition run_price_gains (states : list State) : Qc :=
  match states with
  | [] => 0
  | st0 :: trace => price_gains st0 trace
  end.


End Engine.

(** ** The backtester as the page drives it, lines 268-317 *)

Module Backtester.
Import Engine.

(** What the page leaves to [PortfolioBacktester] and [config.py]: the rate
    for short-term gains, which [tax_config] does not carry, and the meaning
    of the frequency labels other than "No Rebalancing" (the labels are in
    the missing [BacktestConfig.REBALANCING_FREQUENCIES]). *)
Record options := mkOptions {
  opt_short_term_rate : Qc;
  opt_frequency : string → frequency }.

Definition frequency_of (opts : options) (label : string) : frequency :=
  if decide (label = "No Rebalancing") then NoRebalancing
  else opt_frequency opts label.

(** The constructor and [run_backtest] arguments as one engine input. *)
Definition engine_input (opts : options) (l : Page.launch) : Input :=
  mkInput (Page.l_stocks l) (Page.l_weights l)
    (Page.l_start_date l) (Page.l_end_date l)
    (Qc_of_Z (Page.l_initial_investment l))
    (Qc_of_Z (Page.l_monthly_contribution l))
    (Page.l_drip_enabled l) (Page.l_drip_fee l)
    ((λ c, TaxCalc.mkRates c (opt_short_term_rate opts)
             TaxCalc.QUALIFIED_HOLDING_DAYS) <$> Page.l_tax_config l)
    (frequency_of opts (Page.l_rebalancing_frequency l))
    (Page.l_rebalancing_fee l).

End Backtester.

(** ** Sample market data and runs *)

Module Scenario.
Import TaxCalc Engine.

Definition d1 := mkDate 2023 1 3.
Definition d2 := mkDate 2023 1 4.
Definition d3 := mkDate 2023 2 1.
Definition d4 := mkDate 2023 4 3.
Definition d5 := mkDate 2024 4 1.

Fixpoint on_date (series : list (Date * Qc)) (d : Date) : option Qc :=
  match series with
  | [] => None
  | (d', x) :: rest => if decide (d' = d) then Some x else on_date rest d
  end.

Fixpoint by_symbol (table : list (string * list (Date * Qc)))
    (sym : string) (d : Date) : option Qc :=
  match table with
  | [] => None
  | (s, series) :: rest =>
      if decide (s = sym) then on_date series d else by_symbol rest sym d
  end.

Definition prices : list (string * list (Date * Qc)) :=
  [("KO", [(d1, frac 100 1); (d2, frac 110 1); (d3, frac 110 1);
           (d4, frac 120 1); (d5, frac 150 1)]);
   ("PG", [(d1, frac 50 1); (d2, frac 50 1); (d3, frac 50 1);
           (d4, frac 50 1); (d5, frac 50 1)])].


(** KO rises from 100 to 150 and pays 1 per share on 2023-02-01; PG stays
    at 50. *)
Definition market : MarketData :=
  mkMarketData [d1; d2; d3; d4; d5]
    (by_symbol prices)
    (by_symbol [("KO", [(d3, 1)])])
    (on_date [(d1, frac 380 1); (d2, frac 381 1); (d3, frac 400 1);
              (d4, frac 410 1); (d5, frac 500 1)]).

Definition rates_15_22_15_30 : rates :=
  mkRates (Page.mkTaxConfig (frac 15 100) (frac 22 100) (frac 15 100))
          (frac 30 100) QUALIFIED_HOLDING_DAYS.

(** Two symbols at equal weight, 1000 invested, 100 a month, DRIP with a 1%
    fee, taxes on, quarterly rebalancing at a 0.1% fee. *)
Definition input : Input :=
  mkInput ["KO"; "PG"] {[ "KO" := frac 1 2; "PG" := frac 1 2 ]}
    d1 (mkDate 2024 12 31) (frac 1000 1) (frac 100 1)
    true (frac 1 100) (Some rates_15_22_15_30) Quarterly (frac 1 1000).

(** One symbol, 1000 invested, nothing else: no contribution, no tax, no
    fee, no rebalancing. *)
Definition buy_and_hold : Input :=
  mkInput ["KO"] {[ "KO" := 1 ]} d1 (mkDate 2024 12 31) (frac 1000 1) 0
    true 0 None NoRebalancing 0.

(** Weights that sum to 1.01: within the tolerance, and more than the
    initial investment can pay for. *)
Definition overweight : Input :=
  mkInput ["KO"; "PG"] {[ "KO" := frac 51 100; "PG" := frac 1 2 ]}
    d1 (mkDate 2024 12 31) (frac 1000 1) 0 true 0 None NoRebalancing 0.

Definition options : Backtester.options :=
  Backtester.mkOptions (frac 30 100)
    (λ label, if decide (label = "Monthly") then Monthly
              else if decide (label = "Quarterly") then Quarterly
              else if decide (label = "Annually") then Annual
              else SemiAnnual).

(** The widget values of the run above, as the page collects them. *)
Definition widgets : Page.widgets :=
  Page.mkWidgets ["KO"; "PG"] "Equal Weight" (λ _, 50%Z)
    d1 (mkDate 2024 12 31) 1000 100 true 1 true
    (frac 15 1) (frac 22 1) (frac 15 1) "Quarterly" (frac 1 10) true.

Definition df : list Page.row :=
  [ Page.mkRow "KO" (Some (frac 3 1)); Page.mkRow "PG" (Some (frac 2 1)) ].

(** Ten shares bought at 100 on 2023-01-03. *)
Definition early_lot : Portion := mkPortion d1 (frac 10 1) (frac 100 1).

(** The portfolio of [input], opened on 2023-01-03 and marked to the
    prices of 2023-04-03: KO has risen from 100 to 120 and is overweight. *)
Definition drifted : State :=
  mark_to_market market ["KO"; "PG"] d4
    (open_portfolio input market ["KO"; "PG"] d1).

End Scenario.

(** ** Risk and performance analytics, spec section 4.4 *)

Module Analytics.
Local Open Scope R_scope.

(** The outcome of computing a ratio: a number, the null/NaN the spec
    reports for an undefined ratio, or the fault of dividing by zero. *)
Inductive ratio :=
  | Value (x : R)
  | Undefined
  | DivisionFault.

(** Division as the code performs it: a zero divisor is a fault. *)
Definition divide (x y : R) : ratio :=
  if Req_dec_T y 0 then DivisionFault else Value (x / y).

Definition scale (k : R) (q : ratio) : ratio :=
  match q with
  | Value x => Value (x * k)
  | other => other
  end.

Global Instance Rlt_decision (x y : R) : Decision (x < y) := Rlt_dec x y.

Definition TRADING_DAYS : R := 252.

Definition total (l : list R) : R := foldr Rplus 0 l.

Definition mean (l : list R) : R := total l / INR (length l).

(** Sample variance and standard deviation of a series. *)
Definition variance (l : list R) : R :=
  total ((λ x, (x - mean l) * (x - mean l)) <$> l) / (INR (length l) - 1).

Definition stdev (l : list R) : R := sqrt (variance l).

(** Modelled from the spec: "Daily return is the simple percentage change
    between consecutive value points (first day has no defined return and
    is excluded)"; the analytics module is not among the sources. *)
Fixpoint daily_returns (values : list R) : list R :=
  match values with
  | v0 :: (v1 :: _) as rest => (v1 / v0 - 1) :: daily_returns rest
  | _ => []
  end.

Definition annualized_return (r : list R) : R := mean r * TRADING_DAYS.

Definition volatility (r : list R) : R := stdev r * sqrt TRADING_DAYS.

(** Modelled from the spec: "Sharpe = (mean(r) − risk_free_daily) /
    stdev(r) × √252; defined as 0 (not division error) when stdev(r) = 0". *)
Definition sharpe (r : list R) (risk_free_daily : R) : ratio :=
  if Req_dec_T (stdev r) 0 then Value 0
  else scale (sqrt TRADING_DAYS) (divide (mean r - risk_free_daily) (stdev r)).

(** The returns below zero. *)
Definition downside (r : list R) : list R := filter (λ x, x < 0) r.

(** Modelled from the spec: "Sortino = (mean(r) − risk_free_daily) /
    stdev(r for r<0 only) × √252, with the same zero-guard". *)
Definition sortino (r : list R) (risk_free_daily : R) : ratio :=
  if Req_dec_T (stdev (downside r)) 0 then Value 0
  else scale (sqrt TRADING_DAYS)
         (divide (mean r - risk_free_daily) (stdev (downside r))).

(** Value over running maximum, minus one, along the series. *)
Fixpoint drawdowns_from (peak : R) (values : list R) : list R :=
  match values with
  | [] => []
  | v :: rest =>
      let peak' := Rmax peak v in
      (v / peak' - 1) :: drawdowns_from peak' rest
  end.

Definition drawdowns (values : list R) : list R :=
  match values with
  | [] => []
  | v0 :: _ => drawdowns_from v0 values
  end.

(** Modelled from the spec: "Max drawdown = min over time of (value /
    running-max(value) − 1)"; an empty series has none. *)
Definition max_drawdown (values : list R) : option R :=
  match drawdowns values with
  | [] => None
  | d :: ds => Some (foldl Rmin d ds)
  end.

(** Modelled from the spec: "Calmar = CAGR / |max_drawdown|; undefined
    (reported as null/NaN) when max_drawdown = 0". *)
Definition calmar (cagr max_dd : R) : ratio :=
  if Req_dec_T max_dd 0 then Undefined else divide cagr (Rabs max_dd).

(** All values of a series agree. *)
Definition constant (l : list R) : Prop := ∀ x y, x ∈ l → y ∈ l → x = y.

(** The value path of a finished run, handed to the analytics stage. *)
Definition value_path (b : Engine.Bundle) : list R :=
  (λ dv : Date * Qc, Q2R (this dv.2)) <$> Engine.daily_values b.

End Analytics.

(** ** The backtest page: stored results and what is displayed, lines
    297-322 and 580 *)

Module Results.
Import Page.

(** The [backtest_params] dict of lines 299-310. *)
Record params := mkParams {
  p_stocks : list string;
  p_weights : gmap string Qc;
  p_start_date : Date;
  p_end_date : Date;
  p_initial_investment : Z;
  p_monthly_contribution : Z;
  p_drip_enabled : bool;
  p_tax_enabled : bool;
  p_rebalancing_frequency : string;
  p_rebalancing_fee : Qc }.

Definition backtest_params (w : widgets) (l : launch) : params :=
  {| p_stocks := l_stocks l;
     p_weights := l_weights l;
     p_start_date := l_start_date l;
     p_end_date := l_end_date l;
     p_initial_investment := l_initial_investment l;
     p_monthly_contribution := l_monthly_contribution l;
     p_drip_enabled := l_drip_enabled l;
     p_tax_enabled := w_tax_enabled w;
     p_rebalancing_frequency := l_rebalancing_frequency l;
     p_rebalancing_fee := l_rebalancing_fee l |}.

Section display.

(** What [run_backtest] returns; the page only stores and shows it. *)
Variable results : Type.

(** The two keys of [st.session_state] the page writes. *)
Record session := mkSession {
  backtest_results : option results;
  stored_params : option params }.

(** One execution of the script: the widget values, the dataframe, and
    what the calls inside the [try] at line 270 give for a launch ([None]
    when one of them raises). *)
Record execution := mkExecution {
  widgets_of : widgets;
  df_of : list row;
  backtester : launch → option results }.

(** What the main area ends up showing. *)
Inductive view :=
  | Halted                 (* st.stop() or an uncaught exception *)
  | Instructions           (* the initial state, line 580 *)
  | Displayed (r : results).

(** Lines 320-322 and 580. *)
Definition display (s : session) : view :=
  match backtest_results s with
  | Some r => Displayed r
  | None => Instructions
  end.

(** Lines 56-58 and 234-322: without a dataframe, or with an empty one,
    the script stops before the sidebar. *)
Definition execute (e : execution) (s : session) : session * view :=
  match df_of e with
  | [] => (s, Halted)
  | _ :: _ =>
      match (script (widgets_of e) (df_of e)).2 with
      | NotRun => (s, display s)
      | Stopped _ => (s, Halted)
      | KeyError _ => (s, Halted)
      | Launched l =>
          match backtester e l with
          | Some r =>
              let s' := mkSession (Some r)
                          (Some (backtest_params (widgets_of e) l)) in
              (s', display s')
          | None => (s, Halted)
          end
      end
  end.

(** Successive executions in one browser session. *)
Fixpoint executions (es : list execution) (s : session)
  : session * list view :=
  match es with
  | [] => (s, [])
  | e :: es' =>
      let '(s', v) := execute e s in
      let '(s'', vs) := executions es' s' in (s'', v :: vs)
  end.

(** [r] is what execution [e] computed for a launch that passed the
    page's validation, and [p] the parameters stored with it. *)
Definition produced_by (e : execution) (r : results) (p : params) : Prop :=
  ∃ l, df_of e ≠ []
     ∧ (script (widgets_of e) (df_of e)).2 = Launched l
     ∧ backtester e l = Some r
     ∧ p = backtest_params (widgets_of e) l.

(** The session holds nothing, or the results and parameters of one of
    the executions. *)
Definition from_one_of (es : list execution) (s : session) : Prop :=
  s = mkSession None None
  ∨ ∃ e r p, e ∈ es ∧ produced_by e r p ∧ s = mkSession (Some r) (Some p).

End display.

Arguments mkSession {results}.
Arguments backtest_results {results}.
Arguments stored_params {results}.
Arguments mkExecution {results}.
Arguments widgets_of {results}.
Arguments df_of {results}.
Arguments backtester {results}.
Arguments Halted {results}.
Arguments Instructions {results}.
Arguments Displayed {results}.
Arguments display {results}.
Arguments execute {results}.
Arguments executions {results}.
Arguments produced_by {results}.
Arguments from_one_of {results}.

End Results.

(** ** The home page, [app.py] *)

Module App.

(** *** [parse_market_cap], lines 288-320 *)

(** Python strings are lists of characters, here restricted to ASCII:
    [strip] and [upper] below are the ASCII parts of [str.strip] and
    [str.upper]. *)

Definition is_ascii (c : ascii) : Prop := (N_of_ascii c < 128)%N.

(** [str.isspace] on an ASCII character: tab to carriage return, the four
    separators 0x1c-0x1f, and the space. *)
Definition isspace (c : ascii) : bool :=
  let n := N_of_ascii c in
  ((9 <=? n) && (n <=? 13) || (28 <=? n) && (n <=? 32))%N.

Fixpoint lstrip (s : list ascii) : list ascii :=
  match s with
  | c :: s' => if isspace c then lstrip s' else s
  | [] => []
  end.

Definition rstrip (s : list ascii) : list ascii :=
  reverse (lstrip (reverse s)).

(** [s.strip()] *)
Definition strip (s : list ascii) : list ascii := rstrip (lstrip s).

Definition upper_char (c : ascii) : ascii :=
  let n := N_of_ascii c in
  if ((97 <=? n) && (n <=? 122))%N then ascii_of_N (n - 32) else c.

(** [s.upper()] *)
Definition upper (s : list ascii) : list ascii := upper_char <$> s.

(** [s.replace(c, '')] for a one-character [c]. *)
Definition remove (c : ascii) (s : list ascii) : list ascii :=
  filter (λ x, x ≠ c) s.

(** [s.endswith(c)] for a one-character [c]. *)
Definition endswith (s : list ascii) (c : ascii) : bool :=
  bool_decide (list.last s = Some c).

(** [s[:-1]] *)
Definition drop_last (s : list ascii) : list ascii := take (length s - 1) s.

(** A value of the [Market Cap] column. *)
Inductive cell :=
  | Missing                  (* None, NaT or pd.NA *)
  | Integer (n : Z)          (* an int *)
  | Float (x : float)        (* a float, NaN included *)
  | Text (s : list ascii).   (* a str such as "911.47B" *)

(** What a call does: it returns a number of billions or [None], or the
    division of line 292 raises [OverflowError] on an int too large to
    convert to float. *)
Inductive parsed :=
  | Returned (billions : option float)
  | OverflowError.

Section parse_market_cap.

(** Python's [float(...)] on a str; [None] stands for [ValueError].  The
    doubles it returns include the infinities and NaN, which texts such
    as "INF", "1E400" and "NAN" denote. *)
Variable float_of_str : list ascii → option float.

(** Lines 301-314: the multiplier of the suffix, and the text without it. *)
Definition split_suffix (value_str : list ascii) : float * list ascii :=
  if endswith value_str "T" then (1e12%float, drop_last value_str)
  else if endswith value_str "B" then (1e9%float, drop_last value_str)
  else if endswith value_str "M" then (1e6%float, drop_last value_str)
  else if endswith value_str "K" then (1e3%float, drop_last value_str)
  else (1%float, value_str).

(** The market capitalisation in billions, or [None]. *)
Definition parse_market_cap (value : cell) : parsed :=
  match value with
  | Missing => Returned None
  | Integer n =>
      match Float64.float_of_int n with
      | Some x => Returned (Some (x / 1e9)%float)
      | None => OverflowError
      end
  | Float x =>
      if is_nan x then Returned None else Returned (Some (x / 1e9)%float)
  | Text s =>
      let value_str := upper (strip s) in
      if bool_decide (value_str = []) || bool_decide (value_str = ["-"%char])
      then Returned None
      else
        let value_str := remove "$" value_str in
        let '(multiplier, value_str) := split_suffix value_str in
        match float_of_str value_str with
        | Some numeric_value =>
            Returned (Some (numeric_value * multiplier / 1e9)%float)
        | None => Returned None
        end
  end.

End parse_market_cap.

(** Text free of what [parse_market_cap] strips or rewrites: no white
    space, no lower-case letter, no dollar sign. *)
Definition plain (s : list ascii) : Prop :=
  Forall (λ c, is_ascii c ∧ isspace c = false ∧ upper_char c = c
               ∧ c ≠ "$"%char) s.

(** *** [update_scraping_progress], lines 122-125 *)

(** [int(x)] on a float: truncation toward zero. *)
Definition int_of_float (x : Qc) : Z :=
  if decide (0 ≤ x) then Qfloor x else Qceiling x.

Inductive progress_outcome :=
  | ZeroDivisionError                   (* current / total with total = 0 *)
  | StreamlitAPIException (value : Z)   (* progress() outside 0..100 *)
  | Shown (value : Z).                  (* the bar is set to value percent *)

Definition update_scraping_progress (current total : Z) : progress_outcome :=
  if decide (total = 0%Z) then ZeroDivisionError
  else
    let progress :=
      int_of_float (Qc_of_Z current / Qc_of_Z total * Qc_of_Z 50) in
    if decide (0 ≤ progress ≤ 100)%Z then Shown progress
    else StreamlitAPIException progress.

(** *** The data-update flow, lines 38-197 *)

(** The [update_stats] dict of lines 150-153. *)
Record stats := mkStats { total : nat; avg_yield : option string }.

(** The keys of [st.session_state] the script uses; an absent key is
    [None]. *)
Record session := mkSession {
  update_in_progress : option bool;
  update_completed : option bool;
  data_source_mode : option string;
  last_update : option string;
  data_source : option string;
  update_stats : option stats }.

(** How the body of the [try] at line 106 goes once it is entered. *)
Inductive update_result :=
  | UpdateRaised                            (* an exception before line 146 *)
  | StatsRaised (now : string)              (* an exception at lines 150-153 *)
  | ClearRaised (now : string) (summary : stats)
                                            (* an exception at lines 162-163 *)
  | Updated (now : string) (summary : stats).

(** What one execution of the script reads from its widgets and from the
    outside. *)
Record inputs := mkInputs {
  crawl_mode_selected : bool;        (* line 57, from the radio *)
  data_file_exists : bool;           (* check_data_file_exists() *)
  use_updated_data : bool;           (* the "Use Updated Data" button *)
  start_data_update : bool;          (* the "Start Data Update" button *)
  update : update_result }.

(** How the execution ends: [st.stop()] at line 73, [st.rerun()] at line
    93 or 166, or the call of [load_main_dataframe] at line 189 with its
    [use_cached] argument. *)
Inductive ending :=
  | Stop
  | Rerun
  | Load (use_cached : bool).

Definition fresh : session := mkSession None None None None None None.

(** Lines 39-44. *)
Definition initialise (s : session) : session :=
  mkSession (Some (default false (update_in_progress s)))
            (Some (default false (update_completed s)))
            (Some (default "cached" (data_source_mode s)))
            (last_update s) (data_source s) (update_stats s).

(** Lines 187-189. *)
Definition load (s : session) : session * ending :=
  (s, Load (bool_decide (data_source_mode s = Some "cached"))).

(** Lines 91-93. *)
Definition use_updated (s : session) : session :=
  mkSession (update_in_progress s) (Some false) (Some "cached")
            (last_update s) (data_source s) (update_stats s).

(** Lines 106-183, the handler of the "Start Data Update" button. *)
Definition start_update (r : update_result) (s : session)
  : session * ending :=
  match r with
  | UpdateRaised =>
      load (mkSession (Some false) (Some false) (data_source_mode s)
              (last_update s) (data_source s) (update_stats s))
  | StatsRaised now =>
      load (mkSession (Some false) (Some false) (data_source_mode s)
              (Some now) (Some "crawled") (update_stats s))
  | ClearRaised now summary =>
      load (mkSession (Some false) (Some false) (Some "cached")
              (Some now) (Some "crawled") (Some summary))
  | Updated now summary =>
      (mkSession (Some false) (Some true) (Some "cached")
         (Some now) (Some "crawled") (Some summary), Rerun)
  end.

(** One execution of the script, lines 38-197. *)
Definition run (i : inputs) (s0 : session) : session * ending :=
  let s := initialise s0 in
  if negb (crawl_mode_selected i) then
    if data_file_exists i then load s else (s, Stop)
  else
    let completed := bool_decide (update_completed s = Some true) in
    if completed && use_updated_data i then (use_updated s, Rerun)
    else if completed then load s
    else
      let in_progress := bool_decide (update_in_progress s = Some true) in
      (* a disabled button is never clicked *)
      let button_clicked := start_data_update i && negb in_progress in
      if button_clicked && negb in_progress then start_update (update i) s
      else load s.

(** Successive executions in one browser session. *)
Fixpoint runs (steps : list inputs) (s : session) : session * list ending :=
  match steps with
  | [] => (s, [])
  | i :: steps' =>
      let '(s', e) := run i s in
      let '(s'', es) := runs steps' s' in (s'', e :: es)
  end.

End App.

(** Sample inputs for the home page. *)

Module AppSample.
Import App.

Definition digit (c : ascii) : option Z :=
  let n := N_of_ascii c in
  if ((48 <=? n) && (n <=? 57))%N then Some (Z.of_N n - 48)%Z else None.

Fixpoint decimal_from (num scale : Z) (point : bool) (s : list ascii)
  : option float :=
  match s with
  | [] => Some (Float64.of_Z num / Float64.of_Z scale)%float
  | c :: s' =>
      if decide (c = "."%char) then
        if point then None else decimal_from num scale true s'
      else
        match digit c with
        | Some d =>
            decimal_from (10 * num + d)
              (if point then 10 * scale else scale)%Z point s'
        | None => None
        end
  end.

(** A stand-in for [float] on plain decimal literals of at most fifteen
    characters, such as "911.47": the digits and the power of ten are
    doubles exactly, so their quotient is the nearest double, which is
    what [float] returns.  Anything else is rejected. *)
Definition decimal (s : list ascii) : option float :=
  if decide (s = [] ∨ s = ["."%char] ∨ 15 < length s)%nat then None
  else decimal_from 0 1 false s.

End AppSample.

(** ** The screener pages, [pages/1_High_Dividend_Screener.py] and
    [pages/2_Dividend_Growth_Screener.py] *)

Module Screener.

(** The five scoring weights, one [st.number_input] each (page 1, lines
    116-125; page 2, lines 110-119). *)
Record scoring_weights := mkScoring {
  w_yield : Qc;
  w_years : Qc;
  w_cagr : Qc;
  w_growth : Qc;
  w_payout : Qc }.

(** Page 1, line 128; page 2, line 122. *)
Definition total_weight (w : scoring_weights) : Qc :=
  w_yield w + w_years w + w_cagr w + w_growth w + w_payout w.

(** How the validation ends: [st.warning] and [st.stop()], or
    [st.success] and the script goes on to filter and score. *)
Inductive verdict :=
  | Rejected (total_weight : Qc)
  | Accepted (total_weight : Qc).

(** Page 1, lines 129-133; page 2, lines 123-127. *)
Definition validate_weights (w : scoring_weights) : verdict :=
  if decide (frac 1 100 < Qcabs (total_weight w - 1))
  then Rejected (total_weight w) else Accepted (total_weight w).

(** The value of a weight input after [k] steps of 0.05 from 0. *)
Definition stepped (k : Z) : Qc := Qc_of_Z k * frac 5 100.

End Screener.

(** ** The stock-details page, [pages/3_Stock_Details.py]: the dividend
    yield series, lines 160-173 *)

Module Details.

(** A dated series is a list of (date, value) pairs in index order; dates
    are day numbers, values doubles.  The index of the prices holds each
    date once, so [period_data.loc[date, 'Close']] is the close of the row
    of [date]. *)

(** Lines 166-168: [dividends[dividends.index <= date].iloc[-1]]. *)
Definition last_dividend (dividends : list (Z * float)) (date : Z)
  : option float :=
  snd <$> list.last (filter (λ d, (d.1 ≤ date)%Z) dividends).

(** Lines 167-173: the latest dividend taken as quarterly, over the
    closing price; 0 before the first dividend.  The division is NumPy's:
    a zero close gives an infinity, or NaN under a zero dividend. *)
Definition yield_on (dividends : list (Z * float)) (date : Z) (close : float)
  : float :=
  match last_dividend dividends date with
  | Some last_div => let annual_div := (last_div * 4)%float in
                     (annual_div / close)%float
  | None => 0%float
  end.

(** How lines 147-188 end, as far as the yield is concerned. *)
Inductive outcome :=
  | NoPriceData                       (* st.warning, line 185 *)
  | NoDividendData                    (* st.info, line 183 *)
  | LoadError                         (* st.error, line 188 *)
  | Charted (yield_series : list (Z * float)).
                                      (* create_yield_chart_with_stats *)

(** Lines 150-188.  [dividends] is [None] when the fetch of lines 120-131
    failed, and [len(None)] raises inside the [try]; [period_data] is what
    [load_historical_prices] returned.  The chart builders of
    [modules/visualization] are not among the sources and are taken to
    return; the dates of the two series are taken to compare. *)
Definition yield_chart (dividends period_data : option (list (Z * float)))
  : outcome :=
  match period_data with
  | None | Some [] => NoPriceData
  | Some period_data =>
      match dividends with
      | None => LoadError
      | Some dividends =>
          if decide (0 < length dividends)%nat
          then Charted ((λ p, (p.1, yield_on dividends p.1 p.2)) <$> period_data)
          else NoDividendData
      end
  end.

End Details.

(** Sample series for the stock-details page: two dividends, and four
    price rows of which the third has a zero close. *)

Module DetailsSample.

Definition dividends : list (Z * float) :=
  [(10%Z, 0.5%float); (100%Z, 0.6%float)].

Definition period_data : list (Z * float) :=
  [(5%Z, 40%float); (50%Z, 40%float); (60%Z, 0%float); (120%Z, 48%float)].

End DetailsSample.

(* ===================================================================== *)
(** * Part II: theorems                                                   *)
(* ===================================================================== *)

(** ** Arithmetic helpers *)

Lemma Qc_this_plus (x y : Qc) : (this (x + y) == this x + this y)%Q.
Proof. apply Qred_correct. Qed.
Lemma Qc_this_mult (x y : Qc) : (this (x * y) == this x * this y)%Q.
Proof. apply Qred_correct. Qed.

Lemma Qc_this_opp (x : Qc) : (this (- x) == - this x)%Q.
Proof. apply Qred_correct. Qed.

Lemma Qc_this_minus (x y : Qc) : (this (x - y) == this x - this y)%Q.
Proof. unfold Qcminus. rewrite Qc_this_plus, Qc_this_opp. reflexivity. Qed.

Lemma Qc_this_inv (x : Qc) : (this (/ x) == / this x)%Q.
Proof. apply Qred_correct. Qed.

Lemma Qc_this_div (x y : Qc) : (this (x / y) == this x / this y)%Q.
Proof. unfold Qcdiv. rewrite Qc_this_mult, Qc_this_inv. reflexivity. Qed.

Lemma Qc_this_Q2Qc (a : Q) : (this (Q2Qc a) == a)%Q.
Proof. apply Qred_correct. Qed.

Lemma Qc_eq_this (x y : Qc) : x = y <-> (this x == this y)%Q.
Proof. split; [intros ->; reflexivity | apply Qc_is_canon]. Qed.

(** Moving between [Qc] and [Q], where [lra] and [nra] work. *)
Ltac qc_to_q :=
  repeat match goal with
  | H : @eq Qc _ _ |- _ => apply Qc_eq_this in H
  | H : ¬ @eq Qc _ _ |- _ => rewrite Qc_eq_this in H
  end;
  try apply Qc_eq_this;
  unfold Qcle, Qclt in *;
  repeat match goal with
  | H : context [this (_ + _)] |- _ => rewrite Qc_this_plus in H
  | H : context [this (_ * _)] |- _ => rewrite Qc_this_mult in H
  | H : context [this (_ - _)] |- _ => rewrite Qc_this_minus in H
  | H : context [this (- _)] |- _ => rewrite Qc_this_opp in H
  | H : context [this (_ / _)] |- _ => rewrite Qc_this_div in H
  | H : context [this (/ _)] |- _ => rewrite Qc_this_inv in H
  | H : context [this (Q2Qc _)] |- _ => rewrite Qc_this_Q2Qc in H
  | |- context [this (_ + _)] => rewrite Qc_this_plus
  | |- context [this (_ * _)] => rewrite Qc_this_mult
  | |- context [this (_ - _)] => rewrite Qc_this_minus
  | |- context [this (- _)] => rewrite Qc_this_opp
  | |- context [this (_ / _)] => rewrite Qc_this_div
  | |- context [this (/ _)] => rewrite Qc_this_inv
  | |- context [this (Q2Qc _)] => rewrite Qc_this_Q2Qc
  end.


(** ** Sums and dict comprehensions *)

Lemma sum_list_nil : sum_list [] = 0.
Proof. reflexivity. Qed.

Lemma sum_list_cons (x : Qc) (l : list Qc) : sum_list (x :: l) = x + sum_list l.
Proof. reflexivity. Qed.

Lemma sum_list_app (l1 l2 : list Qc) :
  sum_list (l1 ++ l2) = sum_list l1 + sum_list l2.
Proof.
  induction l1 as [|x l1 IH].
  - rewrite app_nil_l, sum_list_nil. ring.
  - rewrite <- app_comm_cons, !sum_list_cons, IH. ring.
Qed.

Lemma sum_list_perm (l1 l2 : list Qc) :
  l1 ≡ₚ l2 → sum_list l1 = sum_list l2.
Proof.
  induction 1 as [|x l1 l2 _ IH|x y l|l1 l2 l3 _ IH1 _ IH2];
    rewrite ?sum_list_cons.
  - done.
  - by rewrite IH.
  - ring.
  - congruence.
Qed.

Lemma sum_list_const {A} (c : Qc) (l : list A) :
  sum_list ((λ _, c) <$> l) = Qc_of_nat (length l) * c.
Proof.
  unfold Qc_of_nat. induction l as [|x l IH].
  - change (0 = Qc_of_Z 0 * c). rewrite Z2Qc_inj_0. ring.
  - rewrite fmap_cons, sum_list_cons, IH, length_cons.
    rewrite Nat2Z.inj_succ, <- Z.add_1_r, Z2Qc_inj_add, Z2Qc_inj_1. ring.
Qed.

Lemma sum_list_scale {A} (g : A → Qc) (c : Qc) (l : list A) :
  sum_list ((λ x, g x / c) <$> l) = sum_list (g <$> l) / c.
Proof.
  induction l as [|x l IH].
  - rewrite !fmap_nil, sum_list_nil. unfold Qcdiv. ring.
  - rewrite !fmap_cons, !sum_list_cons, IH. unfold Qcdiv. ring.
Qed.

Lemma sum_list_ext {A} (f g : A → Qc) (l : list A) :
  (∀ x, x ∈ l → f x = g x) → sum_list (f <$> l) = sum_list (g <$> l).
Proof.
  intros H. f_equal. apply list_fmap_ext. intros i x Hx. apply H.
  by eapply list_elem_of_lookup_2.
Qed.

Lemma Qc_of_nat_nonzero (n : nat) : n ≠ 0%nat → Qc_of_nat n ≠ 0.
Proof.
  intros Hn Hq. unfold Qc_of_nat in Hq. rewrite <- Z2Qc_inj_0 in Hq.
  apply Z2Qc_inj in Hq. lia.
Qed.

Lemma dict_sum_empty : dict_sum ∅ = 0.
Proof. unfold dict_sum. by rewrite map_fold_empty. Qed.

Lemma dict_sum_insert (m : gmap string Qc) (k : string) (v : Qc) :
  m !! k = None → dict_sum (<[k:=v]> m) = dict_sum m + v.
Proof.
  intros Hk. unfold dict_sum. rewrite map_fold_insert_L; [done| |done].
  intros. ring.
Qed.

Section dict_comp.
Context {V : Type} (f : string → V).

Lemma foldl_insert_lookup (l : list string) (m0 : gmap string V) (k : string) :
  foldl (λ m k, <[k := f k]> m) m0 l !! k
  = if decide (k ∈ l) then Some (f k) else m0 !! k.
Proof.
  revert m0. induction l as [|a l IH]; intros m0; cbn [foldl].
  - destruct (decide (k ∈ [])) as [H|]; [by apply elem_of_nil in H | done].
  - rewrite IH. destruct (decide (k ∈ l)) as [Hin|Hnin].
    + rewrite decide_True; [done | by right].
    + destruct (decide (a = k)) as [->|Hne].
      * rewrite decide_True by left. by rewrite lookup_insert_eq.
      * rewrite decide_False; [by rewrite lookup_insert_ne|].
        intros Hk. apply elem_of_cons in Hk as [?|?]; congruence.
Qed.

Lemma dict_comp_lookup (l : list string) (k : string) :
  dict_comp f l !! k = if decide (k ∈ l) then Some (f k) else None.
Proof. unfold dict_comp. by rewrite foldl_insert_lookup, lookup_empty. Qed.

Lemma dict_comp_lookup_elem (l : list string) (k : string) :
  k ∈ l → dict_comp f l !! k = Some (f k).
Proof. intros. by rewrite dict_comp_lookup, decide_True. Qed.

Lemma dict_comp_dom (l : list string) :
  dom (dict_comp f l) = list_to_set l.
Proof.
  apply set_eq. intros k. rewrite elem_of_dom, dict_comp_lookup, elem_of_list_to_set.
  case_decide; split; intros Hk; try done; by destruct Hk.
Qed.
End dict_comp.

Lemma foldl_insert_sum (f : string → Qc) (l : list string) (m0 : gmap string Qc) :
  NoDup l → (∀ k, k ∈ l → m0 !! k = None) →
  dict_sum (foldl (λ m k, <[k := f k]> m) m0 l) = dict_sum m0 + sum_list (f <$> l).
Proof.
  revert m0. induction l as [|a l IH]; intros m0 Hnd Hfresh; cbn [foldl].
  - rewrite fmap_nil, sum_list_nil. ring.
  - apply list.NoDup_cons in Hnd as [Ha Hnd]. rewrite IH; [|done|].
    + rewrite dict_sum_insert by (apply Hfresh; left).
      rewrite fmap_cons, sum_list_cons. ring.
    + intros k Hk. rewrite lookup_insert_ne; [apply Hfresh; by right|].
      intros ->. done.
Qed.

Lemma dict_comp_sum (f : string → Qc) (l : list string) :
  NoDup l → dict_sum (dict_comp f l) = sum_list (f <$> l).
Proof.
  intros Hnd. unfold dict_comp. rewrite foldl_insert_sum; [|done|].
  - rewrite dict_sum_empty. ring.
  - intros. apply lookup_empty.
Qed.

(** ** The page: selection, weights and validation *)

Section page_facts.
Import Page.

Lemma script_outcome (w : widgets) (df : list row) :
  (script w df).2 = (on_run w df).2.
Proof. unfold script. by destruct (on_run w df). Qed.

Lemma selected_stocks_NoDup (l : list string) :
  NoDup l → NoDup (selected_stocks l).
Proof.
  intros H. unfold selected_stocks. destruct (over_limit l); [|done].
  eapply sublist_NoDup; [done | apply sublist_take].
Qed.

Lemma selected_stocks_nonempty (l : list string) :
  l ≠ [] → selected_stocks l ≠ [].
Proof.
  intros H. unfold selected_stocks, over_limit, MAX_PORTFOLIO_STOCKS.
  case_bool_decide as Hlen; [|done].
  destruct l; [done|]. by rewrite firstn_cons.
Qed.

Lemma selected_stocks_elem (l : list string) (s : string) :
  s ∈ selected_stocks l → s ∈ l.
Proof.
  unfold selected_stocks. destruct (over_limit l); [|done].
  intros (i & Hi & _)%elem_of_take. by eapply list_elem_of_lookup_2.
Qed.

Lemma selected_stocks_length (l : list string) :
  (length (selected_stocks l) ≤ MAX_PORTFOLIO_STOCKS)%nat.
Proof.
  unfold selected_stocks, over_limit. case_bool_decide as Hlen.
  - rewrite length_take. lia.
  - lia.
Qed.

Lemma equal_weights_sum (stocks : list string) :
  NoDup stocks → stocks ≠ [] → dict_sum (equal_weights stocks) = 1.
Proof.
  intros Hnd Hne. unfold equal_weights. rewrite dict_comp_sum by done.
  rewrite sum_list_const. field. apply Qc_of_nat_nonzero.
  by destruct stocks.
Qed.

Lemma weights_valid_of_sum_1 (weights : gmap string Qc) :
  dict_sum weights = 1 → weights_valid weights = true.
Proof.
  intros H. unfold weights_valid, isclose. rewrite H.
  apply bool_decide_eq_true. by vm_compute.
Qed.
End page_facts.

(** ** Equal weights (claim C9) *)

Section equal_weight.
Import Page.

(** C9. Under the Equal Weight allocation method, for every non-empty
    selection (of distinct symbols, as a multiselect returns them) the
    run is launched, and the weight mapping passed to the backtester has
    exactly the [n] selected stocks as keys, gives each the weight
    [1/n], sums to 1 and passes the [np.isclose] validation. *)
Theorem equal_weight_mapping (w : widgets) (df : list row) :
  w_allocation_method w = "Equal Weight" →
  w_run_backtest w = true →
  w_selected w ≠ [] →
  NoDup (w_selected w) →
  let stocks := selected_stocks (w_selected w) in
  ∃ l, (script w df).2 = Launched l
     ∧ l_stocks l = stocks
     ∧ dom (l_weights l) = list_to_set stocks
     ∧ (∀ s, s ∈ stocks →
          l_weights l !! s = Some (1 / Qc_of_nat (length stocks)))
     ∧ dict_sum (l_weights l) = 1
     ∧ weights_valid (l_weights l) = true.
Proof.
  intros Hm Hrun Hne Hnd stocks.
  assert (Hne' : stocks ≠ []) by by apply selected_stocks_nonempty.
  assert (Hnd' : NoDup stocks) by by apply selected_stocks_NoDup.
  assert (Hsum : dict_sum (equal_weights stocks) = 1)
    by by apply equal_weights_sum.
  rewrite script_outcome. unfold on_run, compute_weights.
  rewrite Hrun, Hm. cbn [negb]. fold stocks.
  destruct (decide (length stocks = 0%nat)) as [Hz|_].
  { by destruct stocks. }
  rewrite decide_True by done. unfold validate_and_launch.
  rewrite (weights_valid_of_sum_1 _ Hsum). cbn [negb snd].
  eexists. split; [reflexivity|]. cbn.
  repeat split; try done.
  - apply dict_comp_dom.
  - intros s Hs. unfold equal_weights. by rewrite dict_comp_lookup_elem.
  - by apply weights_valid_of_sum_1.
Qed.
End equal_weight.

Lemma equal_weight_mapping_witness :
  ∃ l, (Page.script Sample.widgets_equal Sample.df).2 = Page.Launched l
     ∧ Page.l_weights l !! "KO" = Some (frac 1 3)
     ∧ dict_sum (Page.l_weights l) = 1.
Proof.
  destruct (equal_weight_mapping Sample.widgets_equal Sample.df)
    as (l & Hl & _ & _ & Hw & Hsum & _).
  - reflexivity.
  - reflexivity.
  - discriminate.
  - apply (bool_decide_unpack _). by vm_compute.
  - exists l. split; [done|]. split; [|done].
    rewrite (Hw "KO"); [|apply (bool_decide_unpack _); by vm_compute].
    f_equal.
Defined.

(** ** More than twenty symbols (claim C5) *)

Section symbol_limit.
Import Page.

Lemma over_limit_take (l : list string) :
  over_limit l = true → over_limit (take MAX_PORTFOLIO_STOCKS l) = false.
Proof.
  unfold over_limit. intros _. apply bool_decide_eq_false.
  rewrite length_take. lia.
Qed.

Lemma selected_stocks_over (l : list string) :
  over_limit l = true →
  selected_stocks l = take MAX_PORTFOLIO_STOCKS l
  ∧ selected_stocks (take MAX_PORTFOLIO_STOCKS l) = take MAX_PORTFOLIO_STOCKS l.
Proof.
  intros H. unfold selected_stocks. by rewrite H, over_limit_take.
Qed.

(** C5, as the page behaves.  A selection of more than
    [MAX_PORTFOLIO_STOCKS] symbols is not rejected: the page shows the
    sidebar error "Maximum 20 stocks allowed!" and then does exactly what
    it does for the first twenty symbols of the selection; a launched run
    receives those twenty. *)
Theorem over_limit_truncates (w : widgets) (df : list row) :
  (MAX_PORTFOLIO_STOCKS < length (w_selected w))%nat →
  let w' := with_selected (take MAX_PORTFOLIO_STOCKS (w_selected w)) w in
  script w df
  = (SidebarError "Maximum 20 stocks allowed!" :: (script w' df).1,
     (script w' df).2)
  ∧ (∀ l, (script w df).2 = Launched l →
          l_stocks l = take MAX_PORTFOLIO_STOCKS (w_selected w)
          ∧ length (l_stocks l) = MAX_PORTFOLIO_STOCKS).
Proof.
  intros Hlen w'.
  assert (Hover : over_limit (w_selected w) = true)
    by by apply bool_decide_eq_true.
  destruct (selected_stocks_over _ Hover) as [Hs Hs'].
  assert (Hsw : sidebar_weights w' = sidebar_weights w).
  { unfold sidebar_weights, w'. cbn [w_selected w_allocation_method w_slider with_selected].
    by rewrite Hs, Hs'. }
  assert (Hcw : compute_weights w' df = compute_weights w df).
  { unfold compute_weights. rewrite Hsw. unfold w'.
    cbn [w_selected w_allocation_method with_selected]. by rewrite Hs, Hs'. }
  assert (Hrun : ∃ o, on_run w df = o ∧ on_run w' df = o
                      ∧ ∀ l, o.2 = Launched l →
                             l_stocks l = take MAX_PORTFOLIO_STOCKS (w_selected w)).
  { eexists. split; [reflexivity|]. split.
    - unfold on_run, validate_and_launch. rewrite Hcw. unfold w'.
      cbn -[take compute_weights weights_valid].
      by rewrite Hs, Hs'.
    - intros l. unfold on_run. rewrite Hs.
      destruct (negb (w_run_backtest w)); [done|].
      destruct (decide _); [done|].
      destruct (compute_weights w df) as [notes [k|weights]]; [done|].
      unfold validate_and_launch. rewrite Hs.
      destruct (negb (weights_valid weights)); [done|].
      cbn. by intros [= <-]. }
  destruct Hrun as (o & Ho & Ho' & Hl).
  split.
  - unfold script. rewrite Ho, Ho'. destruct o as [notes o]. cbn [fst snd].
    f_equal. unfold sidebar. rewrite Hsw, Hover.
    rewrite (over_limit_take _ Hover : over_limit (w_selected w') = false).
    unfold w'. cbn [w_selected w_allocation_method w_rebalancing_frequency with_selected].
    by rewrite Hs, Hs'.
  - intros l Hlaunch. rewrite script_outcome, Ho in Hlaunch.
    split; [by apply Hl|]. rewrite (Hl _ Hlaunch), length_take. lia.
Qed.

Lemma over_limit_truncates_witness :
  (Page.script Sample.widgets_too_many Sample.df).1
  = SidebarError "Maximum 20 stocks allowed!"
      :: (Page.script
            (with_selected (take 20 Sample.twenty_one) Sample.widgets_too_many)
            Sample.df).1.
Proof.
  destruct (over_limit_truncates Sample.widgets_too_many Sample.df) as [H _].
  - vm_compute. lia.
  - by rewrite H.
Defined.

(** C5, as the claim states it, fails: twenty-one symbols do not stop
    the run; the backtester is launched with the first twenty. *)
Lemma too_many_symbols_still_launches :
  (20 < length (w_selected Sample.widgets_too_many))%nat
  ∧ w_run_backtest Sample.widgets_too_many = true
  ∧ ∃ l, (script Sample.widgets_too_many Sample.df).2 = Launched l
       ∧ l_stocks l = take 20 Sample.twenty_one
       ∧ simulation_started (script Sample.widgets_too_many Sample.df).2 = true.
Proof.
  split; [vm_compute; lia|]. split; [reflexivity|].
  eexists. split; [vm_compute; reflexivity|]. split; reflexivity.
Qed.
End symbol_limit.

(** ** Weight validation (claim C4) *)

Section weight_validation.
Import Page.

(** The test at line 264 accepts exactly the sums within
    [atol + rtol * |1.0| = 0.01 + 0.00001] of 1. *)
Lemma weights_valid_iff (W : gmap string Qc) :
  weights_valid W = true
  ↔ Qcabs (dict_sum W - 1) ≤ frac 1 100 + default_rtol.
Proof.
  unfold weights_valid, isclose. rewrite bool_decide_eq_true.
  replace (frac 1 100 + default_rtol * Qcabs 1) with (frac 1 100 + default_rtol);
    [done|].
  apply Qc_is_canon. reflexivity.
Qed.

(** C4, as the page behaves.  Every weight mapping whose values sum to
    more than [0.01 + 0.00001] away from 1 ([np.isclose] adds its default
    relative tolerance to [atol=0.01]) is rejected with the message
    "Weights must sum to 100%..." and the script stops before the
    backtester is constructed, data is fetched or a day is simulated. *)
Theorem weights_outside_tolerance_stop (w : widgets) (W : gmap string Qc) :
  frac 1 100 + default_rtol < Qcabs (dict_sum W - 1) →
  validate_and_launch w W
  = Stopped "Weights must sum to 100%. Please adjust your custom weights."
  ∧ simulation_started (validate_and_launch w W) = false
  ∧ ∀ df notes,
      w_run_backtest w = true →
      selected_stocks (w_selected w) ≠ [] →
      compute_weights w df = (notes, inr W) →
      (script w df).2
      = Stopped "Weights must sum to 100%. Please adjust your custom weights.".
Proof.
  intros Hfar.
  assert (Hinv : weights_valid W = false).
  { apply not_true_is_false. rewrite weights_valid_iff.
    by apply Qclt_not_le. }
  assert (Hstop : validate_and_launch w W
    = Stopped "Weights must sum to 100%. Please adjust your custom weights.").
  { unfold validate_and_launch. by rewrite Hinv. }
  split; [done|]. split; [by rewrite Hstop|].
  intros df notes Hrun Hne Hcw. rewrite script_outcome. unfold on_run.
  rewrite Hrun, Hcw. cbn [negb].
  destruct (decide _) as [Hz|_].
  - by destruct (selected_stocks (w_selected w)).
  - done.
Qed.

Lemma weights_outside_tolerance_stop_witness :
  (script Sample.widgets_custom_bad Sample.df).2
  = Stopped "Weights must sum to 100%. Please adjust your custom weights.".
Proof.
  destruct (weights_outside_tolerance_stop Sample.widgets_custom_bad
              (sidebar_weights Sample.widgets_custom_bad)) as (_ & _ & H).
  - by vm_compute.
  - apply (H Sample.df []).
    + reflexivity.
    + discriminate.
    + reflexivity.
Defined.

(** C4, as the claim states it, fails on a mapping the page builds.  With
    one stock on custom weights and its slider at 99, the weight is the
    double [99 / 100], a little under 0.99: the sum of the values is more
    than 0.01 away from 1.0, as Python evaluates
    [abs(sum(weights.values()) - 1.0) > 0.01] and in exact arithmetic on
    the value of the double, and it still passes the test of line 264, so
    the backtester is launched with it. *)
Lemma slider_weight_just_outside_accepted :
  (0.01 <? PrimFloat.abs (Float64.fsum [slider_weight 99] - 1))%float = true
  ∧ weights_valid64 [slider_weight 99] = true
  ∧ frac 1 100 < Qcabs (dict_sum Sample.weights_99 - 1)
  ∧ weights_valid Sample.weights_99 = true
  ∧ simulation_started
      (validate_and_launch Sample.widgets_99 Sample.weights_99)
    = true
  ∧ simulation_started (script Sample.widgets_99 Sample.df).2 = true.
Proof. split_and!; by vm_compute. Qed.

(** In exact arithmetic the weights the sliders produce add up to a whole
    number of hundredths, so a sum more than 0.01 away from 1 is at least
    0.02 away and is rejected: there the two tolerances part only on the
    rounding of the doubles, as above. *)
Lemma custom_weights_sum (slider : string → Z) (stocks : list string) :
  NoDup stocks →
  dict_sum (custom_weights slider stocks)
  = Qc_of_Z (foldr Z.add 0%Z (slider <$> stocks)) / Qc_of_Z 100.
Proof.
  intros Hnd. unfold custom_weights. rewrite dict_comp_sum by done.
  rewrite (sum_list_scale (λ stock, Qc_of_Z (slider stock))). f_equal.
  clear Hnd. induction stocks as [|a stocks IH].
  - rewrite fmap_nil, sum_list_nil. symmetry. apply Z2Qc_inj_0.
  - rewrite !fmap_cons, sum_list_cons, IH. cbn [foldr].
    by rewrite Z2Qc_inj_add.
Qed.

Lemma hundredths_tolerance (k : Z) :
  frac 1 100 < Qcabs (Qc_of_Z k / Qc_of_Z 100 - 1) →
  frac 1 100 + default_rtol < Qcabs (Qc_of_Z k / Qc_of_Z 100 - 1).
Proof.
  intros Hfar. apply Qcnot_le_lt. intros Hnear. apply Qclt_not_le in Hfar.
  apply Hfar. clear Hfar.
  apply Qcabs_Qcle_condition in Hnear as [Hlo Hhi].
  apply Qcabs_Qcle_condition.
  assert (H98 : (this (Qc_of_Z 98) == 98)%Q) by reflexivity.
  assert (H99 : (this (Qc_of_Z 99) == 99)%Q) by reflexivity.
  assert (H100 : (this (Qc_of_Z 100) == 100)%Q) by reflexivity.
  assert (H101 : (this (Qc_of_Z 101) == 101)%Q) by reflexivity.
  assert (H102 : (this (Qc_of_Z 102) == 102)%Q) by reflexivity.
  assert (Hatol : (this (frac 1 100) == 1 # 100)%Q) by apply Qred_correct.
  assert (Hrtol : (this default_rtol == 1 # 100000)%Q) by apply Qred_correct.
  assert (Hx : (this (Qc_of_Z k) == 100 * (this (Qc_of_Z k) / 100))%Q) by field.
  assert (Hk : (99 ≤ k ≤ 101)%Z).
  { split.
    - destruct (Z_le_gt_dec 99 k) as [|Hlt]; [done|]. exfalso.
      assert (Hq : Qc_of_Z k ≤ Qc_of_Z 98) by (apply (proj1 (Z2Qc_inj_le _ _)); lia).
      clear Hhi. qc_to_q. rewrite H98 in Hq. rewrite H100, Hatol, Hrtol in Hlo.
      Lqa.lra.
    - destruct (Z_le_gt_dec k 101) as [|Hgt]; [done|]. exfalso.
      assert (Hq : Qc_of_Z 102 ≤ Qc_of_Z k) by (apply (proj1 (Z2Qc_inj_le _ _)); lia).
      clear Hlo. qc_to_q. rewrite H102 in Hq. rewrite H100, Hatol, Hrtol in Hhi.
      Lqa.lra. }
  destruct Hk as [Hk1 Hk2].
  apply (proj1 (Z2Qc_inj_le _ _)) in Hk1, Hk2. clear Hlo Hhi.
  split; qc_to_q; rewrite H99 in Hk1; rewrite H101 in Hk2;
    rewrite H100, Hatol; Lqa.lra.
Qed.

Lemma slider_weights_tolerance (w : widgets) (slider : string → Z)
    (stocks : list string) :
  NoDup stocks →
  frac 1 100 < Qcabs (dict_sum (custom_weights slider stocks) - 1) →
  validate_and_launch w (custom_weights slider stocks)
  = Stopped "Weights must sum to 100%. Please adjust your custom weights.".
Proof.
  intros Hnd Hfar. rewrite custom_weights_sum in Hfar by done.
  apply hundredths_tolerance in Hfar. rewrite <- custom_weights_sum in Hfar by done.
  unfold validate_and_launch.
  replace (weights_valid (custom_weights slider stocks)) with false; [done|].
  symmetry. apply not_true_is_false. rewrite weights_valid_iff.
  by apply Qclt_not_le.
Qed.
End weight_validation.

(** ** Yield weights (claim C10) *)

Section yield_weight.
Import Page.

Lemma yields_get_selected (df : list row) (stocks : list string) (s : string) :
  s ∈ stocks → s ∈ Symbol <$> df →
  yields_get (yields df stocks) s = Some (yield_or_zero df s).
Proof.
  intros Hs. unfold yields, yield_or_zero.
  induction df as [|r df IH]; intros Hdf.
  - by apply elem_of_nil in Hdf.
  - rewrite fmap_cons in Hdf. cbn [div_yield].
    destruct (decide (Symbol r = s)) as [Heq|Hne].
    + rewrite filter_cons_True by by rewrite Heq.
      rewrite fmap_cons. cbn [yields_get]. by rewrite decide_True.
    + apply elem_of_cons in Hdf as [?|Hdf]; [congruence|].
      destruct (decide (Symbol r ∈ stocks)).
      * rewrite filter_cons_True by done. rewrite fmap_cons. cbn [yields_get].
        rewrite decide_False by done. by apply IH.
      * rewrite filter_cons_False by done. by apply IH.
Qed.

Lemma div_yield_row (df : list row) (r : row) :
  NoDup (Symbol <$> df) → r ∈ df → div_yield df (Symbol r) = Div_Yield r.
Proof.
  induction df as [|r' df IH]; intros Hnd Hr.
  - by apply elem_of_nil in Hr.
  - rewrite fmap_cons in Hnd. apply list.NoDup_cons in Hnd as [Hfresh Hnd].
    cbn [div_yield]. apply elem_of_cons in Hr as [->|Hr].
    + by rewrite decide_True.
    + rewrite decide_False; [by apply IH|].
      intros Heq. apply Hfresh. rewrite Heq. by apply list_elem_of_fmap_2.
Qed.

Lemma selected_rows_perm (df : list row) (stocks : list string) :
  NoDup (Symbol <$> df) → NoDup stocks →
  (∀ s, s ∈ stocks → s ∈ Symbol <$> df) →
  Symbol <$> filter (λ r, Symbol r ∈ stocks) df ≡ₚ stocks.
Proof.
  intros Hdf Hst Hsub. apply NoDup_Permutation; [|done|].
  - eapply sublist_NoDup; [exact Hdf|]. apply fmap_sublist, sublist_filter.
  - intros s. rewrite list_elem_of_fmap. split.
    + intros (r & -> & Hr). by apply list_elem_of_filter in Hr as [? _].
    + intros Hs. pose proof (Hsub s Hs) as Hin.
      apply list_elem_of_fmap in Hin as (r & -> & Hr).
      exists r. split; [done|]. by apply list_elem_of_filter.
Qed.

Lemma total_yield_selected (df : list row) (stocks : list string) :
  NoDup (Symbol <$> df) → NoDup stocks →
  (∀ s, s ∈ stocks → s ∈ Symbol <$> df) →
  total_yield (yields df stocks) = sum_list (yield_or_zero df <$> stocks).
Proof.
  intros Hdf Hst Hsub. unfold total_yield, yields.
  rewrite <- (sum_list_perm _ _
    (fmap_Permutation (yield_or_zero df) _ _ (selected_rows_perm _ _ Hdf Hst Hsub))).
  rewrite <- !list_fmap_compose. apply sum_list_ext.
  intros r Hr. apply list_elem_of_filter in Hr as [_ Hr]. cbn.
  unfold yield_or_zero. by rewrite div_yield_row.
Qed.

Lemma yield_weights_found (ys : list (string * Qc)) (stocks : list string)
    (g : string → Qc) :
  (∀ s, s ∈ stocks → yields_get ys s = Some (g s)) →
  yield_weights ys stocks = inr (dict_comp (λ s, g s / total_yield ys) stocks).
Proof.
  unfold yield_weights, dict_comp. generalize (∅ : gmap string Qc).
  induction stocks as [|a stocks IH]; intros m0 Hg; cbn [foldl].
  - done.
  - rewrite (Hg a) by left. apply IH. intros s Hs. apply Hg. by right.
Qed.
(** C10. Under the Yield Weight method, for a non-empty selection of
    distinct symbols of the dataframe (one row per symbol): when the sum
    of their yields, a missing yield counted as 0, is positive, every
    stock gets its yield divided by that total, the weights sum to 1 and
    a stock without yield data gets weight 0; otherwise every stock gets
    [1/n].  In both cases the run is launched with that mapping. *)
Theorem yield_weight_mapping (w : widgets) (df : list row) :
  w_allocation_method w = "Yield Weight" →
  w_run_backtest w = true →
  w_selected w ≠ [] →
  NoDup (w_selected w) →
  NoDup (Symbol <$> df) →
  (∀ s, s ∈ w_selected w → s ∈ Symbol <$> df) →
  let stocks := selected_stocks (w_selected w) in
  let total := sum_list (yield_or_zero df <$> stocks) in
  ∃ l, (script w df).2 = Launched l
     ∧ l_stocks l = stocks
     ∧ dom (l_weights l) = list_to_set stocks
     ∧ (0 < total →
          (∀ s, s ∈ stocks →
             l_weights l !! s = Some (yield_or_zero df s / total))
          ∧ dict_sum (l_weights l) = 1
          ∧ (∀ s, s ∈ stocks → div_yield df s = None →
               l_weights l !! s = Some 0))
     ∧ (¬ 0 < total →
          ∀ s, s ∈ stocks →
            l_weights l !! s = Some (1 / Qc_of_nat (length stocks))).
Proof.
  intros Hm Hrun Hne Hnd Hdf Hsub stocks total.
  assert (Hne' : stocks ≠ []) by by apply selected_stocks_nonempty.
  assert (Hnd' : NoDup stocks) by by apply selected_stocks_NoDup.
  assert (Hsub' : ∀ s, s ∈ stocks → s ∈ Symbol <$> df).
  { intros s Hs. by apply Hsub, selected_stocks_elem. }
  assert (Htot : total_yield (yields df stocks) = total)
    by by apply total_yield_selected.
  rewrite script_outcome. unfold on_run, compute_weights.
  rewrite Hrun, Hm. cbn [negb]. fold stocks.
  destruct (decide (length stocks = 0%nat)) as [Hz|_].
  { by destruct stocks. }
  rewrite decide_False by done. rewrite decide_True by done.
  rewrite Htot. destruct (decide (0 < total)) as [Hpos|Hnpos].
  - rewrite (yield_weights_found _ _ (yield_or_zero df)); last first.
    { intros s Hs. apply yields_get_selected; auto. }
    rewrite Htot.
    assert (Hsum : dict_sum (dict_comp (λ s, yield_or_zero df s / total) stocks) = 1).
    { rewrite dict_comp_sum by done.
      rewrite (sum_list_scale (yield_or_zero df) total). fold total.
      field. intros H0. rewrite H0 in Hpos. by apply (irreflexivity Qclt) in Hpos. }
    unfold validate_and_launch.
    rewrite (weights_valid_of_sum_1 _ Hsum). cbn [negb snd].
    eexists. split; [reflexivity|]. cbn [l_stocks l_weights].
    split; [done|]. split; [apply dict_comp_dom|]. split; [|done].
    intros _. split; [|split; [done|]].
    + intros s Hs. by rewrite dict_comp_lookup_elem.
    + intros s Hs Hmiss. rewrite dict_comp_lookup_elem by done.
      unfold yield_or_zero. rewrite Hmiss. cbn [default].
      f_equal. unfold Qcdiv. ring.
  - assert (Hsum : dict_sum (equal_weights stocks) = 1)
      by by apply equal_weights_sum.
    unfold validate_and_launch.
    rewrite (weights_valid_of_sum_1 _ Hsum). cbn [negb snd].
    eexists. split; [reflexivity|]. cbn [l_stocks l_weights].
    split; [done|]. split; [apply dict_comp_dom|]. split; [done|].
    intros _ s Hs. unfold equal_weights. by rewrite dict_comp_lookup_elem.
Qed.

Lemma yield_weight_mapping_witness :
  ∃ l, (script Sample.widgets_yield Sample.df).2 = Launched l
     ∧ l_weights l !! "JNJ" = Some (frac 3 5)
     ∧ l_weights l !! "MMM" = Some 0
     ∧ dict_sum (l_weights l) = 1.
Proof.
  destruct (yield_weight_mapping Sample.widgets_yield Sample.df)
    as (l & Hl & _ & _ & Hpos & _).
  - reflexivity.
  - reflexivity.
  - discriminate.
  - apply (bool_decide_unpack _). by vm_compute.
  - apply (bool_decide_unpack _). by vm_compute.
  - apply (proj1 (list.Forall_forall (λ s, s ∈ Symbol <$> Sample.df) _)).
    apply (bool_decide_unpack _). by vm_compute.
  - destruct Hpos as (Hw & Hsum & Hmiss); [by vm_compute|].
    exists l. split; [done|]. split; [|split; [|done]].
    + rewrite (Hw "JNJ"); [|apply (bool_decide_unpack _); by vm_compute].
      f_equal.
    + apply Hmiss; [apply (bool_decide_unpack _); by vm_compute | reflexivity].
Defined.
End yield_weight.

(** ** The engine: valuation *)

Section valuation.
Import Calendar TaxCalc Engine.

Lemma positions_value_empty (P : gmap string Qc) : positions_value ∅ P = 0.
Proof. unfold positions_value. by rewrite map_fold_empty. Qed.

Lemma positions_value_insert_fresh (H : gmap string Holding) (P : gmap string Qc)
    (sym : string) (h : Holding) :
  H !! sym = None →
  positions_value (<[sym := h]> H) P
  = positions_value H P + h_shares h * price_in P sym.
Proof.
  intros Hfresh. unfold positions_value.
  rewrite map_fold_insert_L; [done| |done]. intros. ring.
Qed.

(** Replacing (or adding) the holding of one symbol changes the value of
    the positions by the change of that symbol's shares at its price. *)
Lemma positions_value_insert (H : gmap string Holding) (P : gmap string Qc)
    (sym : string) (h : Holding) :
  positions_value (<[sym := h]> H) P
  = positions_value H P
    + (h_shares h - shares_in H sym) * price_in P sym.
Proof.
  unfold shares_in. destruct (H !! sym) as [h0|] eqn:Hsym; cbn [fmap option_fmap option_map default].
  - rewrite <- (insert_delete_id H sym h0) at 2 by done.
    rewrite <- (insert_delete_eq H).
    rewrite !positions_value_insert_fresh by apply lookup_delete_eq.
    unfold Datatypes.id. ring.
  - rewrite positions_value_insert_fresh by done. unfold Datatypes.id. ring.
Qed.

Lemma price_gain_spec (H : gmap string Holding) (P P' : gmap string Qc) :
  map_fold (λ sym h acc, acc + h_shares h * (price_in P' sym - price_in P sym)) 0 H
  = positions_value H P' - positions_value H P.
Proof.
  induction H as [|sym h H Hfresh IH] using map_ind.
  - rewrite !positions_value_empty, map_fold_empty. ring.
  - rewrite !positions_value_insert_fresh by done.
    rewrite map_fold_insert_L; [|intros; ring|done].
    rewrite IH. ring.
Qed.
End valuation.

(** ** The engine: what each step leaves alone *)

Section frames.
Import Calendar TaxCalc Engine.

Lemma foldl_preserves {A B} (P : A → Prop) (f : A → B → A) (l : list B) (a : A) :
  P a → (∀ a b, P a → P (f a b)) → P (foldl f a l).
Proof.
  intros Ha Hf. revert a Ha. induction l as [|b l IH]; intros a Ha; cbn [foldl].
  - done.
  - apply IH, Hf, Ha.
Qed.

Lemma same_books_refl (st : State) : same_books st st.
Proof. by repeat split. Qed.

Lemma same_books_trans (st1 st2 st3 : State) :
  same_books st1 st2 → same_books st2 st3 → same_books st1 st3.
Proof.
  intros (?&?&?&?&?&?) (?&?&?&?&?&?). repeat split; congruence.
Qed.

Lemma buy_books (d : Date) (sym : string) (amount : Qc) (st : State) :
  same_books st (buy d sym amount st).
Proof. unfold buy. destruct (last_price st !! sym); by repeat split. Qed.

Lemma deploy_books (d : Date) (W : gmap string Qc) (syms : list string)
    (amount : Qc) (st : State) :
  same_books st (deploy d W syms amount st).
Proof.
  unfold deploy. apply (foldl_preserves (same_books st)).
  - apply same_books_refl.
  - intros a b Ha. eapply same_books_trans; [exact Ha | apply buy_books].
Qed.

Lemma apply_sale_books (st : State) (s : Sale) : same_books st (apply_sale st s).
Proof. unfold apply_sale. destruct (holdings st !! s_symbol s); by repeat split. Qed.
End frames.

(** ** Rebalancing disabled (claim C8) *)

Section no_rebalancing.
Import Calendar TaxCalc Engine.

Lemma never_rebalanced_books (st st' : State) :
  same_books st st' → never_rebalanced st → never_rebalanced st'.
Proof.
  intros (_&_&_&_&Ht&Hr) [H1 H2]. unfold never_rebalanced. by rewrite Hr, Ht.
Qed.

Lemma mark_to_market_never_rebalanced md syms d st :
  never_rebalanced st → never_rebalanced (mark_to_market md syms d st).
Proof. done. Qed.

Lemma settle_dividend_never_rebalanced inp p h st :
  never_rebalanced st → never_rebalanced (settle_dividend inp p h st).
Proof.
  intros [Hr Ht]. unfold settle_dividend.
  set (st1 := record_dividend _ _).
  assert (H2 : never_rebalanced
                 match tax inp with
                 | Some _ =>
                     record_tax (mkTaxPayment (dp_date p) (DividendTax (dp_symbol p))
                                   (dp_gross p) (dp_tax p) (dp_net p)) st1
                 | None => st1
                 end).
  { destruct (tax inp); [|done]. split; [done|].
    cbn [tax_payments record_tax]. apply Forall_app. split; [done|].
    by apply Forall_singleton. }
  destruct (dp_reinvested p); [|done].
  eapply never_rebalanced_books; [apply buy_books | done].
Qed.

Lemma pay_dividend_never_rebalanced inp d per_share sym st :
  never_rebalanced st → never_rebalanced (pay_dividend inp d per_share sym st).
Proof.
  intros Hst. unfold pay_dividend.
  destruct (holdings st !! sym) as [h|]; [|done].
  destruct (decide _); [|done].
  by apply settle_dividend_never_rebalanced.
Qed.

Lemma apply_dividends_never_rebalanced inp md syms d st :
  never_rebalanced st → never_rebalanced (apply_dividends inp md syms d st).
Proof.
  intros Hst. unfold apply_dividends. apply (foldl_preserves never_rebalanced); [done|].
  intros a sym Ha. destruct (dividend md sym d); [|done].
  by apply pay_dividend_never_rebalanced.
Qed.

Lemma contribute_never_rebalanced inp syms d st :
  never_rebalanced st → never_rebalanced (contribute inp syms d st).
Proof.
  intros Hst. unfold contribute.
  eapply never_rebalanced_books; [apply deploy_books | done].
Qed.

Lemma rebalancing_due_none start prev d :
  rebalancing_due NoRebalancing start prev d = false.
Proof. done. Qed.

Lemma day_step_never_rebalanced inp md syms prev d next st :
  rebalancing_frequency inp = NoRebalancing →
  never_rebalanced st → never_rebalanced (day_step inp md syms prev d next st).
Proof.
  intros Hf Hst. unfold day_step. rewrite Hf, rebalancing_due_none.
  destruct (_ && _).
  - by apply contribute_never_rebalanced, apply_dividends_never_rebalanced.
  - by apply apply_dividends_never_rebalanced.
Qed.

Lemma run_days_never_rebalanced inp md syms prev dates st trace :
  rebalancing_frequency inp = NoRebalancing →
  never_rebalanced st →
  run_days inp md syms prev dates st = inr trace →
  Forall never_rebalanced trace.
Proof.
  intros Hf. revert prev st trace.
  induction dates as [|d rest IH]; intros prev st trace Hst Hrun; cbn [run_days] in Hrun.
  - by injection Hrun as <-.
  - destruct (check_invariants _ _); [done|].
    destruct (run_days _ _ _ _ rest _) as [e|trace'] eqn:Hrest; [done|].
    injection Hrun as <-.
    assert (never_rebalanced (day_step inp md syms prev d (head rest) st))
      by by apply day_step_never_rebalanced.
    constructor; [done|]. by eapply IH.
Qed.

Lemma open_portfolio_never_rebalanced inp md syms d0 :
  never_rebalanced (open_portfolio inp md syms d0).
Proof.
  unfold open_portfolio.
  eapply never_rebalanced_books; [apply deploy_books|]. by split.
Qed.

Lemma simulate_never_rebalanced inp md trace :
  rebalancing_frequency inp = NoRebalancing →
  simulate inp md = inr trace → Forall never_rebalanced trace.
Proof.
  intros Hf. unfold simulate.
  destruct (validate inp); [done|].
  destruct (tradable inp md) as [|sym syms]; [done|].
  destruct (run_dates inp md) as [|d0 rest]; [done|].
  destruct (check_invariants _ _); [done|].
  intros Hrun. eapply run_days_never_rebalanced; [done| |exact Hrun].
  apply open_portfolio_never_rebalanced.
Qed.
End no_rebalancing.

Section no_rebalancing_claim.
Import Calendar TaxCalc Engine.

Lemma never_rebalanced_totals (st : State) :
  never_rebalanced st →
  total_rebalancing_fees st = 0 ∧ total_rebalancing_taxes st = 0.
Proof.
  intros [Hr _]. unfold total_rebalancing_fees, total_rebalancing_taxes.
  by rewrite Hr.
Qed.

(** C8. With rebalancing frequency "none", whatever the other inputs and
    the market data: the trigger fires on no date; every state of a
    completed run carries no RebalancingEvent, zero rebalancing fees and
    taxes, and no capital-gains tax payment; so does the result bundle.  On
    the page, "No Rebalancing" passes a rebalancing fee of 0 and reaches
    the engine as frequency "none". *)
Theorem no_rebalancing_no_events (inp : Input) (md : MarketData) :
  let none := with_frequency NoRebalancing inp in
  (∀ start prev d,
     rebalancing_due (rebalancing_frequency none) start prev d = false)
  ∧ (∀ trace, simulate none md = inr trace →
       Forall (λ st, rebalancing_history st = []
                     ∧ total_rebalancing_fees st = 0
                     ∧ total_rebalancing_taxes st = 0
                     ∧ Forall (λ p, tp_source p ≠ CapitalGainsTax)
                              (tax_payments st)) trace)
  ∧ (∀ b, run_backtest none md = inr b →
       b_rebalancing_history b = []
       ∧ sum_list (re_fees <$> b_rebalancing_history b) = 0
       ∧ sum_list (re_taxes <$> b_rebalancing_history b) = 0
       ∧ Forall (λ p, tp_source p ≠ CapitalGainsTax) (b_tax_payments b))
  ∧ (∀ opts w df l,
       Page.w_rebalancing_frequency w = "No Rebalancing" →
       (Page.script w df).2 = Page.Launched l →
       Page.l_rebalancing_fee l = 0
       ∧ rebalancing_frequency (Backtester.engine_input opts l) = NoRebalancing).
Proof.
  intros none.
  assert (Htrace : ∀ trace, simulate none md = inr trace →
                            Forall never_rebalanced trace).
  { intros trace. by apply simulate_never_rebalanced. }
  split; [done|]. split; [|split].
  - intros trace Hrun. eapply list.Forall_impl; [by apply Htrace|].
    intros st Hst. destruct (never_rebalanced_totals st Hst) as [Hf Ht].
    by destruct Hst.
  - intros b. unfold run_backtest.
    destruct (simulate none md) as [e|trace] eqn:Hrun; [done|].
    destruct (simulate (without_drip none) md) as [e|no_drip]; [done|].
    unfold finalize. destruct (list.last trace) as [st|] eqn:Hlast; [|done].
    intros [= <-]. cbn [b_rebalancing_history b_tax_payments].
    assert (Hst : never_rebalanced st).
    { pose proof (Htrace trace eq_refl) as Hall.
      rewrite list.Forall_forall in Hall. apply Hall.
      apply last_Some in Hlast as [l' ->]. set_solver. }
    destruct Hst as [Hr Ht]. by rewrite Hr.
  - intros opts w df l Hw Hl. rewrite script_outcome in Hl.
    unfold Page.on_run in Hl.
    destruct (negb (Page.w_run_backtest w)); [done|].
    destruct (decide _); [done|].
    destruct (Page.compute_weights w df) as [notes [k|weights]]; [done|].
    unfold Page.validate_and_launch in Hl.
    destruct (negb (Page.weights_valid weights)); [done|].
    cbn [snd] in Hl. injection Hl as <-.
    unfold Backtester.engine_input, Backtester.frequency_of, Page.rebalancing_fee.
    cbn [Page.l_rebalancing_fee Page.l_rebalancing_frequency rebalancing_frequency].
    by rewrite !decide_True by done.
Qed.

Lemma no_rebalancing_no_events_witness :
  ∃ b, run_backtest (with_frequency NoRebalancing Scenario.input) Scenario.market
       = inr b
     ∧ b_rebalancing_history b = []
     ∧ length (daily_values b) = 5%nat.
Proof.
  destruct (run_backtest (with_frequency NoRebalancing Scenario.input)
              Scenario.market) as [e|b] eqn:Hrun.
  - exfalso. vm_compute in Hrun. discriminate.
  - exists b. split; [done|].
    destruct (no_rebalancing_no_events Scenario.input Scenario.market)
      as (_ & _ & Hb & _).
    destruct (Hb b Hrun) as (Hr & _). split; [done|].
    vm_compute in Hrun. injection Hrun as <-. reflexivity.
Defined.
End no_rebalancing_claim.

(** ** The engine: date and prices within a day *)

Section market_frame.
Import Calendar TaxCalc Engine.

Lemma same_market_refl st : same_market st st.
Proof. by split. Qed.

Lemma same_market_trans st1 st2 st3 :
  same_market st1 st2 → same_market st2 st3 → same_market st1 st3.
Proof. intros [??] [??]. split; congruence. Qed.

Lemma same_books_market st st' : same_books st st' → same_market st st'.
Proof. by intros (?&?&_). Qed.

Lemma foldl_same_market {B} (f : State → B → State) (l : list B) (st : State) :
  (∀ a b, same_market a (f a b)) → same_market st (foldl f st l).
Proof.
  intros Hf. apply (foldl_preserves (same_market st)).
  - apply same_market_refl.
  - intros a b Ha. eapply same_market_trans; [exact Ha | apply Hf].
Qed.

Lemma settle_dividend_market inp p h st :
  same_market st (settle_dividend inp p h st).
Proof.
  unfold settle_dividend.
  destruct (dp_reinvested p).
  - eapply same_market_trans; [|apply same_books_market, buy_books].
    by destruct (tax inp).
  - by destruct (tax inp).
Qed.

Lemma pay_dividend_market inp d per_share sym st :
  same_market st (pay_dividend inp d per_share sym st).
Proof.
  unfold pay_dividend. destruct (holdings st !! sym); [|apply same_market_refl].
  destruct (decide _); [|apply same_market_refl].
  apply settle_dividend_market.
Qed.

Lemma apply_dividends_market inp md syms d st :
  same_market st (apply_dividends inp md syms d st).
Proof.
  unfold apply_dividends. apply foldl_same_market. intros a sym.
  destruct (dividend md sym d); [apply pay_dividend_market | apply same_market_refl].
Qed.

Lemma contribute_market inp syms d st :
  same_market st (contribute inp syms d st).
Proof.
  unfold contribute.
  eapply same_market_trans; [|apply same_books_market, deploy_books]. by split.
Qed.

Lemma rebalance_market inp syms d st :
  same_market st (rebalance inp syms d st).
Proof.
  unfold rebalance.
  set (sales := omap _ syms).
  set (st1 := foldl apply_sale st sales).
  assert (H1 : same_market st st1).
  { apply foldl_same_market. intros a b. apply same_books_market, apply_sale_books. }
  set (st2 := set_cash _ st1).
  assert (H2 : same_market st st2) by (by destruct H1).
  set (purchases := _ <$> omap _ syms).
  set (st3 := foldl _ st2 purchases).
  assert (H3 : same_market st st3).
  { eapply same_market_trans; [exact H2|]. apply foldl_same_market.
    intros a b. apply same_books_market, buy_books. }
  destruct H3 as [Ha Hp]. by destruct (tax inp).
Qed.

Lemma day_step_market inp md syms prev d next st :
  same_market (mark_to_market md syms d st) (day_step inp md syms prev d next st).
Proof.
  unfold day_step.
  set (st2 := apply_dividends _ _ _ _ _).
  assert (H2 : same_market (mark_to_market md syms d st) st2)
    by apply apply_dividends_market.
  set (st3 := if _ && _ then _ else _).
  assert (H3 : same_market (mark_to_market md syms d st) st3).
  { unfold st3. destruct (_ && _); [|done].
    eapply same_market_trans; [exact H2 | apply contribute_market]. }
  destruct (rebalancing_due _ _ _ _); [|done].
  eapply same_market_trans; [exact H3 | apply rebalance_market].
Qed.

Lemma day_step_as_of inp md syms prev d next st :
  as_of (day_step inp md syms prev d next st) = d.
Proof. by destruct (day_step_market inp md syms prev d next st) as [-> _]. Qed.

Lemma open_portfolio_as_of inp md syms d0 :
  as_of (open_portfolio inp md syms d0) = d0.
Proof.
  unfold open_portfolio.
  by destruct (deploy_books d0 (weights inp) syms (initial_investment inp)
                 (mark_to_market md syms d0
                    (mkState d0 (initial_investment inp) ∅ ∅ [] [] [] [])))
    as [-> _].
Qed.
End market_frame.

(** ** The invariant check (claim C2) *)

Section invariants.
Import Calendar TaxCalc Engine.

Lemma negative_holdings_nil (st : State) :
  negative_holdings st = [] ↔ map_Forall (λ _ h, 0 ≤ h_shares h) (holdings st).
Proof.
  unfold negative_holdings. rewrite map_to_list_empty_iff, map_empty_filter.
  unfold map_Forall. split; intros H sym h Hsym; specialize (H sym h Hsym); cbn in *.
  - by apply Qcnot_lt_le.
  - by apply Qcle_not_lt.
Qed.

Lemma check_invariants_None (d : Date) (st : State) :
  check_invariants d st = None ↔ sound st.
Proof.
  unfold check_invariants, sound. rewrite <- negative_holdings_nil.
  destruct (decide (cash st < 0)) as [Hneg|Hpos].
  - split; [done|]. intros [Hc _]. by apply Qcle_not_lt in Hc.
  - apply Qcnot_lt_le in Hpos.
    destruct (negative_holdings st) as [|[sym h] rest]; split; try done.
    by intros [_ ?].
Qed.

Lemma check_invariants_Some (d : Date) (st : State) (e : error) :
  check_invariants d st = Some e →
  ∃ v, e = SimulationInvariantError d v ∧ violated v st.
Proof.
  unfold check_invariants.
  destruct (decide (cash st < 0)) as [Hneg|_].
  - intros [= <-]. by exists NegativeCash.
  - destruct (negative_holdings st) as [|[sym h] rest] eqn:Hneg; [done|].
    intros [= <-]. exists (NegativeShares sym). split; [done|].
    assert (Hin : (sym, h) ∈ negative_holdings st) by (rewrite Hneg; left).
    unfold negative_holdings in Hin.
    apply elem_of_map_to_list, map_lookup_filter_Some in Hin as [Hsym Hlt].
    by exists h.
Qed.

Lemma run_days_sound inp md syms prev dates st trace :
  run_days inp md syms prev dates st = inr trace →
  trace = unchecked_days inp md syms prev dates st ∧ Forall sound trace.
Proof.
  revert prev st trace.
  induction dates as [|d rest IH]; intros prev st trace Hrun;
    cbn [run_days unchecked_days] in *.
  - by injection Hrun as <-.
  - destruct (check_invariants _ _) eqn:Hcheck; [done|].
    destruct (run_days _ _ _ _ rest _) as [e|trace'] eqn:Hrest; [done|].
    injection Hrun as <-. destruct (IH _ _ _ Hrest) as [-> Hall].
    split; [done|]. constructor; [|done]. by eapply check_invariants_None.
Qed.

Lemma run_days_abort inp md syms prev dates st e :
  run_days inp md syms prev dates st = inl e →
  ∃ (i : nat) st' d v,
    e = SimulationInvariantError d v
    ∧ unchecked_days inp md syms prev dates st !! i = Some st'
    ∧ as_of st' = d ∧ violated v st'
    ∧ ∀ (j : nat) st'', (j < i)%nat →
        unchecked_days inp md syms prev dates st !! j = Some st'' → sound st''.
Proof.
  revert prev st.
  induction dates as [|d rest IH]; intros prev st Hrun;
    cbn [run_days unchecked_days] in *; [done|].
  destruct (check_invariants _ _) as [e'|] eqn:Hcheck.
  - injection Hrun as <-.
    destruct (check_invariants_Some _ _ _ Hcheck) as (v & -> & Hv).
    exists 0%nat, (day_step inp md syms prev d (head rest) st), d, v.
    split_and!; try done.
    + apply day_step_as_of.
    + intros j st'' Hj. lia.
  - destruct (run_days _ _ _ _ rest _) as [e'|trace'] eqn:Hrest; [|done].
    injection Hrun as <-.
    destruct (IH _ _ Hrest) as (i & st' & d' & v & -> & Hi & Hd & Hv & Hbefore).
    exists (S i), st', d', v. split_and!; try done.
    intros [|j] st'' Hj Hst''.
    + injection Hst'' as <-. by eapply check_invariants_None.
    + apply (Hbefore j); [lia | done].
Qed.

(** C2.  A completed run has gone through states whose cash and share
    counts are all non-negative.  A run that ends in a
    SimulationInvariantError names the date of the first state reached
    whose cash or share count is negative, and for shares the symbol; every
    state before it satisfies the invariant.  A reached state that breaks
    the invariant always aborts the run, and an aborted run returns the
    error alone, no result bundle. *)
Theorem invariant_or_abort (inp : Input) (md : MarketData) :
  (∀ trace, simulate inp md = inr trace →
     Forall sound trace
     ∧ ∃ st0, sound st0 ∧ reached_states inp md = st0 :: trace)
  ∧ (∀ d v, simulate inp md = inl (SimulationInvariantError d v) →
       ∃ (i : nat) st,
         reached_states inp md !! i = Some st ∧ as_of st = d ∧ violated v st
         ∧ ∀ (j : nat) st', (j < i)%nat →
             reached_states inp md !! j = Some st' → sound st')
  ∧ (validate inp = None → tradable inp md ≠ [] →
     ∀ (i : nat) st, reached_states inp md !! i = Some st → ¬ sound st →
       ∃ d v, simulate inp md = inl (SimulationInvariantError d v))
  ∧ (∀ e, simulate inp md = inl e → run_backtest inp md = inl e).
Proof.
  assert (Hok : ∀ trace, simulate inp md = inr trace →
     Forall sound trace
     ∧ ∃ st0, sound st0 ∧ reached_states inp md = st0 :: trace).
  { intros trace. unfold simulate, reached_states.
    destruct (validate inp); [done|].
    destruct (tradable inp md) as [|sym syms]; [done|].
    destruct (run_dates inp md) as [|d0 rest]; [done|].
    destruct (check_invariants _ _) eqn:Hcheck; [done|].
    intros Hrun. apply run_days_sound in Hrun as [-> Hall].
    split; [done|]. eexists. split; [|done]. by eapply check_invariants_None. }
  split; [done|]. split; [|split].
  - intros d v. unfold simulate, reached_states.
    destruct (validate inp); [done|].
    destruct (tradable inp md) as [|sym syms]; [done|].
    destruct (run_dates inp md) as [|d0 rest]; [done|].
    destruct (check_invariants _ _) as [e|] eqn:Hcheck.
    + intros [= ->].
      destruct (check_invariants_Some _ _ _ Hcheck) as (v' & [= <-] & Hv).
      subst v'. eexists 0%nat, _. split_and!.
      * reflexivity.
      * apply open_portfolio_as_of.
      * done.
      * intros j st' Hj. lia.
    + intros Hrun.
      destruct (run_days_abort _ _ _ _ _ _ _ Hrun)
        as (i & st' & d' & v' & [= <- <-] & Hi & Hd & Hv & Hbefore).
      exists (S i), st'. split_and!; try done.
      intros [|j] st'' Hj Hst''.
      * injection Hst'' as <-. by eapply check_invariants_None.
      * apply (Hbefore j); [lia | done].
  - intros Hvalid Htradable i st Hi Hbad.
    destruct (simulate inp md) as [[msg|d v]|trace] eqn:Hrun.
    + exfalso. unfold simulate in Hrun. rewrite Hvalid in Hrun.
      unfold reached_states in Hi.
      destruct (tradable inp md) as [|sym syms]; [done|].
      destruct (run_dates inp md) as [|d0 rest]; [done|].
      destruct (check_invariants _ _) as [e|] eqn:Hcheck.
      * by destruct (check_invariants_Some _ _ _ Hcheck) as (v' & -> & _).
      * destruct (run_days_abort _ _ _ _ _ _ _ Hrun) as (?&?&?&?&?&_). done.
    + by exists d, v.
    + exfalso. destruct (Hok trace eq_refl) as (Hall & st0 & Hst0 & Hreached).
      rewrite Hreached in Hi. apply Hbad.
      destruct i as [|i]; [by injection Hi as <-|].
      rewrite list.Forall_forall in Hall. apply Hall.
      by eapply list_elem_of_lookup_2.
  - intros e Hrun. unfold run_backtest. by rewrite Hrun.
Qed.
Lemma invariant_or_abort_witness :
  (∃ trace, simulate Scenario.input Scenario.market = inr trace
            ∧ length trace = 5%nat ∧ Forall sound trace)
  ∧ (∃ st, reached_states Scenario.overweight Scenario.market !! 0%nat = Some st
           ∧ as_of st = Scenario.d1 ∧ cash st < 0)
  ∧ run_backtest Scenario.overweight Scenario.market
    = inl (SimulationInvariantError Scenario.d1 NegativeCash).
Proof.
  split; [|split].
  - destruct (simulate Scenario.input Scenario.market) as [e|trace] eqn:Hrun.
    + exfalso. vm_compute in Hrun. discriminate.
    + exists trace. split; [done|].
      destruct (invariant_or_abort Scenario.input Scenario.market) as (Hok & _).
      destruct (Hok trace Hrun) as [Hall _]. split; [|done].
      vm_compute in Hrun. injection Hrun as <-. reflexivity.
  - destruct (invariant_or_abort Scenario.overweight Scenario.market)
      as (_ & Habort & _).
    destruct (Habort Scenario.d1 NegativeCash) as (i & st & Hi & Hd & Hv & Hbefore).
    { by vm_compute. }
    destruct i as [|i].
    + by exists st.
    + exfalso.
      destruct (reached_states Scenario.overweight Scenario.market) as [|st0 rest] eqn:Hr;
        [done|].
      assert (Hs : sound st0) by (apply (Hbefore 0%nat); [lia | done]).
      vm_compute in Hr. injection Hr as <- _. destruct Hs as [Hc _].
      by vm_compute in Hc.
  - destruct (invariant_or_abort Scenario.overweight Scenario.market)
      as (_ & _ & _ & Hnone).
    apply Hnone. by vm_compute.
Defined.
End invariants.

(** ** Conservation of value (claim C1) *)

Section conservation.
Import Calendar TaxCalc Engine.

Lemma ledger_books (st st' : State) : same_books st st' → ledger st' = ledger st.
Proof.
  intros (_&_&Hc&Hd&_&Hr).
  unfold ledger, total_contributions, total_net_dividends, total_drip_fees,
    total_rebalancing_fees, total_rebalancing_taxes.
  by rewrite Hc, Hd, Hr.
Qed.

Lemma prices_nonzero_market (st st' : State) :
  same_market st st' → prices_nonzero st → prices_nonzero st'.
Proof. intros [_ Hp] H. unfold prices_nonzero. by rewrite Hp. Qed.

Lemma buy_net_worth (d : Date) (sym : string) (amount : Qc) (st : State) :
  prices_nonzero st → net_worth (buy d sym amount st) = net_worth st.
Proof.
  intros Hnz. unfold buy, net_worth.
  destruct (last_price st !! sym) as [p|] eqn:Hp; [|done].
  cbn [cash holdings last_price set_cash set_holdings].
  rewrite positions_value_insert. unfold price_in, shares_in. rewrite Hp.
  cbn [default add_lot h_shares].
  destruct (holdings st !! sym) as [h|]; cbn [default fmap option_fmap option_map h_shares empty_holding];
    unfold Datatypes.id; field; by apply (Hnz sym).
Qed.

Lemma deploy_net_worth (d : Date) (W : gmap string Qc) (syms : list string)
    (amount : Qc) (st : State) :
  prices_nonzero st → net_worth (deploy d W syms amount st) = net_worth st.
Proof.
  intros Hnz. unfold deploy.
  apply (foldl_preserves (λ s, prices_nonzero s ∧ net_worth s = net_worth st)
           (λ st sym, buy d sym (weight_of W sym * amount) st) syms st); [done|].
  intros a sym [Ha <-]. split.
  - eapply prices_nonzero_market; [apply same_books_market, buy_books | done].
  - by apply buy_net_worth.
Qed.
Lemma sum_list_snoc (l : list Qc) (x : Qc) : sum_list (l ++ [x]) = sum_list l + x.
Proof. rewrite sum_list_app, sum_list_cons, sum_list_nil. ring. Qed.

Lemma ledger_record_tax (p : TaxPayment) (st : State) :
  ledger (record_tax p st) = ledger st ∧ net_worth (record_tax p st) = net_worth st.
Proof. done. Qed.

Lemma settle_dividend_balance inp (p : DividendPayment) (h : Holding) (st : State) :
  prices_nonzero st → holdings st !! dp_symbol p = Some h →
  net_worth (settle_dividend inp p h st) - ledger (settle_dividend inp p h st)
  = net_worth st - ledger st.
Proof.
  intros Hnz Hh. unfold settle_dividend.
  set (st1 := record_dividend p _).
  assert (Hw1 : net_worth st1 = net_worth st + (dp_net p - dp_fee p)).
  { unfold st1, net_worth.
    cbn [cash holdings last_price set_cash set_holdings record_dividend].
    rewrite positions_value_insert. unfold shares_in. rewrite Hh.
    cbn [default fmap option_fmap option_map credit_dividend h_shares].
    unfold Datatypes.id. ring. }
  assert (Hl1 : ledger st1 = ledger st + (dp_net p - dp_fee p)).
  { unfold st1, ledger, total_contributions, total_net_dividends, total_drip_fees,
      total_rebalancing_fees, total_rebalancing_taxes.
    cbn [contributions dividend_history rebalancing_history set_cash set_holdings
         record_dividend].
    rewrite !fmap_app, !sum_list_app. cbn [fmap list_fmap].
    rewrite !sum_list_cons, !sum_list_nil. ring. }
  assert (Hm1 : same_market st st1) by done.
  set (st2 := match tax inp with Some _ => record_tax _ st1 | None => st1 end).
  assert (H2 : net_worth st2 = net_worth st1 ∧ ledger st2 = ledger st1
               ∧ same_market st1 st2).
  { unfold st2. by destruct (tax inp). }
  destruct H2 as (Hw2 & Hl2 & Hm2).
  destruct (dp_reinvested p).
  - rewrite buy_net_worth, (ledger_books _ _ (buy_books _ _ _ _)).
    + rewrite Hw2, Hl2, Hw1, Hl1. ring.
    + eapply prices_nonzero_market; [exact Hm2|].
      by eapply prices_nonzero_market.
  - rewrite Hw2, Hl2, Hw1, Hl1. ring.
Qed.

Lemma pay_dividend_balance inp d per_share sym (st : State) :
  prices_nonzero st →
  net_worth (pay_dividend inp d per_share sym st)
  - ledger (pay_dividend inp d per_share sym st)
  = net_worth st - ledger st.
Proof.
  intros Hnz. unfold pay_dividend.
  destruct (holdings st !! sym) as [h|] eqn:Hh; [|done].
  destruct (decide _); [|done].
  by apply settle_dividend_balance.
Qed.

Lemma apply_dividends_balance inp md syms d (st : State) :
  prices_nonzero st →
  net_worth (apply_dividends inp md syms d st)
  - ledger (apply_dividends inp md syms d st)
  = net_worth st - ledger st.
Proof.
  intros Hnz. unfold apply_dividends.
  apply (foldl_preserves
           (λ s, prices_nonzero s ∧ net_worth s - ledger s = net_worth st - ledger st)
           _ syms st); [done|].
  intros a sym [Ha <-]. destruct (dividend md sym d) as [per_share|]; [|done].
  split.
  - eapply prices_nonzero_market; [apply pay_dividend_market | done].
  - by apply pay_dividend_balance.
Qed.

Lemma contribute_balance inp syms d (st : State) :
  prices_nonzero st →
  net_worth (contribute inp syms d st) - ledger (contribute inp syms d st)
  = net_worth st - ledger st.
Proof.
  intros Hnz. unfold contribute.
  rewrite deploy_net_worth by done.
  rewrite (ledger_books _ _ (deploy_books _ _ _ _ _)).
  unfold net_worth, ledger, total_contributions, total_net_dividends,
    total_drip_fees, total_rebalancing_fees, total_rebalancing_taxes.
  cbn [cash holdings last_price contributions dividend_history
       rebalancing_history set_cash record_contribution].
  rewrite fmap_app, sum_list_app. cbn [fmap list_fmap snd].
  rewrite sum_list_cons, sum_list_nil. ring.
Qed.
Lemma apply_sale_net_worth (st : State) (s : Sale) :
  price_in (last_price st) (s_symbol s) = s_price s →
  net_worth (apply_sale st s) = net_worth st.
Proof.
  intros Hp. unfold apply_sale, net_worth.
  destruct (holdings st !! s_symbol s) as [h|] eqn:Hh; [|done].
  cbn [cash holdings last_price set_cash set_holdings].
  rewrite positions_value_insert. unfold shares_in. rewrite Hh, Hp.
  cbn [default fmap option_fmap option_map h_shares]. unfold Datatypes.id. ring.
Qed.

Lemma plan_sale_price W total (st : State) sym (s : Sale) :
  plan_sale W total st sym = Some s →
  price_in (last_price st) (s_symbol s) = s_price s.
Proof.
  unfold plan_sale, price_in.
  destruct (holdings st !! sym); [|done].
  destruct (last_price st !! sym) as [p|] eqn:Hp; [|done].
  destruct (decide _); [|done].
  intros [= <-]. cbn [s_symbol s_price]. by rewrite Hp.
Qed.

Lemma sales_net_worth (sales : list Sale) (st0 st : State) :
  Forall (λ s, price_in (last_price st0) (s_symbol s) = s_price s) sales →
  same_books st0 st →
  net_worth (foldl apply_sale st sales) = net_worth st
  ∧ same_books st0 (foldl apply_sale st sales).
Proof.
  revert st. induction sales as [|s sales IH]; intros st Hall Hb; cbn [foldl].
  - done.
  - apply list.Forall_cons in Hall as [Hs Hall].
    assert (Hb' : same_books st0 (apply_sale st s))
      by (eapply same_books_trans; [exact Hb | apply apply_sale_books]).
    destruct (IH (apply_sale st s) Hall Hb') as [-> Hbooks].
    split; [|done]. apply apply_sale_net_worth.
    destruct Hb as (_ & -> & _). done.
Qed.

Lemma purchases_net_worth (d : Date) (purchases : list (string * Qc)) (st : State) :
  prices_nonzero st →
  net_worth (foldl (λ st b, buy d b.1 b.2 st) st purchases) = net_worth st
  ∧ same_books st (foldl (λ st b, buy d b.1 b.2 st) st purchases).
Proof.
  intros Hnz.
  apply (foldl_preserves
           (λ s, net_worth s = net_worth st ∧ same_books st s)
           (λ st b, buy d b.1 b.2 st) purchases st).
  - split; [done | apply same_books_refl].
  - intros a b [<- Hb]. split.
    + apply buy_net_worth.
      eapply prices_nonzero_market; [apply same_books_market, Hb | done].
    + eapply same_books_trans; [exact Hb | apply buy_books].
Qed.

Lemma rebalance_balance inp syms d (st : State) :
  prices_nonzero st →
  net_worth (rebalance inp syms d st) - ledger (rebalance inp syms d st)
  = net_worth st - ledger st.
Proof.
  intros Hnz. unfold rebalance.
  set (sales := omap _ syms).
  assert (Hsales : Forall (λ s, price_in (last_price st) (s_symbol s) = s_price s)
                          sales).
  { apply list.Forall_forall. intros s Hs. unfold sales in Hs.
    apply list_elem_of_omap in Hs as (sym & _ & Hs). by eapply plan_sale_price. }
  destruct (sales_net_worth sales st st Hsales (same_books_refl st)) as [Hw1 Hb1].
  set (st1 := foldl apply_sale st sales) in *.
  set (sale_fees := rebalancing_fee inp * _).
  set (taxes := match tax inp with Some r => capital_gains_tax r d sales | None => 0 end).
  set (st2 := set_cash _ st1).
  assert (Hb2 : same_books st st2) by done.
  assert (Hw2 : net_worth st2 = net_worth st - sale_fees - taxes).
  { unfold st2, net_worth in *. cbn [cash holdings last_price set_cash].
    rewrite <- Hw1. ring. }
  set (purchases := _ <$> omap _ syms).
  assert (Hnz2 : prices_nonzero st2).
  { eapply prices_nonzero_market; [apply same_books_market, Hb2 | done]. }
  destruct (purchases_net_worth d purchases st2 Hnz2) as [Hw3 Hb3].
  set (st3 := foldl _ st2 purchases) in *.
  set (purchase_fees := rebalancing_fee inp * _).
  set (st4 := set_cash _ st3).
  set (event := mkRebalancingEvent _ _ _ _ _ _).
  set (st5 := record_rebalancing event st4).
  assert (Hw5 : net_worth st5 = net_worth st - sale_fees - taxes - purchase_fees).
  { unfold st5, st4, net_worth in *.
    cbn [cash holdings last_price set_cash record_rebalancing].
    rewrite <- Hw2, <- Hw3. ring. }
  assert (Hl5 : ledger st5 = ledger st - (sale_fees + purchase_fees) - taxes).
  { pose proof (same_books_trans _ _ _ Hb2 Hb3) as (_ & _ & Hc & Hd & _ & Hr).
    unfold st5, st4, ledger, total_contributions, total_net_dividends,
      total_drip_fees, total_rebalancing_fees, total_rebalancing_taxes.
    cbn [contributions dividend_history rebalancing_history set_cash
         record_rebalancing].
    rewrite Hc, Hd, Hr, !fmap_app, !sum_list_app. cbn [fmap list_fmap].
    rewrite !sum_list_cons, !sum_list_nil. unfold event.
    cbn [re_fees re_taxes]. ring. }
  destruct (tax inp) as [r|].
  - destruct (ledger_record_tax (capital_gains_payment r d sales) st5) as [-> ->].
    rewrite Hw5, Hl5. ring.
  - rewrite Hw5, Hl5. ring.
Qed.
Lemma mark_to_market_nonzero md syms d (st : State) :
  positive_prices md → prices_nonzero st →
  prices_nonzero (mark_to_market md syms d st).
Proof.
  intros Hpos Hnz. unfold prices_nonzero, mark_to_market.
  cbn [last_price set_as_of set_last_price].
  apply (foldl_preserves (λ P : gmap string Qc, ∀ sym p, P !! sym = Some p → p ≠ 0));
    [done|].
  intros P sym HP. destruct (price md sym d) as [p|] eqn:Hp; [|done].
  intros sym' p'. destruct (decide (sym = sym')) as [<-|Hne].
  - rewrite lookup_insert_eq. intros [= <-] H0.
    apply Hpos in Hp. rewrite H0 in Hp. by apply (irreflexivity Qclt) in Hp.
  - rewrite lookup_insert_ne by done. apply HP.
Qed.

Lemma mark_to_market_balance md syms d (st : State) :
  net_worth (mark_to_market md syms d st)
  = net_worth st + price_gain st (mark_to_market md syms d st)
  ∧ ledger (mark_to_market md syms d st) = ledger st.
Proof.
  split; [|done]. unfold price_gain. rewrite price_gain_spec.
  unfold net_worth, mark_to_market.
  cbn [cash holdings last_price set_as_of set_last_price]. ring.
Qed.

Lemma price_gain_market (st st1 st2 : State) :
  same_market st1 st2 → price_gain st st2 = price_gain st st1.
Proof. intros [_ Hp]. unfold price_gain. by rewrite Hp. Qed.

Lemma day_step_balance inp md syms prev d next (st : State) :
  positive_prices md → prices_nonzero st →
  let st' := day_step inp md syms prev d next st in
  prices_nonzero st'
  ∧ net_worth st' - ledger st' = net_worth st - ledger st + price_gain st st'.
Proof.
  intros Hpos Hnz st'.
  pose proof (day_step_market inp md syms prev d next st) as Hm. fold st' in Hm.
  assert (Hnz1 : prices_nonzero (mark_to_market md syms d st))
    by by apply mark_to_market_nonzero.
  split; [by eapply prices_nonzero_market|].
  rewrite (price_gain_market st _ _ Hm).
  destruct (mark_to_market_balance md syms d st) as [Hw1 Hl1].
  unfold st', day_step.
  set (st1 := mark_to_market md syms d st) in *.
  set (st2 := apply_dividends inp md syms d st1).
  assert (H2 : net_worth st2 - ledger st2 = net_worth st1 - ledger st1)
    by by apply apply_dividends_balance.
  assert (Hnz2 : prices_nonzero st2).
  { eapply prices_nonzero_market; [apply apply_dividends_market | done]. }
  set (st3 := if _ && _ then _ else _).
  assert (H3 : net_worth st3 - ledger st3 = net_worth st1 - ledger st1
               ∧ prices_nonzero st3).
  { unfold st3. destruct (_ && _); [|done]. split.
    - rewrite contribute_balance by done. done.
    - eapply prices_nonzero_market; [apply contribute_market | done]. }
  destruct H3 as [H3 Hnz3].
  assert (H4 : net_worth (if rebalancing_due (rebalancing_frequency inp)
                               (start_date inp) prev d
                          then rebalance inp syms d st3 else st3)
               - ledger (if rebalancing_due (rebalancing_frequency inp)
                               (start_date inp) prev d
                         then rebalance inp syms d st3 else st3)
               = net_worth st1 - ledger st1).
  { destruct (rebalancing_due _ _ _ _); [|done].
    by rewrite rebalance_balance. }
  rewrite H4, Hw1, Hl1. ring.
Qed.

Lemma unchecked_days_balance inp md syms prev dates (st last_st : State) :
  positive_prices md → prices_nonzero st →
  list.last (st :: unchecked_days inp md syms prev dates st) = Some last_st →
  net_worth last_st - ledger last_st
  = net_worth st - ledger st
    + price_gains st (unchecked_days inp md syms prev dates st).
Proof.
  intros Hpos. revert prev st.
  induction dates as [|d rest IH]; intros prev st Hnz Hlast;
    cbn [unchecked_days price_gains] in *.
  - injection Hlast as <-. ring.
  - rewrite last_cons_cons in Hlast.
    destruct (day_step_balance inp md syms prev d (head rest) st Hpos Hnz)
      as [Hnz' Hb].
    rewrite (IH _ _ Hnz' Hlast), Hb. ring.
Qed.

Lemma open_portfolio_balance inp md syms d0 :
  positive_prices md →
  prices_nonzero (open_portfolio inp md syms d0)
  ∧ net_worth (open_portfolio inp md syms d0) = initial_investment inp
  ∧ ledger (open_portfolio inp md syms d0) = 0.
Proof.
  intros Hpos. unfold open_portfolio.
  set (st := mkState d0 (initial_investment inp) ∅ ∅ [] [] [] []).
  assert (Hnz : prices_nonzero (mark_to_market md syms d0 st))
    by by apply mark_to_market_nonzero.
  split; [|split].
  - eapply prices_nonzero_market; [apply same_books_market, deploy_books | done].
  - rewrite deploy_net_worth by done. unfold net_worth, mark_to_market.
    cbn [cash holdings last_price set_as_of set_last_price st].
    rewrite positions_value_empty. ring.
  - rewrite (ledger_books _ _ (deploy_books _ _ _ _ _)).
    unfold ledger, total_contributions, total_net_dividends, total_drip_fees,
      total_rebalancing_fees, total_rebalancing_taxes.
    cbn [contributions dividend_history rebalancing_history mark_to_market
         set_as_of set_last_price st fmap list_fmap].
    rewrite !sum_list_nil. ring.
Qed.
(** C1, as the engine behaves.  For every completed run over positive
    prices, final cash plus the sum over holdings of final shares times
    final price equals the initial investment, plus the contributions, plus
    the net dividends (reinvested or credited to cash alike), minus the DRIP
    and rebalancing fees, minus the rebalancing taxes, plus the
    mark-to-market gains (shares held at each previous close times the
    change of their price); exactly, in rational arithmetic. *)
Theorem conservation_of_value (inp : Input) (md : MarketData) (trace : list State) :
  positive_prices md →
  simulate inp md = inr trace →
  ∃ st, list.last trace = Some st
      ∧ cash st + positions_value (holdings st) (last_price st)
        = initial_investment inp + total_contributions st
          + total_net_dividends st
          - total_drip_fees st - total_rebalancing_fees st
          - total_rebalancing_taxes st
          + run_price_gains (reached_states inp md).
Proof.
  intros Hpos. unfold simulate, reached_states.
  destruct (validate inp); [done|].
  destruct (tradable inp md) as [|sym syms] eqn:Hsyms; [done|].
  destruct (run_dates inp md) as [|d0 rest]; [done|].
  destruct (check_invariants _ _); [done|].
  intros Hrun. apply run_days_sound in Hrun as [-> _].
  set (st0 := open_portfolio inp md (sym :: syms) d0).
  destruct (open_portfolio_balance inp md (sym :: syms) d0 Hpos)
    as (Hnz & Hw0 & Hl0). fold st0 in Hnz, Hw0, Hl0.
  set (trace := unchecked_days inp md (sym :: syms) None (d0 :: rest) st0).
  destruct (list.last trace) as [st|] eqn:Hlast.
  - exists st. split; [done|].
    assert (Hlast' : list.last (st0 :: trace) = Some st).
    { unfold trace in *. cbn [unchecked_days] in *. by rewrite last_cons_cons. }
    pose proof (unchecked_days_balance _ _ _ _ _ _ _ Hpos Hnz Hlast') as Hb.
    fold trace in Hb. rewrite Hw0, Hl0 in Hb.
    cbn [run_price_gains]. fold (net_worth st).
    replace (net_worth st) with (net_worth st - ledger st + ledger st) by ring.
    rewrite Hb. unfold ledger. ring.
  - exfalso. unfold trace in Hlast. cbn [unchecked_days] in Hlast.
    by apply last_None in Hlast.
Qed.

Lemma on_date_elem (series : list (Date * Qc)) (d : Date) (x : Qc) :
  Scenario.on_date series d = Some x → (d, x) ∈ series.
Proof.
  induction series as [|[d' x'] series IH]; cbn [Scenario.on_date]; [done|].
  case_decide as Hd.
  - intros [= <-]. subst d'. left.
  - intros H. right. by apply IH.
Qed.

Lemma by_symbol_elem (table : list (string * list (Date * Qc))) sym d (x : Qc) :
  Scenario.by_symbol table sym d = Some x →
  ∃ series, (sym, series) ∈ table ∧ (d, x) ∈ series.
Proof.
  induction table as [|[s series] table IH]; cbn [Scenario.by_symbol]; [done|].
  case_decide as Hs.
  - intros H. subst s. exists series. split; [left | by apply on_date_elem].
  - intros H. destruct (IH H) as (series' & ? & ?). exists series'.
    split; [by right | done].
Qed.

Lemma market_positive_prices : positive_prices Scenario.market.
Proof.
  intros sym d p Hp. cbn [price Scenario.market] in Hp.
  apply by_symbol_elem in Hp as (series & Hrow & Hd).
  assert (Hall : Forall (λ row : string * list (Date * Qc),
                           Forall (λ dx : Date * Qc, 0 < dx.2) row.2)
                        Scenario.prices).
  { apply (bool_decide_unpack _). by vm_compute. }
  rewrite list.Forall_forall in Hall. specialize (Hall _ Hrow). cbn [snd] in Hall.
  rewrite list.Forall_forall in Hall. by specialize (Hall _ Hd).
Qed.

Lemma conservation_of_value_witness :
  ∃ trace st,
    simulate Scenario.input Scenario.market = inr trace
    ∧ list.last trace = Some st
    ∧ net_worth st
      = frac 1000 1 + frac 300 1 + total_net_dividends st
        - total_drip_fees st - total_rebalancing_fees st
        - total_rebalancing_taxes st
        + run_price_gains (reached_states Scenario.input Scenario.market).
Proof.
  destruct (simulate Scenario.input Scenario.market) as [e|trace] eqn:Hrun.
  - exfalso. vm_compute in Hrun. discriminate.
  - destruct (conservation_of_value Scenario.input Scenario.market trace
                market_positive_prices Hrun) as (st & Hlast & Heq).
    exists trace, st. split; [done|]. split; [done|].
    unfold net_worth. rewrite Heq. f_equal. f_equal. f_equal. f_equal. f_equal.
    f_equal. vm_compute in Hrun. injection Hrun as <-.
    vm_compute in Hlast. injection Hlast as <-.
    apply Qc_is_canon. by vm_compute.
Defined.

(** C1, as the claim states it, fails: 1000 invested in one stock whose
    price rises from 100 to 150 and whose one dividend is reinvested ends
    worth 16650/11, while the worded right-hand side is still 1000. *)
Lemma conservation_as_worded_fails :
  ∃ trace st,
    simulate Scenario.buy_and_hold Scenario.market = inr trace
    ∧ list.last trace = Some st
    ∧ cash st + positions_value (holdings st) (last_price st) = frac 16650 11
    ∧ conserved_as_worded Scenario.buy_and_hold st = frac 1000 1
    ∧ cash st + positions_value (holdings st) (last_price st)
      ≠ conserved_as_worded Scenario.buy_and_hold st.
Proof.
  eexists _, _. split; [vm_compute; reflexivity|]. split; [reflexivity|].
  split; [apply Qc_is_canon; by vm_compute|].
  split; [apply Qc_is_canon; by vm_compute|].
  intros H. apply Qc_eq_this in H. by vm_compute in H.
Qed.
End conservation.

(** ** FIFO lots and capital-gains tax (claim C6) *)

Section capital_gains.
Import Calendar TaxCalc Engine.

Lemma fifo_match_fifo (lots : list TaxLot) (qty : Qc) :
  fifo lots (fifo_match lots qty).1 (fifo_match lots qty).2.
Proof.
  revert qty. induction lots as [|lot lots IH]; intros qty; cbn [fifo_match].
  - exists 0%nat. by left.
  - destruct (decide (qty ≤ 0)) as [Hq|Hq].
    { exists 0%nat. by left. }
    destruct (decide (lot_shares lot ≤ qty)) as [Hlot|Hlot].
    + specialize (IH (qty - lot_shares lot)).
      destruct (fifo_match lots (qty - lot_shares lot)) as [remaining matched].
      destruct IH as [n [[Hm Hr]|(lot' & q & Hn & Hq0 & Hq1 & Hm & Hr)]];
        cbn [fst snd] in *; exists (S n).
      * left. by rewrite Hm, Hr.
      * right. exists lot', q. by rewrite Hm, Hr.
    + exists 0%nat. right. exists lot, qty. cbn [fst snd].
      split_and!; try done.
      * by apply Qcnot_le_lt.
      * by apply Qcnot_le_lt.
Qed.

Lemma fifo_match_shares (lots : list TaxLot) (qty : Qc) :
  matched_shares (fifo_match lots qty).2 + total_shares (fifo_match lots qty).1
  = total_shares lots.
Proof.
  unfold matched_shares, total_shares. revert qty.
  induction lots as [|lot lots IH]; intros qty; cbn [fifo_match].
  - cbn [fst snd fmap list_fmap]. rewrite !sum_list_nil. ring.
  - destruct (decide (qty ≤ 0)).
    { cbn [fst snd fmap list_fmap]. rewrite sum_list_nil. ring. }
    destruct (decide (lot_shares lot ≤ qty)).
    + specialize (IH (qty - lot_shares lot)).
      destruct (fifo_match lots (qty - lot_shares lot)) as [remaining matched].
      cbn [fst snd] in *. rewrite !fmap_cons, !sum_list_cons.
      cbn [p_shares]. rewrite <- IH. ring.
    + cbn [fst snd]. rewrite !fmap_cons, !sum_list_cons, fmap_nil, sum_list_nil.
      cbn [p_shares lot_shares]. ring.
Qed.

Lemma total_shares_nonneg (lots : list TaxLot) :
  Forall (λ lot, 0 ≤ lot_shares lot) lots → 0 ≤ total_shares lots.
Proof.
  unfold total_shares. induction 1 as [|lot lots Hlot _ IH].
  - done.
  - rewrite fmap_cons, sum_list_cons. by apply Qcplus_nonneg_nonneg.
Qed.

(** What is asked for is matched in full when the queue holds enough. *)
Lemma fifo_match_all (lots : list TaxLot) (qty : Qc) :
  Forall (λ lot, 0 ≤ lot_shares lot) lots →
  0 ≤ qty → qty ≤ total_shares lots →
  matched_shares (fifo_match lots qty).2 = qty.
Proof.
  unfold matched_shares, total_shares. intros Hall. revert qty.
  induction Hall as [|lot lots Hlot Hall IH]; intros qty Hq0 Hq; cbn [fifo_match].
  - rewrite fmap_nil, sum_list_nil in *. by apply (anti_symm Qcle).
  - destruct (decide (qty ≤ 0)) as [Hz|_].
    { cbn [fst snd fmap list_fmap]. rewrite sum_list_nil. by apply (anti_symm Qcle). }
    rewrite fmap_cons, sum_list_cons in Hq.
    destruct (decide (lot_shares lot ≤ qty)) as [Hle|_].
    + specialize (IH (qty - lot_shares lot)).
      destruct (fifo_match lots (qty - lot_shares lot)) as [remaining matched].
      cbn [fst snd] in *. rewrite fmap_cons, sum_list_cons. cbn [p_shares].
      rewrite IH; [ring| |].
      * clear -Hle. qc_to_q. Lqa.lra.
      * clear -Hq. qc_to_q. Lqa.lra.
    + cbn [snd]. rewrite fmap_cons, sum_list_cons, fmap_nil, sum_list_nil.
      cbn [p_shares]. ring.
Qed.

Lemma classify_spec (sale : Date) (p : Portion) :
  holding_period sale p
  = (days_from_civil sale - days_from_civil (p_acquired p))%Z
  ∧ (classify sale p = ShortTerm ↔ (holding_period sale p ≤ 365)%Z)
  ∧ (classify sale p = LongTerm ↔ (365 < holding_period sale p)%Z).
Proof.
  split; [done|]. unfold classify.
  destruct (decide (holding_period sale p ≤ 365)%Z); split; split; try done; lia.
Qed.

Lemma Qcmax_spec (x y : Qc) :
  x ≤ Qcmax x y ∧ y ≤ Qcmax x y ∧ (Qcmax x y = x ∨ Qcmax x y = y).
Proof.
  unfold Qcmax. destruct (decide (x ≤ y)) as [H|H].
  - split_and!; [done|done|by right].
  - apply Qcnot_le_lt, Qclt_le_weak in H. split_and!; [done|done|by left].
Qed.

Lemma capital_gains_tax_spec (r : rates) (date : Date) (sales : list Sale) :
  let liability := sum_list (sale_liability r date <$> sales) in
  0 ≤ capital_gains_tax r date sales
  ∧ (0 ≤ liability → capital_gains_tax r date sales = liability)
  ∧ (liability ≤ 0 → capital_gains_tax r date sales = 0).
Proof.
  intros liability. unfold capital_gains_tax. fold liability.
  unfold Qcmax. destruct (decide (0 ≤ liability)) as [H|H].
  - split_and!; [done|done|]. intros H'. by apply (anti_symm Qcle).
  - split_and!; [done| |done]. intros H'. done.
Qed.
Lemma rebalance_records inp syms d (st : State) (r : rates) :
  tax inp = Some r →
  let sales := omap (plan_sale (weights inp) (net_worth st) st) syms in
  ∃ e, rebalancing_history (rebalance inp syms d st)
       = rebalancing_history st ++ [e]
     ∧ tax_payments (rebalance inp syms d st)
       = tax_payments st ++ [capital_gains_payment r d sales]
     ∧ re_date e = d
     ∧ re_taxes e = capital_gains_tax r d sales.
Proof.
  intros Htax sales. unfold rebalance. rewrite Htax. fold sales.
  set (st1 := foldl apply_sale st sales).
  assert (Hb1 : same_books st st1).
  { apply (foldl_preserves (same_books st)); [apply same_books_refl|].
    intros a b Ha. eapply same_books_trans; [exact Ha | apply apply_sale_books]. }
  set (st2 := set_cash _ st1).
  assert (Hb2 : same_books st st2) by done.
  set (purchases := _ <$> omap _ syms).
  set (st3 := foldl _ st2 purchases).
  assert (Hb3 : same_books st st3).
  { apply (foldl_preserves (same_books st)); [done|].
    intros a b Ha. eapply same_books_trans; [exact Ha | apply buy_books]. }
  destruct Hb3 as (_ & _ & _ & _ & Ht & Hr).
  eexists. cbn [rebalancing_history tax_payments record_tax record_rebalancing
                set_cash].
  rewrite Ht, Hr. split_and!; reflexivity.
Qed.

Lemma plan_sale_fifo W total (st : State) sym (s : Sale) :
  plan_sale W total st sym = Some s →
  ∃ h, holdings st !! sym = Some h
     ∧ s_symbol s = sym
     ∧ last_price st !! sym = Some (s_price s)
     ∧ s_portions s = (fifo_match (h_lots h) (s_shares s)).2.
Proof.
  unfold plan_sale.
  destruct (holdings st !! sym) as [h|]; [|done].
  destruct (last_price st !! sym) as [p|]; [|done].
  destruct (decide _); [|done].
  intros [= <-]. by exists h.
Qed.

End capital_gains.


(** ** Guards of the risk ratios (claim C7) *)

Section analytics.
Import Analytics.
Local Open Scope R_scope.

Lemma foldl_Rmin_le (l : list R) (a : R) : foldl Rmin a l <= a.
Proof.
  revert a. induction l as [|x l IH]; intros a; cbn [foldl].
  - Lra.lra.
  - etransitivity; [apply IH | apply Rmin_l].
Qed.

Lemma self_ratio_le (v : R) : v / v - 1 <= 0.
Proof.
  destruct (Req_dec_T v 0) as [->|Hv].
  - unfold Rdiv. rewrite Rmult_0_l. Lra.lra.
  - unfold Rdiv. rewrite Rinv_r by done. Lra.lra.
Qed.

Lemma max_drawdown_nonpos (values : list R) (m : R) :
  max_drawdown values = Some m → m <= 0.
Proof.
  unfold max_drawdown, drawdowns. destruct values as [|v0 rest]; [done|].
  cbn [drawdowns_from]. intros [= <-].
  etransitivity; [apply foldl_Rmin_le|].
  rewrite Rmax_left by Lra.lra. apply self_ratio_le.
Qed.

Lemma max_drawdown_defined (values : list R) :
  values ≠ [] → is_Some (max_drawdown values).
Proof.
  unfold max_drawdown, drawdowns. destruct values as [|v0 rest]; [done|].
  intros _. cbn [drawdowns_from]. by eexists.
Qed.

(** Over positive values no point of the series is above its running
    maximum. *)
Lemma drawdowns_from_nonpos (values : list R) (peak : R) :
  0 < peak → Forall (λ d, d <= 0) (drawdowns_from peak values).
Proof.
  revert peak. induction values as [|v rest IH]; intros peak Hpeak;
    cbn [drawdowns_from]; constructor.
  - assert (Hmax : 0 < Rmax peak v).
    { eapply Rlt_le_trans; [exact Hpeak | apply Rmax_l]. }
    assert (Hv : v <= Rmax peak v) by apply Rmax_r.
    assert (v / Rmax peak v <= 1); [|Lra.lra].
    apply (Rmult_le_reg_r (Rmax peak v)); [done|].
    unfold Rdiv. rewrite Rmult_assoc, Rinv_l by Lra.lra. Lra.lra.
  - apply IH. eapply Rlt_le_trans; [exact Hpeak | apply Rmax_l].
Qed.

Lemma sharpe_guarded (r : list R) (rf : R) :
  sharpe r rf ≠ DivisionFault ∧ (stdev r = 0 → sharpe r rf = Value 0).
Proof.
  unfold sharpe, divide. destruct (Req_dec_T (stdev r) 0) as [Hz|Hnz].
  - done.
  - split; [|done]. destruct (Req_dec_T (stdev r) 0); done.
Qed.

Lemma sortino_guarded (r : list R) (rf : R) :
  sortino r rf ≠ DivisionFault
  ∧ (stdev (downside r) = 0 → sortino r rf = Value 0).
Proof.
  unfold sortino, divide. destruct (Req_dec_T (stdev (downside r)) 0) as [Hz|Hnz].
  - done.
  - split; [|done]. destruct (Req_dec_T (stdev (downside r)) 0); done.
Qed.

Lemma calmar_guarded (cagr max_dd : R) :
  calmar cagr max_dd ≠ DivisionFault
  ∧ (max_dd = 0 → calmar cagr max_dd = Undefined).
Proof.
  unfold calmar, divide. destruct (Req_dec_T max_dd 0) as [Hz|Hnz].
  - done.
  - split; [|done]. destruct (Req_dec_T (Rabs max_dd) 0) as [Habs|]; [|done].
    exfalso. by apply Rabs_no_R0 in Hnz.
Qed.
Lemma total_cons (x : R) (l : list R) : total (x :: l) = x + total l.
Proof. reflexivity. Qed.

Lemma total_squares_nonneg (m : R) (l : list R) :
  0 <= total ((λ x, (x - m) * (x - m)) <$> l).
Proof.
  induction l as [|x l IH]; [cbn; Lra.lra|].
  rewrite fmap_cons, total_cons. pose proof (Rle_0_sqr (x - m)) as H.
  unfold Rsqr in H. Lra.lra.
Qed.

Lemma total_squares_zero (m : R) (l : list R) :
  total ((λ x, (x - m) * (x - m)) <$> l) = 0 → ∀ x, x ∈ l → x = m.
Proof.
  induction l as [|a l IH]; intros Hsum x Hx.
  - by apply elem_of_nil in Hx.
  - rewrite fmap_cons, total_cons in Hsum.
    pose proof (total_squares_nonneg m l) as Hl.
    pose proof (Rle_0_sqr (a - m)) as Ha. unfold Rsqr in Ha.
    assert (Ha0 : (a - m) * (a - m) = 0) by Lra.lra.
    apply elem_of_cons in Hx as [->|Hx].
    + apply Rmult_integral in Ha0. Lra.lra.
    + apply IH; [Lra.lra | done].
Qed.

Lemma total_squares_constant (m : R) (l : list R) :
  (∀ x, x ∈ l → x = m) → total ((λ x, (x - m) * (x - m)) <$> l) = 0.
Proof.
  induction l as [|a l IH]; intros Hall; [done|].
  rewrite fmap_cons, total_cons, IH.
  - rewrite (Hall a) by left. Lra.lra.
  - intros x Hx. apply Hall. by right.
Qed.

Lemma total_constant (c : R) (l : list R) :
  (∀ x, x ∈ l → x = c) → total l = INR (length l) * c.
Proof.
  induction l as [|a l IH]; intros Hall.
  - cbn. Lra.lra.
  - rewrite total_cons, IH, length_cons, S_INR.
    + rewrite (Hall a) by left. Lra.lra.
    + intros x Hx. apply Hall. by right.
Qed.

Lemma mean_constant (c : R) (l : list R) :
  l ≠ [] → (∀ x, x ∈ l → x = c) → mean l = c.
Proof.
  intros Hne Hall. unfold mean. rewrite (total_constant c) by done.
  field. apply not_0_INR. by destruct l.
Qed.

Lemma variance_constant (l : list R) : constant l → variance l = 0.
Proof.
  intros Hc. unfold variance.
  destruct l as [|c l'] eqn:Hl.
  - cbn. unfold Rdiv. by rewrite Rmult_0_l.
  - rewrite <- Hl in *.
    assert (Hall : ∀ x, x ∈ l → x = c).
    { intros x Hx. apply Hc; [done|]. rewrite Hl. left. }
    rewrite (mean_constant c) by (by subst l).
    rewrite total_squares_constant by done.
    unfold Rdiv. by rewrite Rmult_0_l.
Qed.

Lemma variance_zero_constant (l : list R) : variance l = 0 → constant l.
Proof.
  unfold variance. intros Hv.
  destruct l as [|a [|b l']].
  - intros x y Hx. by apply elem_of_nil in Hx.
  - intros x y Hx Hy. apply list_elem_of_singleton in Hx, Hy. congruence.
  - set (l := a :: b :: l') in *.
    assert (Hn : 0 < INR (length l) - 1).
    { unfold l. rewrite !length_cons, !S_INR. pose proof (pos_INR (length l')).
      Lra.lra. }
    assert (Hnum : total ((λ x, (x - mean l) * (x - mean l)) <$> l) = 0).
    { apply (Rmult_eq_reg_r (/ (INR (length l) - 1))).
      - unfold Rdiv in Hv. rewrite Hv. by rewrite Rmult_0_l.
      - apply Rinv_neq_0_compat. Lra.lra. }
    intros x y Hx Hy.
    rewrite (total_squares_zero _ _ Hnum x Hx), (total_squares_zero _ _ Hnum y Hy).
    done.
Qed.

Lemma variance_nonneg (l : list R) : 0 <= variance l.
Proof.
  unfold variance. destruct l as [|a [|b l']].
  - cbn. unfold Rdiv. rewrite Rmult_0_l. Lra.lra.
  - fold (variance [a]). rewrite variance_constant; [Lra.lra|].
    intros x y Hx Hy. apply list_elem_of_singleton in Hx, Hy. congruence.
  - set (l := a :: b :: l').
    apply Rmult_le_pos; [apply total_squares_nonneg|].
    apply Rlt_le, Rinv_0_lt_compat.
    unfold l. rewrite !length_cons, !S_INR. pose proof (pos_INR (length l')).
    Lra.lra.
Qed.

Lemma stdev_zero_iff (l : list R) : stdev l = 0 ↔ constant l.
Proof.
  unfold stdev. split.
  - intros H. apply variance_zero_constant, sqrt_eq_0; [apply variance_nonneg | done].
  - intros H. rewrite variance_constant by done. apply sqrt_0.
Qed.

Lemma downside_constant (r : list R) : constant r → constant (downside r).
Proof.
  intros Hc x y Hx Hy. unfold downside in *.
  apply list_elem_of_filter in Hx as [_ Hx], Hy as [_ Hy]. by apply Hc.
Qed.

Lemma downside_stdev_zero (r : list R) : stdev r = 0 → stdev (downside r) = 0.
Proof. rewrite !stdev_zero_iff. apply downside_constant. Qed.

(** C7.  The max drawdown of a completed run, and of any series that is
    not empty, exists and is at most 0; over positive values every drawdown
    is.
    Sharpe, Sortino and Calmar never end in a division fault: with a zero
    standard deviation of the daily returns Sharpe and Sortino are 0 (a
    zero deviation of all returns makes the downside deviation zero too),
    and with a zero max drawdown Calmar is undefined (null/NaN). *)
Theorem ratios_guarded :
  (∀ inp md b, Engine.run_backtest inp md = inr b →
     ∃ m, max_drawdown (value_path b) = Some m ∧ m <= 0)
  ∧ (∀ values, values ≠ [] → ∃ m, max_drawdown values = Some m ∧ m <= 0)
  ∧ (∀ values, Forall (λ v, 0 < v) values →
       Forall (λ d, d <= 0) (drawdowns values))
  ∧ (∀ r rf, sharpe r rf ≠ DivisionFault
             ∧ (stdev r = 0 → sharpe r rf = Value 0))
  ∧ (∀ r rf, sortino r rf ≠ DivisionFault
             ∧ (stdev r = 0 → sortino r rf = Value 0)
             ∧ (stdev (downside r) = 0 → sortino r rf = Value 0))
  ∧ (∀ cagr max_dd, calmar cagr max_dd ≠ DivisionFault
                    ∧ (max_dd = 0 → calmar cagr max_dd = Undefined)).
Proof.
  assert (Hdd : ∀ values, values ≠ [] →
                  ∃ m, max_drawdown values = Some m ∧ m <= 0).
  { intros values Hne. destruct (max_drawdown_defined values Hne) as [m Hm].
    exists m. split; [done|]. by eapply max_drawdown_nonpos. }
  split_and!.
  - intros inp md b Hrun. apply Hdd. unfold Engine.run_backtest in Hrun.
    destruct (Engine.simulate inp md) as [e|trace]; [done|].
    destruct (Engine.simulate _ md) as [e|no_drip]; [done|].
    unfold Engine.finalize in Hrun.
    destruct (list.last trace) as [st|] eqn:Hlast; [|done].
    injection Hrun as <-. unfold value_path, Engine.value_series.
    cbn [Engine.daily_values]. by destruct trace.
  - done.
  - intros values Hpos. unfold drawdowns. destruct Hpos as [|v0 rest Hv0 Hrest].
    + constructor.
    + by apply drawdowns_from_nonpos.
  - apply sharpe_guarded.
  - intros r rf. destruct (sortino_guarded r rf) as [Hf Hz].
    split_and!; [done| |done]. intros Hs. by apply Hz, downside_stdev_zero.
  - apply calmar_guarded.
Qed.
Lemma ratios_guarded_witness :
  (∃ m, max_drawdown [100; 110; 99] = Some m ∧ m <= 0)
  ∧ sharpe [1 / 100; 1 / 100] 0 = Value 0
  ∧ sortino [1 / 100; 1 / 100] 0 = Value 0
  ∧ calmar (1 / 10) 0 = Undefined.
Proof.
  destruct ratios_guarded as (_ & Hdd & _ & Hsharpe & Hsortino & Hcalmar).
  assert (Hflat : stdev [1 / 100; 1 / 100] = 0).
  { apply stdev_zero_iff. intros x y Hx Hy.
    apply elem_of_cons in Hx as [->|Hx], Hy as [->|Hy]; try done;
      repeat match goal with
             | H : _ ∈ [_] |- _ => apply list_elem_of_singleton in H; subst
             end; done. }
  split_and!.
  - apply Hdd. discriminate.
  - by apply Hsharpe.
  - by apply (proj1 (proj2 (Hsortino _ _))).
  - by apply Hcalmar.
Defined.
End analytics.

(* ===================================================================== *)
(** * The backtest page beyond the claims                                 *)
(* ===================================================================== *)

(** ** What every launched run satisfies *)

Section launch_contract.
Import Page.

Lemma weights_valid_empty : weights_valid ∅ = false.
Proof. by vm_compute. Qed.

Lemma selected_stocks_nil_iff (l : list string) : selected_stocks l = [] ↔ l = [].
Proof.
  split; [|by intros ->].
  intros H. destruct l; [done|]. by apply selected_stocks_nonempty in H.
Qed.

Lemma selected_stocks_prefix (l : list string) : selected_stocks l `prefix_of` l.
Proof.
  unfold selected_stocks. destruct (over_limit l); [|done].
  apply prefix_take.
Qed.

Lemma selected_stocks_within (l : list string) :
  (length l ≤ MAX_PORTFOLIO_STOCKS)%nat → selected_stocks l = l.
Proof.
  intros Hlen. unfold selected_stocks, over_limit.
  by rewrite bool_decide_eq_false_2 by lia.
Qed.

Lemma foldl_inl {E M A} (f : E + M → A → E + M) (k : E) (l : list A) :
  (∀ k x, f (inl k) x = inl k) → foldl f (inl k) l = inl k.
Proof.
  intros Hf. induction l as [|a l IH]; [done|]. cbn [foldl]. by rewrite Hf.
Qed.

Lemma yield_weights_dom (ys : list (string * Qc)) (stocks : list string)
    (m : gmap string Qc) :
  yield_weights ys stocks = inr m → dom m = list_to_set stocks.
Proof.
  unfold yield_weights.
  assert (H : ∀ m0 : gmap string Qc, foldl (λ acc stock,
           match acc with
           | inl k => inl k
           | inr m =>
               match yields_get ys stock with
               | Some y => inr (<[stock := y / total_yield ys]> m)
               | None => inl stock
               end
           end) (inr m0) stocks = inr m → dom m = dom m0 ∪ list_to_set stocks).
  { induction stocks as [|a stocks IH]; intros m1 Hm; cbn [foldl] in Hm.
    - inversion Hm. set_solver.
    - destruct (yields_get ys a).
      + apply IH in Hm. rewrite Hm, dom_insert_L. set_solver.
      + by rewrite foldl_inl in Hm. }
  intros Hm. apply H in Hm. set_solver.
Qed.

Lemma compute_weights_dom (w : widgets) (df : list row) notes
    (W : gmap string Qc) :
  compute_weights w df = (notes, inr W) →
  weights_valid W = true →
  dom W = list_to_set (selected_stocks (w_selected w)).
Proof.
  unfold compute_weights. intros H Hv.
  repeat case_decide; simplify_eq; try apply dict_comp_dom.
  - by eapply yield_weights_dom.
  - unfold sidebar_weights in *. destruct (is_custom _ _).
    + apply dict_comp_dom.
    + by rewrite weights_valid_empty in Hv.
Qed.

(** A launched run went through every test of the run block, and its
    arguments are the widget values. *)
Lemma script_launched (w : widgets) (df : list row) (l : launch) :
  (script w df).2 = Launched l →
  ∃ notes W, compute_weights w df = (notes, inr W)
    ∧ weights_valid W = true
    ∧ w_run_backtest w = true
    ∧ selected_stocks (w_selected w) ≠ []
    ∧ l = {| l_stocks := selected_stocks (w_selected w);
             l_weights := W;
             l_start_date := w_start_date w;
             l_end_date := w_end_date w;
             l_initial_investment := w_initial_investment w;
             l_monthly_contribution := w_monthly_contribution w;
             l_drip_enabled := w_drip_enabled w;
             l_drip_fee := drip_fee w;
             l_tax_config := tax_config_of w;
             l_rebalancing_frequency := w_rebalancing_frequency w;
             l_rebalancing_fee := rebalancing_fee w |}.
Proof.
  rewrite script_outcome. unfold on_run.
  destruct (w_run_backtest w); cbn [negb]; [|done].
  destruct (decide _) as [|Hlen]; [done|].
  destruct (compute_weights w df) as [notes [k|W]] eqn:Hcw; [done|].
  unfold validate_and_launch.
  destruct (weights_valid W) eqn:Hv; cbn [negb]; [|done].
  intros [= <-]. exists notes, W. split_and!; try done.
  intros Hnil. by rewrite Hnil in Hlen.
Qed.

(** X1. Whatever the widgets hold, a run that reaches the backtester was
    started by the button, carries between 1 and 20 symbols, which are the
    selection or its first 20 entries, and a weight mapping whose keys are
    exactly those symbols and whose values sum to 1 within the tolerance
    of the test at line 264. *)
Theorem launched_run_contract (w : widgets) (df : list row) (l : launch) :
  (script w df).2 = Launched l →
  w_run_backtest w = true
  ∧ l_stocks l = selected_stocks (w_selected w)
  ∧ l_stocks l `prefix_of` w_selected w
  ∧ (1 ≤ length (l_stocks l) ≤ MAX_PORTFOLIO_STOCKS)%nat
  ∧ dom (l_weights l) = list_to_set (l_stocks l)
  ∧ Qcabs (dict_sum (l_weights l) - 1) ≤ frac 1 100 + default_rtol.
Proof.
  intros Hl.
  apply script_launched in Hl as (notes & W & Hcw & Hv & Hrun & Hne & ->).
  cbn [l_stocks l_weights]. split_and!; try done.
  - apply selected_stocks_prefix.
  - destruct (selected_stocks (w_selected w)); [done|cbn; lia].
  - apply selected_stocks_length.
  - by eapply compute_weights_dom.
  - by apply weights_valid_iff.
Qed.

Lemma launched_run_contract_witness :
  ∃ l, (script Sample.widgets_too_many Sample.df).2 = Launched l
     ∧ length (l_stocks l) = 20%nat
     ∧ dom (l_weights l) = list_to_set (l_stocks l).
Proof.
  destruct (script Sample.widgets_too_many Sample.df).2 as [| | |l] eqn:Hl;
    try (by vm_compute in Hl).
  exists l. split; [done|].
  destruct (launched_run_contract _ _ _ Hl) as (_ & Hs & _ & _ & Hdom & _).
  split; [|done]. rewrite Hs. reflexivity.
Defined.

End launch_contract.

(** ** How the run block ends *)

Section run_block.
Import Page.

(** X2. With the button pressed, an empty selection ends the script with
    the request to select a stock (the message is modelled without its
    leading warning sign), whatever the allocation method and the other
    widgets hold, and nothing but the sidebar is shown; a non-empty
    selection never ends that way. *)
Theorem empty_selection_stops (w : widgets) (df : list row) :
  df ≠ [] →
  w_run_backtest w = true →
  (w_selected w = [] →
     script w df
     = (sidebar w, Stopped "Please select at least one stock to backtest."))
  ∧ (w_selected w ≠ [] →
     (script w df).2 ≠ Stopped "Please select at least one stock to backtest.").
Proof.
  intros _ Hrun. unfold script, on_run. rewrite Hrun. cbn [negb]. split.
  - intros Hsel. rewrite Hsel. change (selected_stocks []) with (@nil string).
    rewrite decide_True by done. by rewrite app_nil_r.
  - intros Hne. rewrite decide_False; last first.
    { intros Hz. apply Hne, selected_stocks_nil_iff.
      by destruct (selected_stocks (w_selected w)). }
    destruct (compute_weights w df) as [notes [k|W]]; [done|].
    cbn [snd]. unfold validate_and_launch. by destruct (weights_valid W).
Qed.

Lemma empty_selection_stops_witness :
  (script (with_selected [] Sample.widgets_custom) Sample.df).2
  = Stopped "Please select at least one stock to backtest.".
Proof.
  destruct (empty_selection_stops (with_selected [] Sample.widgets_custom)
              Sample.df) as [H _].
  - discriminate.
  - reflexivity.
  - rewrite H; reflexivity.
Defined.

(** X3. An allocation method other than the four the run block knows
    leaves the weights empty: with the button pressed and a non-empty
    selection the script stops with the weights message and shows nothing
    but the sidebar. *)
Theorem unknown_method_stops (w : widgets) (df : list row) :
  df ≠ [] →
  w_run_backtest w = true →
  w_selected w ≠ [] →
  w_allocation_method w ∉
    ["Equal Weight"; "Yield Weight"; "Market Cap Weight"; "Custom Weight"] →
  script w df
  = (sidebar w,
     Stopped "Weights must sum to 100%. Please adjust your custom weights.").
Proof.
  intros _ Hrun Hne Hm. unfold script, on_run, compute_weights. rewrite Hrun.
  cbn [negb]. rewrite decide_False; last first.
  { intros Hz. apply Hne, selected_stocks_nil_iff.
    by destruct (selected_stocks (w_selected w)). }
  rewrite !not_elem_of_cons in Hm. destruct Hm as (H1 & H2 & H3 & H4 & _).
  rewrite !decide_False by done.
  unfold sidebar_weights, is_custom. rewrite bool_decide_eq_false_2 by done.
  cbn [andb]. unfold validate_and_launch. rewrite weights_valid_empty.
  cbn [negb]. by rewrite app_nil_r.
Qed.

Lemma unknown_method_stops_witness :
  (script (with_method "Risk Parity" Sample.widgets_equal) Sample.df).2
  = Stopped "Weights must sum to 100%. Please adjust your custom weights.".
Proof.
  rewrite (unknown_method_stops (with_method "Risk Parity" Sample.widgets_equal)
             Sample.df).
  - reflexivity.
  - discriminate.
  - reflexivity.
  - discriminate.
  - apply (bool_decide_unpack _). by vm_compute.
Defined.

(** X4. Market Cap Weight is Equal Weight: the run ends exactly as it
    does under Equal Weight with the other widgets unchanged (the same
    launch arguments, the same stop), and a pressed run on a non-empty
    selection shows the notice that equal weights are used. *)
Theorem market_cap_uses_equal_weights (w : widgets) (df : list row) :
  df ≠ [] →
  w_allocation_method w = "Market Cap Weight" →
  (script w df).2 = (script (with_method "Equal Weight" w) df).2
  ∧ (w_run_backtest w = true → w_selected w ≠ [] →
     (script w df).1
     = sidebar w
       ++ [Info "Market cap weighting requires additional data. Using equal weights for now."]).
Proof.
  intros _ Hm. split.
  - rewrite !script_outcome. unfold on_run, compute_weights.
    cbn [with_method w_run_backtest w_selected w_allocation_method]. rewrite Hm.
    destruct (w_run_backtest w); cbn [negb]; [|done].
    destruct (decide _); [done|].
    rewrite decide_False by done. rewrite decide_False by done.
    rewrite decide_True by done. rewrite decide_True by done. done.
  - intros Hrun Hne. unfold script, on_run, compute_weights. rewrite Hrun, Hm.
    cbn [negb]. rewrite decide_False; last first.
    { intros Hz. apply Hne, selected_stocks_nil_iff.
      by destruct (selected_stocks (w_selected w)). }
    rewrite decide_False by done. rewrite decide_False by done.
    by rewrite decide_True by done.
Qed.

Lemma market_cap_uses_equal_weights_witness :
  ∃ l, (script (with_method "Market Cap Weight" Sample.widgets_equal)
          Sample.df).2 = Launched l
     ∧ l_weights l !! "KO" = Some (frac 1 3).
Proof.
  destruct (market_cap_uses_equal_weights
              (with_method "Market Cap Weight" Sample.widgets_equal) Sample.df)
    as [H _].
  - discriminate.
  - reflexivity.
  - rewrite H. eexists. split; [reflexivity|]. by vm_compute.
Defined.

(** X5. Under Custom Weight the sidebar's verdict on the sliders is the
    verdict of the run: both read the same mapping, so a pressed run on a
    non-empty selection is launched with the slider weights when the
    sidebar shows the success notice, and stops with the weights message
    when the sidebar shows the warning. *)
Theorem sidebar_predicts_run (w : widgets) (df : list row) :
  df ≠ [] →
  w_allocation_method w = "Custom Weight" →
  w_run_backtest w = true →
  w_selected w ≠ [] →
  let W := custom_weights (w_slider w) (selected_stocks (w_selected w)) in
  (SidebarSuccess (dict_sum W) ∈ (script w df).1
   ∧ (SidebarWarning (dict_sum W) ∉ (script w df).1)
   ∧ ∃ l, (script w df).2 = Launched l ∧ l_weights l = W)
  ∨ (SidebarWarning (dict_sum W) ∈ (script w df).1
     ∧ (SidebarSuccess (dict_sum W) ∉ (script w df).1)
     ∧ (script w df).2
       = Stopped "Weights must sum to 100%. Please adjust your custom weights.").
Proof.
  intros _ Hm Hrun Hne W.
  assert (Hlen : length (selected_stocks (w_selected w)) ≠ 0%nat).
  { intros Hz. apply Hne, selected_stocks_nil_iff.
    by destruct (selected_stocks (w_selected w)). }
  assert (Hc : is_custom (w_allocation_method w) (selected_stocks (w_selected w))
               = true).
  { unfold is_custom. rewrite Hm. rewrite bool_decide_eq_true_2 by done.
    rewrite bool_decide_eq_true_2 by lia. done. }
  assert (HW : sidebar_weights w = W).
  { unfold sidebar_weights. by rewrite Hc. }
  unfold script, on_run, compute_weights, sidebar. rewrite Hrun, Hc, HW, Hm.
  cbn [negb]. rewrite decide_False by done.
  rewrite !decide_False by done. unfold validate_and_launch.
  destruct (weights_valid W); cbn [negb fst snd].
  - left. split; [|split].
    + rewrite !elem_of_app. left. right. left. by apply list_elem_of_singleton.
    + rewrite app_nil_r. rewrite !elem_of_app.
      intros [H|[H|H]]; repeat case_match;
        repeat (apply elem_of_cons in H as [H|H]; [done|]);
        by apply elem_of_nil in H.
    + eexists. split; [reflexivity|done].
  - right. split; [|split; [|done]].
    + rewrite !elem_of_app. left. right. left. by apply list_elem_of_singleton.
    + rewrite app_nil_r. rewrite !elem_of_app.
      intros [H|[H|H]]; repeat case_match;
        repeat (apply elem_of_cons in H as [H|H]; [done|]);
        by apply elem_of_nil in H.
Qed.

Lemma sidebar_predicts_run_witness :
  SidebarWarning (frac 66 100) ∈ (script Sample.widgets_custom_bad Sample.df).1.
Proof.
  destruct (sidebar_predicts_run Sample.widgets_custom_bad Sample.df)
    as [(_ & _ & l & Hl & _)|(H & _ & _)].
  - discriminate.
  - reflexivity.
  - reflexivity.
  - discriminate.
  - by vm_compute in Hl.
  - replace (frac 66 100)
      with (dict_sum (custom_weights (w_slider Sample.widgets_custom_bad)
              (selected_stocks (w_selected Sample.widgets_custom_bad))));
      [exact H|apply Qc_is_canon; by vm_compute].
Defined.

End run_block.

(** ** Custom weights from the sliders *)

Section custom_sliders.
Import Page.

Lemma hundredths_within (k : Z) :
  Qcabs (Qc_of_Z k / Qc_of_Z 100 - 1) ≤ frac 1 100 + default_rtol
  ↔ (99 ≤ k ≤ 101)%Z.
Proof.
  assert (H99 : (this (Qc_of_Z 99) == 99)%Q) by reflexivity.
  assert (H100 : (this (Qc_of_Z 100) == 100)%Q) by reflexivity.
  assert (H101 : (this (Qc_of_Z 101) == 101)%Q) by reflexivity.
  assert (Hatol : (this (frac 1 100) == 1 # 100)%Q) by apply Qred_correct.
  assert (Hrtol : (this default_rtol == 1 # 100000)%Q) by apply Qred_correct.
  split.
  - intros Hnear. destruct (decide (99 ≤ k ≤ 101)%Z) as [|Hout]; [done|].
    exfalso. apply (Qcle_not_lt _ _ Hnear). apply hundredths_tolerance.
    apply Qcnot_le_lt. intros Hle.
    apply Qcabs_Qcle_condition in Hle as [Hlo Hhi].
    assert (Hx : (this (Qc_of_Z k) == 100 * (this (Qc_of_Z k) / 100))%Q) by field.
    assert (Hk : (k < 99 ∨ 101 < k)%Z) by lia. destruct Hk as [Hk|Hk].
    + apply Z2Qc_inj_lt in Hk. clear Hhi. qc_to_q.
      rewrite H99 in Hk. rewrite H100, Hatol in Hlo. Lqa.lra.
    + apply Z2Qc_inj_lt in Hk. clear Hlo. qc_to_q.
      rewrite H101 in Hk. rewrite H100, Hatol in Hhi. Lqa.lra.
  - intros [Hk1 Hk2].
    assert (Hx : (this (Qc_of_Z k) == 100 * (this (Qc_of_Z k) / 100))%Q) by field.
    apply (proj1 (Z2Qc_inj_le _ _)) in Hk1, Hk2.
    apply Qcabs_Qcle_condition.
    split; qc_to_q; rewrite H99 in Hk1; rewrite H101 in Hk2;
      rewrite H100, Hatol, Hrtol; Lqa.lra.
Qed.

Lemma custom_weights_valid_iff (slider : string → Z) (stocks : list string) :
  NoDup stocks →
  weights_valid (custom_weights slider stocks) = true
  ↔ (99 ≤ slider_total slider stocks ≤ 101)%Z.
Proof.
  intros Hnd. rewrite weights_valid_iff, custom_weights_sum by done.
  apply hundredths_within.
Qed.

Lemma custom_run_started (w : widgets) (df : list row) :
  w_allocation_method w = "Custom Weight" →
  w_run_backtest w = true →
  w_selected w ≠ [] →
  NoDup (w_selected w) →
  simulation_started (script w df).2 = true
  ↔ (99 ≤ slider_total (w_slider w) (selected_stocks (w_selected w)) ≤ 101)%Z.
Proof.
  intros Hm Hrun Hne Hnd.
  rewrite <- custom_weights_valid_iff by by apply selected_stocks_NoDup.
  assert (Hlen : length (selected_stocks (w_selected w)) ≠ 0%nat).
  { intros Hz. apply Hne, selected_stocks_nil_iff.
    by destruct (selected_stocks (w_selected w)). }
  rewrite script_outcome.
  unfold on_run, compute_weights, sidebar_weights, is_custom.
  rewrite Hrun, Hm. cbn [negb]. rewrite decide_False by done.
  rewrite !decide_False by done.
  rewrite bool_decide_eq_true_2 by done. rewrite bool_decide_eq_true_2 by lia.
  cbn [andb]. unfold validate_and_launch.
  by destruct (weights_valid _).
Qed.

(** X6. Under Custom Weight, a pressed run on a non-empty selection of
    distinct symbols reaches the backtester exactly when the slider
    percentages of the stocks add up to 99, 100 or 101; otherwise it
    stops with the weights message. *)
Theorem custom_weights_accepted_iff (w : widgets) (df : list row) :
  df ≠ [] →
  w_allocation_method w = "Custom Weight" →
  w_run_backtest w = true →
  w_selected w ≠ [] →
  NoDup (w_selected w) →
  (simulation_started (script w df).2 = true
   ↔ (99 ≤ slider_total (w_slider w) (selected_stocks (w_selected w))
      ≤ 101)%Z)
  ∧ (simulation_started (script w df).2 = false →
     (script w df).2
     = Stopped "Weights must sum to 100%. Please adjust your custom weights.").
Proof.
  intros _ Hm Hrun Hne Hnd. split; [by apply custom_run_started|].
  rewrite script_outcome. unfold on_run. rewrite Hrun. cbn [negb].
  rewrite decide_False; last first.
  { intros Hz. apply Hne, selected_stocks_nil_iff.
    by destruct (selected_stocks (w_selected w)). }
  unfold compute_weights. rewrite Hm. rewrite !decide_False by done.
  unfold validate_and_launch. by destruct (weights_valid _).
Qed.

Lemma custom_weights_accepted_iff_witness :
  simulation_started (script Sample.widgets_custom Sample.df).2 = true
  ∧ simulation_started (script Sample.widgets_custom_bad Sample.df).2 = false.
Proof.
  split.
  - destruct (custom_weights_accepted_iff Sample.widgets_custom Sample.df)
      as [H _].
    + discriminate.
    + reflexivity.
    + reflexivity.
    + discriminate.
    + apply (bool_decide_unpack _). by vm_compute.
    + apply H. by vm_compute.
  - reflexivity.
Defined.

Lemma slider_total_const (c : Z) (stocks : list string) :
  slider_total (λ _, c) stocks = (Z.of_nat (length stocks) * c)%Z.
Proof.
  unfold slider_total. induction stocks as [|a stocks IH]; [done|].
  rewrite fmap_cons. cbn [foldr length]. rewrite IH. lia.
Qed.

Lemma slider_total_ext (f g : string → Z) (stocks : list string) :
  (∀ s, s ∈ stocks → f s = g s) → slider_total f stocks = slider_total g stocks.
Proof.
  unfold slider_total. induction stocks as [|a stocks IH]; intros Hfg; [done|].
  rewrite !fmap_cons. cbn [foldr]. rewrite IH.
  - rewrite (Hfg a) by left. done.
  - intros s Hs. apply Hfg. by right.
Qed.

Lemma default_sliders_total (stocks : list string) :
  stocks ≠ [] →
  (99 ≤ slider_total (λ _, default_slider stocks) stocks ≤ 101)%Z
  ↔ (100 `mod` Z.of_nat (length stocks) ≤ 1)%Z.
Proof.
  intros Hne. rewrite slider_total_const. unfold default_slider.
  assert (Hn : (0 < Z.of_nat (length stocks))%Z)
    by (destruct stocks; [done|cbn; lia]).
  pose proof (Z.div_mod 100 (Z.of_nat (length stocks))) as Hdm.
  pose proof (Z.mod_pos_bound 100 (Z.of_nat (length stocks)) Hn) as Hb.
  lia.
Qed.

(** X7. With every slider left at the value it starts at,
    [100 // n] for [n] selected stocks, a Custom Weight run reaches the
    backtester exactly for 1, 2, 3, 4, 5, 9, 10, 11 or 20 stocks; for any
    other number up to the maximum the percentages add up to less than 99
    and the run stops with the weights message. *)
Theorem default_sliders_accepted_iff (w : widgets) (df : list row) :
  df ≠ [] →
  w_allocation_method w = "Custom Weight" →
  w_run_backtest w = true →
  w_selected w ≠ [] →
  NoDup (w_selected w) →
  (length (w_selected w) ≤ MAX_PORTFOLIO_STOCKS)%nat →
  (∀ s, s ∈ w_selected w → w_slider w s = default_slider (w_selected w)) →
  (simulation_started (script w df).2 = true
   ↔ length (w_selected w) ∈ [1; 2; 3; 4; 5; 9; 10; 11; 20]%nat)
  ∧ (simulation_started (script w df).2 = false →
     (script w df).2
     = Stopped "Weights must sum to 100%. Please adjust your custom weights.").
Proof.
  intros _ Hm Hrun Hne Hnd Hlen Hs. split; last first.
  { rewrite script_outcome. unfold on_run. rewrite Hrun. cbn [negb].
    rewrite decide_False; last first.
    { intros Hz. apply Hne, selected_stocks_nil_iff.
      by destruct (selected_stocks (w_selected w)). }
    unfold compute_weights. rewrite Hm. rewrite !decide_False by done.
    unfold validate_and_launch. by destruct (weights_valid _). }
  rewrite custom_run_started by done.
  rewrite selected_stocks_within by done.
  rewrite (slider_total_ext _ _ _ Hs).
  rewrite default_sliders_total by done.
  assert (Hpos : (1 ≤ length (w_selected w))%nat).
  { destruct (w_selected w); [done|cbn; lia]. }
  unfold MAX_PORTFOLIO_STOCKS in Hlen.
  generalize dependent (length (w_selected w)). intros n Hn1 Hn2.
  assert (Hcases : n ∈ seq 1 20).
  { apply elem_of_seq. lia. }
  clear Hn1 Hn2. revert n Hcases. apply (proj1 (list.Forall_forall _ _)).
  apply (bool_decide_unpack _). by vm_compute.
Qed.

Lemma default_sliders_accepted_iff_witness :
  simulation_started (script Sample.widgets_custom Sample.df).2 = true.
Proof.
  destruct (default_sliders_accepted_iff Sample.widgets_custom Sample.df)
    as [H _].
  - discriminate.
  - reflexivity.
  - reflexivity.
  - discriminate.
  - apply (bool_decide_unpack _). by vm_compute.
  - apply (bool_decide_unpack _). by vm_compute.
  - intros s _. reflexivity.
  - apply H. apply (bool_decide_unpack _). by vm_compute.
Defined.

End custom_sliders.

(** ** The ranges of the launch arguments *)

Section launch_ranges.
Import Page.

Lemma percent_range (x : Qc) (hi : Z) :
  0 ≤ x ≤ Qc_of_Z hi →
  0 ≤ x / Qc_of_Z 100 ∧ x / Qc_of_Z 100 ≤ Qc_of_Z hi / Qc_of_Z 100.
Proof.
  intros [Hlo Hhi].
  assert (H100 : (this (Qc_of_Z 100) == 100)%Q) by reflexivity.
  assert (Hx : (this x == 100 * (this x / 100))%Q) by field.
  assert (Hh : (this (Qc_of_Z hi) == 100 * (this (Qc_of_Z hi) / 100))%Q) by field.
  split; qc_to_q; rewrite H100; Lqa.lra.
Qed.

(** X8. With the widget values inside the ranges the widgets are declared
    with, every launched run has an initial investment of at least 1000,
    a non-negative monthly contribution, a DRIP fee between 0 and 5%
    that is 0 when DRIP is off, a rebalancing fee between 0 and 2% that is
    0 under "No Rebalancing", and a tax configuration that is absent
    exactly when the tax box is unticked and otherwise holds three rates
    between 0 and 50%, all as fractions. *)
Theorem launched_amounts_in_range (w : widgets) (df : list row) (l : launch) :
  within_bounds w →
  (script w df).2 = Launched l →
  (1000 ≤ l_initial_investment l ≤ 10000000)%Z
  ∧ (0 ≤ l_monthly_contribution l ≤ 100000)%Z
  ∧ 0 ≤ l_drip_fee l ≤ frac 5 100
  ∧ (l_drip_enabled l = false → l_drip_fee l = 0)
  ∧ 0 ≤ l_rebalancing_fee l ≤ frac 2 100
  ∧ (l_rebalancing_frequency l = "No Rebalancing" → l_rebalancing_fee l = 0)
  ∧ (w_tax_enabled w = false → l_tax_config l = None)
  ∧ (∀ c, l_tax_config l = Some c →
       w_tax_enabled w = true
       ∧ 0 ≤ qualified_dividend_rate c ≤ frac 1 2
       ∧ 0 ≤ ordinary_dividend_rate c ≤ frac 1 2
       ∧ 0 ≤ long_term_capital_gains_rate c ≤ frac 1 2).
Proof.
  intros Hb Hl. apply script_launched in Hl as (notes & W & _ & _ & _ & _ & ->).
  destruct Hb as [_ Hi Hmo Hd Hq Ho Hlt Hr].
  cbn [l_initial_investment l_monthly_contribution l_drip_fee l_drip_enabled
       l_rebalancing_fee l_rebalancing_frequency l_tax_config].
  apply percent_range in Hd, Hq, Ho, Hlt, Hr.
  replace (Qc_of_Z 5 / Qc_of_Z 100) with (frac 5 100) in Hd
    by (apply Qc_is_canon; reflexivity).
  replace (Qc_of_Z 2 / Qc_of_Z 100) with (frac 2 100) in Hr
    by (apply Qc_is_canon; reflexivity).
  replace (Qc_of_Z 50 / Qc_of_Z 100) with (frac 1 2) in Hq, Ho, Hlt
    by (apply Qc_is_canon; reflexivity).
  split; [done|]. split; [done|].
  split; [unfold drip_fee; destruct (w_drip_enabled w); [done|by vm_compute]|].
  split; [unfold drip_fee; by intros ->|].
  split; [unfold rebalancing_fee; case_decide; [by vm_compute|done]|].
  split; [unfold rebalancing_fee; intros Hf; by rewrite decide_True|].
  split; [unfold tax_config_of; by intros ->|].
  unfold tax_config_of. intros c. destruct (w_tax_enabled w); [|done].
  intros [= <-]. cbn [qualified_dividend_rate ordinary_dividend_rate
                      long_term_capital_gains_rate]. done.
Qed.

Lemma launched_amounts_in_range_witness :
  ∃ l, (script Scenario.widgets Scenario.df).2 = Launched l
     ∧ 0 ≤ l_drip_fee l ≤ frac 5 100
     ∧ 0 ≤ l_rebalancing_fee l ≤ frac 2 100.
Proof.
  destruct (script Scenario.widgets Scenario.df).2 as [| | |l] eqn:Hl;
    try (by vm_compute in Hl).
  exists l. split; [done|].
  destruct (launched_amounts_in_range Scenario.widgets Scenario.df l)
    as (_ & _ & Hd & _ & Hr & _).
  - split; try (intros; split; apply (bool_decide_unpack _); by vm_compute).
  - exact Hl.
  - split; [exact Hd|exact Hr].
Defined.

End launch_ranges.

(** ** The weights as fractions *)

Section unit_interval.
Import Page.

Lemma sum_list_nonneg (l : list Qc) : Forall (λ x, 0 ≤ x) l → 0 ≤ sum_list l.
Proof.
  induction 1 as [|x l Hx _ IH]; [by vm_compute|].
  rewrite sum_list_cons. qc_to_q. Lqa.lra.
Qed.

Lemma sum_list_elem_le (l : list Qc) (x : Qc) :
  Forall (λ x, 0 ≤ x) l → x ∈ l → x ≤ sum_list l.
Proof.
  intros Hall Hin.
  induction Hall as [|y l Hy Hall IH]; [by apply elem_of_nil in Hin|].
  rewrite sum_list_cons. apply elem_of_cons in Hin as [->|Hin].
  - apply sum_list_nonneg in Hall. qc_to_q. Lqa.lra.
  - apply IH in Hin. qc_to_q. Lqa.lra.
Qed.

Lemma div_yield_elem (df : list row) (s : string) (y : Qc) :
  div_yield df s = Some y → ∃ r, r ∈ df ∧ Div_Yield r = Some y.
Proof.
  induction df as [|r df IH]; [done|]. cbn [div_yield].
  destruct (decide (Symbol r = s)).
  - intros H. exists r. split; [by left|done].
  - intros H. apply IH in H as (r' & Hr' & Hy). exists r'. split; [by right|done].
Qed.

Lemma unit_fraction (n : nat) :
  n ≠ 0%nat → 0 ≤ 1 / Qc_of_nat n ∧ 1 / Qc_of_nat n ≤ 1.
Proof.
  intros Hn.
  assert (H1 : Qc_of_Z 1 ≤ Qc_of_nat n).
  { unfold Qc_of_nat. apply (proj1 (Z2Qc_inj_le _ _)). lia. }
  assert (Hone : (this (Qc_of_Z 1) == 1)%Q) by reflexivity.
  assert (Hq : (0 < this (Qc_of_nat n))%Q).
  { qc_to_q. rewrite Hone in H1. Lqa.lra. }
  assert (Hinv : (0 < / this (Qc_of_nat n))%Q) by by apply Qinv_lt_0_compat.
  assert (Hmul : (this (Qc_of_nat n) * / this (Qc_of_nat n) == 1)%Q).
  { apply Qmult_inv_r. intros Hz. rewrite Hz in Hq. Lqa.lra. }
  split; qc_to_q; rewrite Hone in H1; unfold Qdiv; Lqa.nra.
Qed.

Lemma slider_fraction (k : Z) :
  (0 ≤ k ≤ 100)%Z →
  0 ≤ Qc_of_Z k / Qc_of_Z 100 ∧ Qc_of_Z k / Qc_of_Z 100 ≤ 1.
Proof.
  intros [Hlo Hhi]. apply (proj1 (Z2Qc_inj_le _ _)) in Hlo, Hhi.
  assert (H0 : (this (Qc_of_Z 0) == 0)%Q) by reflexivity.
  assert (H100 : (this (Qc_of_Z 100) == 100)%Q) by reflexivity.
  assert (Hx : (this (Qc_of_Z k) == 100 * (this (Qc_of_Z k) / 100))%Q) by field.
  split; qc_to_q; rewrite H0 in Hlo; rewrite H100 in *; Lqa.lra.
Qed.

Lemma yield_fraction (y total : Qc) :
  0 ≤ y → y ≤ total → 0 < total → 0 ≤ y / total ∧ y / total ≤ 1.
Proof.
  intros Hy Hle Hpos.
  assert (Hinv : (0 < / this total)%Q).
  { apply Qinv_lt_0_compat. by qc_to_q. }
  assert (Hmul : (this total * / this total == 1)%Q).
  { apply Qmult_inv_r. intros Hz. qc_to_q. rewrite Hz in Hpos. Lqa.lra. }
  split; qc_to_q; unfold Qdiv; Lqa.nra.
Qed.

(** X9. Every weight handed to the backtester is a fraction between 0
    and 1, under each allocation method: for a selection of distinct
    symbols of the dataframe (one row per symbol, no negative yield) and
    sliders within 0..100. *)
Theorem launched_weights_in_unit_interval (w : widgets) (df : list row)
    (l : launch) :
  (∀ s, 0 ≤ w_slider w s ≤ 100)%Z →
  NoDup (w_selected w) →
  NoDup (Symbol <$> df) →
  (∀ s, s ∈ w_selected w → s ∈ Symbol <$> df) →
  (∀ r y, r ∈ df → Div_Yield r = Some y → 0 ≤ y) →
  (script w df).2 = Launched l →
  ∀ s x, l_weights l !! s = Some x → 0 ≤ x ∧ x ≤ 1.
Proof.
  intros Hsl Hnd Hdf Hsub Hy Hl.
  set (stocks := selected_stocks (w_selected w)).
  assert (Hnd' : NoDup stocks) by by apply selected_stocks_NoDup.
  assert (Hsub' : ∀ s, s ∈ stocks → s ∈ Symbol <$> df).
  { intros s Hs. by apply Hsub, selected_stocks_elem. }
  assert (Hyz : ∀ s, 0 ≤ yield_or_zero df s).
  { intros s. unfold yield_or_zero. destruct (div_yield df s) as [y|] eqn:Hd.
    - apply div_yield_elem in Hd as (r & Hr & Hry). cbn [default]. by eapply Hy.
    - by vm_compute. }
  revert Hl. rewrite script_outcome. unfold on_run.
  destruct (w_run_backtest w); cbn [negb]; [|done]. fold stocks.
  destruct (decide _) as [|Hlen]; [done|].
  assert (Heq : ∀ s x, equal_weights stocks !! s = Some x → 0 ≤ x ∧ x ≤ 1).
  { intros s x. unfold equal_weights. rewrite dict_comp_lookup.
    case_decide; [|done]. intros [= <-]. by apply unit_fraction. }
  unfold compute_weights, sidebar_weights. fold stocks.
  destruct (decide (w_allocation_method w = "Equal Weight")).
  { unfold validate_and_launch. destruct (weights_valid _); cbn [negb]; [|done].
    intros [= <-]. apply Heq. }
  destruct (decide (w_allocation_method w = "Yield Weight")).
  { destruct (decide (0 < total_yield (yields df stocks))) as [Hpos|].
    - rewrite (yield_weights_found _ _ (yield_or_zero df)); last first.
      { intros s Hs. apply yields_get_selected; auto. }
      unfold validate_and_launch. destruct (weights_valid _); cbn [negb]; [|done].
      intros [= <-] s x. cbn [l_weights]. rewrite dict_comp_lookup.
      case_decide as Hs; [|done]. intros [= <-].
      apply yield_fraction; [done| |done].
      rewrite total_yield_selected by done.
      apply sum_list_elem_le.
      + apply list.Forall_forall. intros z Hz.
        apply list_elem_of_fmap in Hz as (s' & -> & _). apply Hyz.
      + apply list_elem_of_fmap. eauto.
    - unfold validate_and_launch. destruct (weights_valid _); cbn [negb]; [|done].
      intros [= <-]. apply Heq. }
  destruct (decide (w_allocation_method w = "Market Cap Weight")).
  { unfold validate_and_launch. destruct (weights_valid _); cbn [negb]; [|done].
    intros [= <-]. apply Heq. }
  unfold validate_and_launch. destruct (weights_valid _); cbn [negb]; [|done].
  intros [= <-] s x. cbn [l_weights]. destruct (is_custom _ _); [|done].
  unfold custom_weights. rewrite dict_comp_lookup. case_decide; [|done].
  intros [= <-]. by apply slider_fraction.
Qed.

Lemma launched_weights_in_unit_interval_witness :
  ∃ l, (script Sample.widgets_yield Sample.df).2 = Launched l
     ∧ ∀ s x, l_weights l !! s = Some x → 0 ≤ x ∧ x ≤ 1.
Proof.
  destruct (script Sample.widgets_yield Sample.df).2 as [| | |l] eqn:Hl;
    try (by vm_compute in Hl).
  exists l. split; [reflexivity|].
  apply (launched_weights_in_unit_interval Sample.widgets_yield Sample.df l).
  - intros s. change (w_slider Sample.widgets_yield s) with 33%Z. lia.
  - apply (bool_decide_unpack _). by vm_compute.
  - apply (bool_decide_unpack _). by vm_compute.
  - apply (proj1 (list.Forall_forall (λ s, s ∈ Symbol <$> Sample.df) _)).
    apply (bool_decide_unpack _). by vm_compute.
  - intros r y Hr. revert r Hr y.
    apply (proj1 (list.Forall_forall
                    (λ r, ∀ y, Div_Yield r = Some y → 0 ≤ y) _)).
    repeat (apply list.Forall_cons; split;
              [intros y [= <-]; by vm_compute|]).
    apply list.Forall_nil. exact I.
  - exact Hl.
Defined.

End unit_interval.

(** ** Yield weights: a missing row, the order of the selection *)

Section yield_edge.
Import Page.

Lemma yields_get_None (ys : list (string * Qc)) (s : string) :
  s ∉ ys.*1 → yields_get ys s = None.
Proof.
  induction ys as [|[s' y] ys IH]; [done|]. cbn [yields_get fmap list_fmap fst].
  rewrite not_elem_of_cons. intros [Hne Hnin].
  rewrite decide_False by done. by apply IH.
Qed.

Lemma yields_fst (df : list row) (stocks : list string) :
  (yields df stocks).*1 = Symbol <$> filter (λ r, Symbol r ∈ stocks) df.
Proof. unfold yields. rewrite <- list_fmap_compose. done. Qed.

Lemma yields_get_absent (df : list row) (stocks : list string) (s : string) :
  s ∉ Symbol <$> df → yields_get (yields df stocks) s = None.
Proof.
  intros Hnin. apply yields_get_None. rewrite yields_fst.
  intros Hin. apply Hnin. apply list_elem_of_fmap in Hin as (r & -> & Hr).
  apply list_elem_of_filter in Hr as [_ Hr]. apply list_elem_of_fmap. eauto.
Qed.

Lemma yield_weights_app (ys : list (string * Qc)) (pre post : list string) :
  yield_weights ys (pre ++ post)
  = foldl (λ acc stock,
             match acc with
             | inl k => inl k
             | inr m =>
                 match yields_get ys stock with
                 | Some y => inr (<[stock := y / total_yield ys]> m)
                 | None => inl stock
                 end
             end) (yield_weights ys pre) post.
Proof. unfold yield_weights. by rewrite foldl_app. Qed.

(** X10. Under Yield Weight with a positive yield total, a selected
    stock without a row in the dataframe makes the lookup [yields[stock]]
    raise: the run block ends in a [KeyError] for the first such stock in
    selection order, and the backtester is not reached. *)
Theorem yield_weight_missing_row (w : widgets) (df : list row)
    (pre post : list string) (k : string) :
  w_allocation_method w = "Yield Weight" →
  w_run_backtest w = true →
  0 < total_yield (yields df (selected_stocks (w_selected w))) →
  selected_stocks (w_selected w) = pre ++ k :: post →
  (∀ s, s ∈ pre → s ∈ Symbol <$> df) →
  k ∉ Symbol <$> df →
  (script w df).2 = KeyError k
  ∧ simulation_started (script w df).2 = false.
Proof.
  intros Hm Hrun Hpos Hsel Hpre Hk.
  assert (Hout : (script w df).2 = KeyError k); [|by rewrite Hout].
  rewrite script_outcome. unfold on_run, compute_weights. rewrite Hrun, Hm.
  cbn [negb]. rewrite decide_False; last first.
  { rewrite Hsel, length_app. cbn. lia. }
  rewrite decide_False by done. rewrite decide_True by done.
  rewrite decide_True by done.
  set (ys := yields df (selected_stocks (w_selected w))).
  rewrite Hsel. rewrite yield_weights_app.
  rewrite (yield_weights_found _ _ (yield_or_zero df)); last first.
  { intros s Hs. apply yields_get_selected; [|by apply Hpre].
    rewrite Hsel. apply elem_of_app. by left. }
  cbn [foldl].
  assert (Hnone : yields_get ys k = None) by by apply yields_get_absent.
  rewrite Hnone. by rewrite foldl_inl.
Qed.

Lemma yield_weight_missing_row_witness :
  (script (with_selected ["JNJ"; "XYZ"; "PG"] Sample.widgets_yield)
     Sample.df).2 = KeyError "XYZ".
Proof.
  apply (yield_weight_missing_row
           (with_selected ["JNJ"; "XYZ"; "PG"] Sample.widgets_yield)
           Sample.df ["JNJ"] ["PG"] "XYZ").
  - reflexivity.
  - reflexivity.
  - by vm_compute.
  - reflexivity.
  - apply (proj1 (list.Forall_forall (λ s, s ∈ Symbol <$> Sample.df) _)).
    apply (bool_decide_unpack _). by vm_compute.
  - apply (bool_decide_unpack _). by vm_compute.
Defined.

End yield_edge.

Section selection_order.
Import Page.

Lemma dict_comp_perm {V} (f : string → V) (l l' : list string) :
  l ≡ₚ l' → dict_comp f l = dict_comp f l'.
Proof.
  intros Hp. apply map_eq. intros k. rewrite !dict_comp_lookup.
  destruct (decide (k ∈ l)) as [Hin|Hnin].
  - rewrite decide_True; [done|]. by rewrite <- Hp.
  - rewrite decide_False; [done|]. by rewrite <- Hp.
Qed.

Lemma yields_perm (df : list row) (l l' : list string) :
  l ≡ₚ l' → yields df l = yields df l'.
Proof.
  intros Hp. unfold yields. f_equal. apply list_filter_iff.
  intros r. by rewrite Hp.
Qed.

(** X12. The weights do not depend on the order in which the stocks were
    picked: for a selection of at most 20 symbols of the dataframe (one
    row per symbol), any reordering of the selection gives the same
    weight mapping and the same notices under every allocation method,
    and the run reaches the backtester for the one exactly when it does
    for the other. *)
Theorem weights_order_independent (w : widgets) (df : list row)
    (stocks' : list string) :
  w_selected w ≡ₚ stocks' →
  (length (w_selected w) ≤ MAX_PORTFOLIO_STOCKS)%nat →
  NoDup (Symbol <$> df) →
  (∀ s, s ∈ w_selected w → s ∈ Symbol <$> df) →
  compute_weights (with_selected stocks' w) df = compute_weights w df
  ∧ simulation_started (script (with_selected stocks' w) df).2
    = simulation_started (script w df).2.
Proof.
  intros Hp Hlen _ Hsub.
  assert (Hlen' : (length stocks' ≤ MAX_PORTFOLIO_STOCKS)%nat) by by rewrite <- Hp.
  assert (Hcw : compute_weights (with_selected stocks' w) df = compute_weights w df).
  { unfold compute_weights, sidebar_weights, is_custom, equal_weights, custom_weights.
    cbn [with_selected w_selected w_allocation_method w_slider].
    rewrite !selected_stocks_within by done.
    rewrite <- (yields_perm df _ _ Hp).
    rewrite <- (Permutation_length Hp).
    repeat case_decide; try done.
    - by rewrite (dict_comp_perm _ _ _ Hp).
    - f_equal.
      rewrite !(yield_weights_found _ _ (yield_or_zero df)).
      + by rewrite (dict_comp_perm _ _ _ Hp).
      + intros s Hs. apply yields_get_selected; auto.
      + intros s Hs. rewrite <- Hp in Hs. apply yields_get_selected; auto.
    - by rewrite (dict_comp_perm _ _ _ Hp).
    - by rewrite (dict_comp_perm _ _ _ Hp).
    - destruct (bool_decide _ && bool_decide _); [|done].
      by rewrite (dict_comp_perm _ _ _ Hp). }
  split; [done|].
  rewrite !script_outcome. unfold on_run. rewrite Hcw.
  cbn [with_selected w_selected w_run_backtest].
  rewrite !selected_stocks_within by done. rewrite <- (Permutation_length Hp).
  destruct (w_run_backtest w); cbn [negb]; [|done].
  destruct (decide _); [done|].
  destruct (compute_weights w df) as [notes [k|W]]; [done|].
  unfold validate_and_launch. by destruct (weights_valid W).
Qed.

Lemma weights_order_independent_witness :
  compute_weights (with_selected ["MMM"; "JNJ"; "PG"] Sample.widgets_yield)
    Sample.df
  = compute_weights Sample.widgets_yield Sample.df.
Proof.
  apply (weights_order_independent Sample.widgets_yield Sample.df
           ["MMM"; "JNJ"; "PG"]).
  - apply perm_swap.
  - cbn. unfold MAX_PORTFOLIO_STOCKS. lia.
  - apply (bool_decide_unpack _). by vm_compute.
  - apply (proj1 (list.Forall_forall (λ s, s ∈ Symbol <$> Sample.df) _)).
    apply (bool_decide_unpack _). by vm_compute.
Defined.

End selection_order.

(** ** Stored results *)

Section stored_results.
Import Page Results.

Context {results : Type}.

Lemma from_one_of_mono (es es' : list (execution results))
    (s : session results) :
  es ⊆ es' → from_one_of es s → from_one_of es' s.
Proof.
  intros Hsub [->|(e & r & p & He & Hp & ->)]; [by left|].
  right. exists e, r, p. split; [by apply Hsub|done].
Qed.

Lemma execute_from_one_of (es : list (execution results))
    (e : execution results) (s : session results) :
  from_one_of es s →
  from_one_of (es ++ [e]) (execute e s).1
  ∧ ∀ r, (execute e s).2 = Displayed r →
      ∃ e' p, e' ∈ es ++ [e] ∧ produced_by e' r p.
Proof.
  intros Hs.
  assert (Hs' : from_one_of (es ++ [e]) s).
  { eapply from_one_of_mono; [|exact Hs].
    intros x Hx. apply elem_of_app. by left. }
  assert (Hdisp : ∀ r, display s = Displayed r →
            ∃ e' p, e' ∈ es ++ [e] ∧ produced_by e' r p).
  { intros r. unfold display.
    destruct Hs' as [->|(e' & r' & p & He' & Hp & ->)];
      cbn [backtest_results]; [done|].
    intros [= <-]. by exists e', p. }
  unfold execute. destruct (df_of e) as [|row0 df'] eqn:Hdf; [done|].
  destruct ((script (widgets_of e) (row0 :: df')).2) as [| | |l] eqn:Hl;
    cbn [fst snd]; try (split; [done|]; try done).
  destruct (backtester e l) as [r|] eqn:Hr; cbn [fst snd].
  - assert (Hprod : produced_by e r (backtest_params (widgets_of e) l)).
    { exists l. rewrite Hdf. done. }
    assert (He : e ∈ es ++ [e]).
    { apply elem_of_app. right. by apply list_elem_of_singleton. }
    split.
    + right. eexists e, r, _. split; [done|]. split; [exact Hprod|done].
    + unfold display. cbn [backtest_results]. intros r' [= <-].
      eexists e, _. split; [done|exact Hprod].
  - split; [done|]. done.
Qed.

Lemma executions_from_one_of (before es : list (execution results))
    (s : session results) :
  from_one_of before s →
  from_one_of (before ++ es) (executions es s).1
  ∧ ∀ r, Displayed r ∈ (executions es s).2 →
      ∃ e p, e ∈ before ++ es ∧ produced_by e r p.
Proof.
  revert before s. induction es as [|e es IH]; intros before s Hs.
  - cbn [executions fst snd]. rewrite app_nil_r. split; [done|]. intros r Hr.
    by apply elem_of_nil in Hr.
  - cbn [executions].
    destruct (execute_from_one_of before e s Hs) as [Hs1 Hv].
    destruct (execute e s) as [s' v]. cbn [fst snd] in *.
    destruct (IH (before ++ [e]) s' Hs1) as [Hs2 Hvs].
    destruct (executions es s') as [s'' vs]. cbn [fst snd] in *.
    rewrite <- app_assoc in Hs2, Hvs. cbn [app] in Hs2, Hvs.
    split; [done|]. intros r Hr. apply elem_of_cons in Hr as [Heq|Hr].
    + symmetry in Heq. destruct (Hv r Heq) as (e' & p & He' & Hp).
      exists e', p. split; [|done].
      apply elem_of_app in He' as [He'|He'].
      * apply elem_of_app. by left.
      * apply list_elem_of_singleton in He' as ->.
        apply elem_of_app. right. by left.
    + by apply Hvs.
Qed.

(** X20. Over any number of executions of the page in a browser session
    that starts without state: the results and the parameters in the
    session are both absent, or were written together by one execution
    whose run passed the page's validation and whose backtester calls
    returned; and every result the page displays, on the execution that
    computed it or on a later one, is such a result.  An execution
    without dataframe, or whose run stops or fails, stores nothing and
    displays nothing. *)
Theorem displayed_results_provenance (es : list (execution results)) :
  let s := (executions es (mkSession None None)).1 in
  let views := (executions es (mkSession None None)).2 in
  (backtest_results s = None ∧ stored_params s = None
   ∨ ∃ e r p, e ∈ es ∧ produced_by e r p
            ∧ backtest_results s = Some r
            ∧ stored_params s = Some p)
  ∧ (∀ r, Displayed r ∈ views → ∃ e p, e ∈ es ∧ produced_by e r p)
  ∧ (∀ (e : execution results) (s0 : session results),
       df_of e = []
       ∨ (script (widgets_of e) (df_of e)).2 ≠ NotRun
         ∧ (∀ l, (script (widgets_of e) (df_of e)).2 = Launched l →
                 backtester e l = None) →
       execute e s0 = (s0, Halted)).
Proof.
  intros s views.
  destruct (executions_from_one_of [] es (mkSession None None))
    as [Hs Hv]; [by left|].
  cbn [app] in Hs, Hv. split; [|split; [exact Hv|]].
  - destruct Hs as [Hs|(e & r & p & He & Hp & Hs)].
    + left. unfold s. by rewrite Hs.
    + right. exists e, r, p. unfold s. by rewrite Hs.
  - intros e s0 Hhalt. unfold execute.
    destruct (df_of e) as [|row0 df']; [done|].
    destruct Hhalt as [|[Hrun Hfail]]; [done|].
    destruct ((script (widgets_of e) (row0 :: df')).2) as [| | |l]; try done.
    by rewrite (Hfail l eq_refl).
Qed.

End stored_results.

(* ===================================================================== *)
(** * The home page                                                       *)
(* ===================================================================== *)

(** ** [parse_market_cap] *)

Section market_cap.
Import App.

Variable float_of_str : list ascii → option float.

Lemma lstrip_plain (s : list ascii) :
  Forall (λ c, isspace c = false) s → lstrip s = s.
Proof.
  intros Hs. destruct s as [|c s]; [done|].
  apply list.Forall_cons in Hs as [Hc _]. cbn [lstrip]. by rewrite Hc.
Qed.

Lemma strip_plain (s : list ascii) :
  Forall (λ c, isspace c = false) s → strip s = s.
Proof.
  intros Hs. unfold strip, rstrip. rewrite (lstrip_plain s) by done.
  rewrite lstrip_plain; [apply reverse_involutive|].
  by apply Forall_reverse.
Qed.

Lemma upper_plain (s : list ascii) :
  Forall (λ c, upper_char c = c) s → upper s = s.
Proof.
  unfold upper. induction 1 as [|c s Hc _ IH]; [done|].
  by rewrite fmap_cons, Hc, IH.
Qed.

Lemma remove_plain (d : ascii) (s : list ascii) :
  Forall (λ c, c ≠ d) s → remove d s = s.
Proof.
  unfold remove. induction 1 as [|c s Hc _ IH]; [done|].
  rewrite filter_cons. destruct (decide (c ≠ d)); [|done]. by f_equal.
Qed.

Lemma endswith_snoc (s : list ascii) (c d : ascii) :
  endswith (s ++ [c]) d = bool_decide (c = d).
Proof.
  unfold endswith. rewrite last_snoc. apply bool_decide_ext.
  split; [by intros [= ->]|by intros ->].
Qed.

Lemma drop_last_snoc (s : list ascii) (c : ascii) : drop_last (s ++ [c]) = s.
Proof.
  unfold drop_last. rewrite length_app. cbn [length].
  replace (length s + 1 - 1)%nat with (length s) by lia.
  by rewrite take_app_length.
Qed.

Lemma plain_snoc (s : list ascii) (c : ascii) :
  plain s → plain [c] → plain (s ++ [c]).
Proof. intros Hs Hc. by apply Forall_app. Qed.

(** The text as [parse_market_cap] sees it after its own clean-up. *)
Lemma parse_plain (s : list ascii) :
  plain s → s ≠ [] → s ≠ ["-"%char] →
  parse_market_cap float_of_str (Text s)
  = let '(multiplier, value_str) := split_suffix s in
    Returned ((λ x, x * multiplier / 1e9)%float <$> float_of_str value_str).
Proof.
  intros Hs Hne Hd. unfold parse_market_cap.
  rewrite strip_plain, upper_plain, remove_plain.
  - rewrite bool_decide_eq_false_2 by done.
    rewrite bool_decide_eq_false_2 by done. cbn [orb].
    destruct (split_suffix s) as [m v]. by destruct (float_of_str v).
  - eapply list.Forall_impl; [exact Hs|]. naive_solver.
  - eapply list.Forall_impl; [exact Hs|]. naive_solver.
  - eapply list.Forall_impl; [exact Hs|]. naive_solver.
Qed.

Lemma snoc_not_nil (s : list ascii) (c : ascii) : s ++ [c] ≠ [].
Proof. by destruct s. Qed.

Lemma snoc_not_dash (s : list ascii) (c : ascii) :
  c ≠ "-"%char → s ++ [c] ≠ ["-"%char].
Proof.
  intros Hc H. destruct s as [|a [|b s]]; cbn in H; simplify_eq.
Qed.

(** X13. The unit suffixes.  For text with no white space, lower-case
    letter or dollar sign, a trailing T, B, M or K is taken off before
    [float] reads the text, and the number read is multiplied by 1e12,
    1e9, 1e6 or 1e3 and then divided by 1e9, each operation rounded to a
    double; text without such a suffix is read whole, multiplied by 1 and
    divided by 1e9.  The result is [None] exactly when [float] rejects
    what it is given, and no call on text raises. *)
Theorem parse_market_cap_units (b : list ascii) :
  plain b →
  parse_market_cap float_of_str (Text (b ++ ["T"%char]))
    = Returned ((λ x, x * 1e12 / 1e9)%float <$> float_of_str b)
  ∧ parse_market_cap float_of_str (Text (b ++ ["B"%char]))
    = Returned ((λ x, x * 1e9 / 1e9)%float <$> float_of_str b)
  ∧ parse_market_cap float_of_str (Text (b ++ ["M"%char]))
    = Returned ((λ x, x * 1e6 / 1e9)%float <$> float_of_str b)
  ∧ parse_market_cap float_of_str (Text (b ++ ["K"%char]))
    = Returned ((λ x, x * 1e3 / 1e9)%float <$> float_of_str b)
  ∧ (b ≠ [] → b ≠ ["-"%char] →
     list.last b ∉ [Some "T"; Some "B"; Some "M"; Some "K"]%char →
     parse_market_cap float_of_str (Text b)
     = Returned ((λ x, x * 1 / 1e9)%float <$> float_of_str b))
  ∧ (∀ c : ascii,
       c ∈ ["T"; "B"; "M"; "K"]%char →
       parse_market_cap float_of_str (Text (b ++ [c])) = Returned None
       ↔ float_of_str b = None).
Proof.
  intros Hb.
  assert (Hsuffix : ∀ c : ascii,
            plain [c] → c ≠ "-"%char →
            parse_market_cap float_of_str (Text (b ++ [c]))
            = let '(multiplier, value_str) := split_suffix (b ++ [c]) in
              Returned ((λ x, x * multiplier / 1e9)%float
                          <$> float_of_str value_str)).
  { intros c Hc Hd. apply parse_plain.
    - by apply plain_snoc.
    - apply snoc_not_nil.
    - by apply snoc_not_dash. }
  assert (Hp : ∀ c : ascii,
            bool_decide (is_ascii c ∧ isspace c = false ∧ upper_char c = c
                         ∧ c ≠ "$"%char) = true → plain [c]).
  { intros c Hc. apply list.Forall_cons. split; [|by apply list.Forall_nil].
    by apply bool_decide_eq_true in Hc. }
  assert (HT : parse_market_cap float_of_str (Text (b ++ ["T"%char]))
               = Returned ((λ x, x * 1e12 / 1e9)%float <$> float_of_str b)).
  { rewrite Hsuffix; [|by apply Hp|done]. unfold split_suffix.
    rewrite !endswith_snoc, drop_last_snoc.
    by rewrite bool_decide_eq_true_2 by done. }
  assert (HB : parse_market_cap float_of_str (Text (b ++ ["B"%char]))
               = Returned ((λ x, x * 1e9 / 1e9)%float <$> float_of_str b)).
  { rewrite Hsuffix; [|by apply Hp|done]. unfold split_suffix.
    rewrite !endswith_snoc, drop_last_snoc.
    rewrite bool_decide_eq_false_2 by done.
    by rewrite bool_decide_eq_true_2 by done. }
  assert (HM : parse_market_cap float_of_str (Text (b ++ ["M"%char]))
               = Returned ((λ x, x * 1e6 / 1e9)%float <$> float_of_str b)).
  { rewrite Hsuffix; [|by apply Hp|done]. unfold split_suffix.
    rewrite !endswith_snoc, drop_last_snoc.
    rewrite bool_decide_eq_false_2 by done.
    rewrite bool_decide_eq_false_2 by done.
    by rewrite bool_decide_eq_true_2 by done. }
  assert (HK : parse_market_cap float_of_str (Text (b ++ ["K"%char]))
               = Returned ((λ x, x * 1e3 / 1e9)%float <$> float_of_str b)).
  { rewrite Hsuffix; [|by apply Hp|done]. unfold split_suffix.
    rewrite !endswith_snoc, drop_last_snoc.
    rewrite bool_decide_eq_false_2 by done.
    rewrite bool_decide_eq_false_2 by done.
    rewrite bool_decide_eq_false_2 by done.
    by rewrite bool_decide_eq_true_2 by done. }
  split; [exact HT|]. split; [exact HB|]. split; [exact HM|].
  split; [exact HK|]. split.
  - intros Hne Hd Hlast. rewrite !not_elem_of_cons in Hlast.
    destruct Hlast as (HT' & HB' & HM' & HK' & _).
    rewrite parse_plain by done. unfold split_suffix, endswith.
    by rewrite !bool_decide_eq_false_2 by done.
  - intros c Hc. rewrite !elem_of_cons in Hc.
    destruct Hc as [->|[->|[->|[->|Hc]]]];
      [rewrite HT|rewrite HB|rewrite HM|rewrite HK|by apply elem_of_nil in Hc];
      by destruct (float_of_str b).
Qed.

End market_cap.

Section market_cap_clean_up.
Import App.

Variable float_of_str : list ascii → option float.

Lemma isspace_upper_char (c : ascii) : isspace (upper_char c) = isspace c.
Proof. by destruct c as [[] [] [] [] [] [] [] []]. Qed.

Lemma upper_char_idemp (c : ascii) : upper_char (upper_char c) = upper_char c.
Proof. by destruct c as [[] [] [] [] [] [] [] []]. Qed.

Lemma lstrip_upper (s : list ascii) : lstrip (upper s) = upper (lstrip s).
Proof.
  unfold upper. induction s as [|c s IH]; [done|].
  rewrite fmap_cons. cbn [lstrip]. rewrite isspace_upper_char.
  by destruct (isspace c).
Qed.

Lemma strip_upper (s : list ascii) : strip (upper s) = upper (strip s).
Proof.
  unfold strip, rstrip. rewrite lstrip_upper.
  unfold upper at 1. rewrite <- fmap_reverse. fold (upper (reverse (lstrip s))).
  rewrite lstrip_upper. unfold upper. by rewrite fmap_reverse.
Qed.

Lemma upper_idemp (s : list ascii) : upper (upper s) = upper s.
Proof.
  unfold upper. rewrite <- list_fmap_compose. apply list_fmap_ext.
  intros i c _. apply upper_char_idemp.
Qed.

Lemma lstrip_space (ws s : list ascii) :
  Forall (λ c, isspace c = true) ws → lstrip (ws ++ s) = lstrip s.
Proof.
  induction 1 as [|c ws Hc _ IH]; [done|]. cbn [app lstrip]. by rewrite Hc.
Qed.

Lemma lstrip_app (s t : list ascii) :
  lstrip (s ++ t)
  = match lstrip s with [] => lstrip t | _ => lstrip s ++ t end.
Proof.
  induction s as [|c s IH]; [done|]. cbn [app lstrip].
  by destruct (isspace c).
Qed.

Lemma lstrip_head (s : list ascii) (c : ascii) (r : list ascii) :
  lstrip s = c :: r → isspace c = false.
Proof.
  induction s as [|a s IH]; [done|]. cbn [lstrip].
  destruct (isspace a) eqn:Ha; [done|]. by intros [= <- _].
Qed.

Lemma strip_padding (ws1 s ws2 : list ascii) :
  Forall (λ c, isspace c = true) ws1 →
  Forall (λ c, isspace c = true) ws2 →
  strip (ws1 ++ s ++ ws2) = strip s.
Proof.
  intros H1 H2. unfold strip, rstrip. rewrite lstrip_space by done.
  rewrite lstrip_app. destruct (lstrip s) as [|c r] eqn:Hs.
  - rewrite <- (app_nil_r ws2), lstrip_space by done. done.
  - rewrite reverse_app, lstrip_space; [done|]. by apply Forall_reverse.
Qed.

Lemma strip_space (ws : list ascii) :
  Forall (λ c, isspace c = true) ws → strip ws = [].
Proof.
  intros H. pose proof (strip_padding ws [] [] H (list.Forall_nil_2 _)) as Hs.
  cbn [app] in Hs. rewrite app_nil_r in Hs. by rewrite Hs.
Qed.

(** X14. [parse_market_cap] reads ASCII text regardless of surrounding
    white space and of letter case: padding the text with white space on
    either side, or upper-casing it (so "1.5b" for "1.5B"), does not
    change the result, whatever [float] accepts. *)
Theorem parse_market_cap_normalises (ws1 s ws2 : list ascii) :
  Forall is_ascii (ws1 ++ s ++ ws2) →
  Forall (λ c, isspace c = true) ws1 →
  Forall (λ c, isspace c = true) ws2 →
  parse_market_cap float_of_str (Text (ws1 ++ s ++ ws2))
    = parse_market_cap float_of_str (Text s)
  ∧ parse_market_cap float_of_str (Text (upper s))
    = parse_market_cap float_of_str (Text s).
Proof.
  intros _ H1 H2. unfold parse_market_cap. split.
  - by rewrite strip_padding.
  - by rewrite strip_upper, upper_idemp.
Qed.

(** X15. A missing cell, blank text and a lone dash, with any white
    space around them, give [None] without consulting [float]. *)
Theorem parse_market_cap_blank (ws1 ws2 : list ascii) :
  Forall (λ c, isspace c = true) ws1 →
  Forall (λ c, isspace c = true) ws2 →
  parse_market_cap float_of_str Missing = Returned None
  ∧ parse_market_cap float_of_str (Text (ws1 ++ ws2)) = Returned None
  ∧ parse_market_cap float_of_str (Text (ws1 ++ ["-"%char] ++ ws2))
    = Returned None.
Proof.
  intros H1 H2. split; [done|]. unfold parse_market_cap. split.
  - rewrite strip_space by by apply Forall_app. done.
  - rewrite strip_padding by done. done.
Qed.

End market_cap_clean_up.

(** ** [update_scraping_progress] *)

Section scraping_progress.
Import App.

Lemma progress_fraction (current total : Z) :
  (0 ≤ current ≤ total)%Z → (0 < total)%Z →
  (0 <= this (Qc_of_Z current / Qc_of_Z total * Qc_of_Z 50))%Q
  ∧ (this (Qc_of_Z current / Qc_of_Z total * Qc_of_Z 50) <= inject_Z 50)%Q.
Proof.
  intros [Hlo Hhi] Hpos.
  assert (H50 : (this (Qc_of_Z 50) == 50)%Q) by reflexivity.
  assert (H50' : (inject_Z 50 == 50)%Q) by reflexivity.
  assert (H0 : (this (Qc_of_Z 0) == 0)%Q) by reflexivity.
  apply (proj1 (Z2Qc_inj_le _ _)) in Hlo, Hhi. apply Z2Qc_inj_lt in Hpos.
  assert (Hr : (this (Qc_of_Z current) / this (Qc_of_Z total)
                * this (Qc_of_Z total) == this (Qc_of_Z current))%Q).
  { field. intros Hz. qc_to_q. rewrite Hz, H0 in Hpos. Lqa.lra. }
  rewrite Qc_this_mult, Qc_this_div, H50, H50'.
  qc_to_q. rewrite H0 in *.
  set (r := (this (Qc_of_Z current) / this (Qc_of_Z total))%Q) in *.
  split; Lqa.nra.
Qed.

Lemma progress_fraction_mono (current current' total : Z) :
  (current ≤ current')%Z → (0 < total)%Z →
  (this (Qc_of_Z current / Qc_of_Z total * Qc_of_Z 50)
   <= this (Qc_of_Z current' / Qc_of_Z total * Qc_of_Z 50))%Q.
Proof.
  intros Hle Hpos.
  assert (H50 : (this (Qc_of_Z 50) == 50)%Q) by reflexivity.
  assert (H0 : (this (Qc_of_Z 0) == 0)%Q) by reflexivity.
  apply (proj1 (Z2Qc_inj_le _ _)) in Hle. apply Z2Qc_inj_lt in Hpos.
  assert (Hnz : ¬ (this (Qc_of_Z total) == 0)%Q).
  { intros Hz. qc_to_q. rewrite Hz, H0 in Hpos. Lqa.lra. }
  assert (Hr : (this (Qc_of_Z current) / this (Qc_of_Z total)
                * this (Qc_of_Z total) == this (Qc_of_Z current))%Q)
    by by field.
  assert (Hr' : (this (Qc_of_Z current') / this (Qc_of_Z total)
                 * this (Qc_of_Z total) == this (Qc_of_Z current'))%Q)
    by by field.
  rewrite !Qc_this_mult, !Qc_this_div, H50.
  qc_to_q. rewrite H0 in *.
  set (r := (this (Qc_of_Z current) / this (Qc_of_Z total))%Q) in *.
  set (r' := (this (Qc_of_Z current') / this (Qc_of_Z total))%Q) in *.
  Lqa.nra.
Qed.

Lemma int_of_float_nonneg (x : Qc) : 0 ≤ x → int_of_float x = Qfloor x.
Proof. intros Hx. unfold int_of_float. by rewrite decide_True. Qed.

Lemma scraping_progress_value (current total : Z) :
  (0 ≤ current ≤ total)%Z → (0 < total)%Z →
  let p := Qfloor (Qc_of_Z current / Qc_of_Z total * Qc_of_Z 50)%Qc in
  update_scraping_progress current total = Shown p ∧ (0 ≤ p ≤ 50)%Z.
Proof.
  intros Hc Ht p.
  destruct (progress_fraction current total Hc Ht) as [Hlo Hhi].
  assert (Hp : (0 ≤ p ≤ 50)%Z).
  { split.
    - change 0%Z with (Qfloor (inject_Z 0)). apply Qfloor_resp_le. exact Hlo.
    - rewrite <- (Qfloor_Z 50). apply Qfloor_resp_le. exact Hhi. }
  split; [|done]. unfold update_scraping_progress.
  rewrite decide_False by lia. rewrite int_of_float_nonneg by done.
  fold p. rewrite decide_True by lia. done.
Qed.

(** X16. While pages [0..total] of a non-empty crawl are reported, the
    progress bar is set without error to a whole percentage between 0
    and 50, the band reserved for scraping; it never moves backwards as
    the page number grows, and it reaches 50 on the last page.  With
    [total = 0] the callback raises [ZeroDivisionError]. *)
Theorem scraping_progress_in_band (current total : Z) :
  (0 ≤ current ≤ total)%Z →
  (0 < total)%Z →
  ∃ p, update_scraping_progress current total = Shown p
     ∧ (0 ≤ p ≤ 50)%Z
     ∧ (current = total → p = 50%Z)
     ∧ (∀ current' p',
          (current ≤ current' ≤ total)%Z →
          update_scraping_progress current' total = Shown p' → (p ≤ p')%Z)
     ∧ update_scraping_progress current 0 = ZeroDivisionError.
Proof.
  intros Hc Ht.
  destruct (scraping_progress_value current total Hc Ht) as [Hp Hb].
  eexists. split; [exact Hp|]. split; [exact Hb|]. split; [|split; [|done]].
  - intros ->. rewrite <- (Qfloor_Z 50) at 2. apply Qfloor_comp.
    rewrite Qc_this_mult, Qc_this_div.
    change (this (Qc_of_Z 50)) with (inject_Z 50).
    assert (Hnz : ¬ (this (Qc_of_Z total) == 0)%Q).
    { intros Hz. apply Z2Qc_inj_lt in Ht. qc_to_q.
      assert (H0 : (this (Qc_of_Z 0) == 0)%Q) by reflexivity.
      rewrite Hz, H0 in Ht. Lqa.lra. }
    by field.
  - intros current' p' Hc' Hp'.
    destruct (scraping_progress_value current' total) as [Hq _]; [lia|done|].
    rewrite Hq in Hp'. injection Hp' as <-.
    apply Qfloor_resp_le. apply progress_fraction_mono; [lia|done].
Qed.

Lemma scraping_progress_in_band_witness :
  update_scraping_progress 3 10 = Shown 15.
Proof.
  destruct (scraping_progress_in_band 3 10) as (p & Hp & _); [lia|lia|].
  rewrite Hp. by vm_compute in Hp.
Defined.

End scraping_progress.

Lemma parse_market_cap_units_witness :
  App.parse_market_cap AppSample.decimal
    (App.Text (String.list_ascii_of_string "1.5T"))
  = App.Returned (Some 1500%float)
  ∧ App.parse_market_cap AppSample.decimal
      (App.Text (String.list_ascii_of_string "0.27T"))
    = App.Returned (Some 270.00000000000006%float).
Proof.
  split.
  - destruct (parse_market_cap_units AppSample.decimal
                (String.list_ascii_of_string "1.5")) as [H _].
    + apply (bool_decide_unpack _). by vm_compute.
    + etransitivity; [exact H|]. by vm_compute.
  - destruct (parse_market_cap_units AppSample.decimal
                (String.list_ascii_of_string "0.27")) as [H _].
    + apply (bool_decide_unpack _). by vm_compute.
    + etransitivity; [exact H|]. by vm_compute.
Defined.

Lemma parse_market_cap_normalises_witness :
  App.parse_market_cap AppSample.decimal
    (App.Text (String.list_ascii_of_string " 1.5b "))
  = App.parse_market_cap AppSample.decimal
      (App.Text (String.list_ascii_of_string "1.5B")).
Proof.
  destruct (parse_market_cap_normalises AppSample.decimal
              (String.list_ascii_of_string " ") (String.list_ascii_of_string "1.5b")
              (String.list_ascii_of_string " ")) as [Hpad Hup].
  - apply (bool_decide_unpack _). by vm_compute.
  - apply (bool_decide_unpack _). by vm_compute.
  - apply (bool_decide_unpack _). by vm_compute.
  - etransitivity; [exact Hpad|]. symmetry. exact Hup.
Defined.

Lemma parse_market_cap_blank_witness :
  App.parse_market_cap AppSample.decimal
    (App.Text (String.list_ascii_of_string "  -  ")) = App.Returned None.
Proof.
  destruct (parse_market_cap_blank AppSample.decimal
              (String.list_ascii_of_string "  ") (String.list_ascii_of_string "  "))
    as (_ & _ & H).
  - apply (bool_decide_unpack _). by vm_compute.
  - apply (bool_decide_unpack _). by vm_compute.
  - exact H.
Defined.

(** ** The data-update flow *)

Section update_flow.
Import App.

Lemma run_mode (i : inputs) (s : session) :
  data_source_mode s = None ∨ data_source_mode s = Some "cached" →
  data_source_mode (run i s).1 = Some "cached"
  ∧ (run i s).2 ≠ Load false.
Proof.
  intros Hm.
  assert (Hi : data_source_mode (initialise s) = Some "cached").
  { unfold initialise. cbn [data_source_mode]. by destruct Hm as [-> | ->]. }
  unfold run. set (s1 := initialise s) in *.
  assert (Hload : ∀ s', data_source_mode s' = Some "cached" →
            data_source_mode (load s').1 = Some "cached"
            ∧ (load s').2 ≠ Load false).
  { intros s' Hs'. unfold load. cbn [fst snd]. rewrite Hs'.
    split; [done|]. by rewrite bool_decide_eq_true_2. }
  repeat case_match; try (by apply Hload); try done.
  unfold start_update. destruct (update i); try (by apply Hload); done.
Qed.

Lemma runs_mode (steps : list inputs) (s : session) :
  data_source_mode s = None ∨ data_source_mode s = Some "cached" →
  Forall (λ e, e ≠ Load false) (runs steps s).2
  ∧ (steps ≠ [] ∨ data_source_mode s = Some "cached" →
     data_source_mode (runs steps s).1 = Some "cached").
Proof.
  revert s. induction steps as [|i steps IH]; intros s Hm.
  - cbn. split; [by apply list.Forall_nil|]. by intros [|].
  - cbn [runs]. destruct (run_mode i s Hm) as [Hs He].
    destruct (run i s) as [s' e]. cbn [fst snd] in *.
    destruct (IH s') as (Hall & Hne); [by right|].
    destruct (runs steps s') as [s'' es]. cbn [fst snd] in *.
    split; [by apply list.Forall_cons|]. intros _. apply Hne. by right.
Qed.

(** X17. The main dataframe is always loaded from the cache: in a
    browser session that starts without state, whatever the radio, the
    buttons and the crawler do over any number of executions of the
    script, [load_main_dataframe] is never called with
    [use_cached=False], and [data_source_mode] is ['cached'] after every
    execution. *)
Theorem data_always_loaded_from_cache (steps : list inputs) :
  Forall (λ e, e ≠ Load false) (runs steps fresh).2
  ∧ (steps ≠ [] → data_source_mode (runs steps fresh).1 = Some "cached").
Proof.
  destruct (runs_mode steps fresh) as (H1 & H2); [by left|].
  split; [done|]. intros Hne. apply H2. by left.
Qed.

(** X18. An execution of the script that runs to its end leaves
    [update_in_progress] as it found it, [False] when the key was
    absent: the flag is raised only inside the button handler, which
    lowers it again on success and on failure, and a flag found raised
    disables the button that could lower it. *)
Theorem update_flag_unchanged (i : inputs) (s : session) :
  update_in_progress (run i s).1
  = Some (default false (update_in_progress s)).
Proof.
  unfold run, load, use_updated, start_update, initialise.
  destruct (update_in_progress s) as [[]|], (update_completed s) as [[]|],
    (crawl_mode_selected i), (data_file_exists i), (use_updated_data i),
    (start_data_update i), (update i); reflexivity.
Qed.

End update_flow.

(* ===================================================================== *)
(** * The screener pages                                                  *)
(* ===================================================================== *)

Section screener_weights.
Import Screener.

Lemma stepped_total (k1 k2 k3 k4 k5 : Z) :
  total_weight (mkScoring (stepped k1) (stepped k2) (stepped k3)
                  (stepped k4) (stepped k5))
  = stepped (k1 + k2 + k3 + k4 + k5).
Proof.
  unfold total_weight, stepped. cbn [w_yield w_years w_cagr w_growth w_payout].
  rewrite !Z2Qc_inj_add. ring.
Qed.

Lemma stepped_far (k : Z) :
  k ≠ 20%Z → frac 1 100 < Qcabs (stepped k - 1).
Proof.
  intros Hk. apply Qcnot_le_lt. intros Hle.
  apply Qcabs_Qcle_condition in Hle as [Hlo Hhi]. unfold stepped in *.
  assert (H19 : (this (Qc_of_Z 19) == 19)%Q) by reflexivity.
  assert (H21 : (this (Qc_of_Z 21) == 21)%Q) by reflexivity.
  assert (Hatol : (this (frac 1 100) == 1 # 100)%Q) by apply Qred_correct.
  assert (Hstep : (this (frac 5 100) == 5 # 100)%Q) by apply Qred_correct.
  assert (Hcases : (k ≤ 19 ∨ 21 ≤ k)%Z) by lia. destruct Hcases as [Hc|Hc].
  - apply (proj1 (Z2Qc_inj_le _ _)) in Hc. clear Hhi. qc_to_q.
    rewrite H19 in Hc. rewrite Hatol, Hstep in Hlo. Lqa.lra.
  - apply (proj1 (Z2Qc_inj_le _ _)) in Hc. clear Hlo. qc_to_q.
    rewrite H21 in Hc. rewrite Hatol, Hstep in Hhi. Lqa.lra.
Qed.

(** X19. With the five scoring weights set by the step buttons (whole
    multiples of 0.05), the screener goes on to filter and score exactly
    when the weights add up to 1: any other combination is at least 0.05
    off, is reported with its total and stops the script, so the 0.01
    tolerance matters only for typed-in values. *)
Theorem screener_weights_on_grid (k1 k2 k3 k4 k5 : Z) :
  let w := mkScoring (stepped k1) (stepped k2) (stepped k3) (stepped k4)
             (stepped k5) in
  ((k1 + k2 + k3 + k4 + k5 = 20)%Z → validate_weights w = Accepted 1)
  ∧ ((k1 + k2 + k3 + k4 + k5 ≠ 20)%Z →
     validate_weights w = Rejected (stepped (k1 + k2 + k3 + k4 + k5))).
Proof.
  intros w. unfold validate_weights, w. rewrite stepped_total. split.
  - intros ->. replace (stepped 20) with 1 by (apply Qc_is_canon; reflexivity).
    rewrite decide_False; [done|]. by vm_compute.
  - intros Hk. by rewrite decide_True by by apply stepped_far.
Qed.

End screener_weights.

(* ===================================================================== *)
(** * The stock-details page                                              *)
(* ===================================================================== *)

Section dividend_yield.
Import Details.

Lemma last_dividend_split (earlier later : list (Z * float)) (d : Z)
    (a : float) (date : Z) :
  (d ≤ date)%Z →
  Forall (λ p, (date < p.1)%Z) later →
  last_dividend (earlier ++ (d, a) :: later) date = Some a.
Proof.
  intros Hd Hlater. unfold last_dividend.
  rewrite list.filter_app, filter_cons. cbn [fst]. rewrite decide_True by done.
  replace (filter (λ d0 : Z * float, (d0.1 ≤ date)%Z) later)
    with (@nil (Z * float)).
  - by rewrite last_snoc.
  - symmetry. induction Hlater as [|p later Hp _ IH]; [done|].
    rewrite filter_cons. rewrite decide_False by lia. done.
Qed.

Lemma last_dividend_before (dividends : list (Z * float)) (date : Z) :
  Forall (λ p, (date < p.1)%Z) dividends →
  last_dividend dividends date = None.
Proof.
  intros Hall. unfold last_dividend.
  replace (filter (λ d0 : Z * float, (d0.1 ≤ date)%Z) dividends)
    with (@nil (Z * float)); [done|].
  symmetry. induction Hall as [|p l Hp _ IH]; [done|].
  rewrite filter_cons. rewrite decide_False by lia. done.
Qed.

(** X21. The charted yield.  With at least one price row and at least one
    dividend, a series is charted that has one point per price row, in
    the same order and on the same dates.  On a date on or after a
    dividend and before every later one, the point is that dividend times
    4, divided by the day's closing price, in doubles (so an infinity or
    NaN on a zero close); on a date before every dividend it is 0.
    Without price rows the page warns that there is no price data,
    whatever the dividends; with price rows and an empty dividend series
    it says that there is no dividend data; and with price rows and the
    dividends missing because their fetch failed it reports an error.  In
    none of these three cases is a series charted. *)
Theorem yield_series_points (dividends period_data : list (Z * float)) :
  dividends ≠ [] →
  period_data ≠ [] →
  (∃ ys, yield_chart (Some dividends) (Some period_data) = Charted ys
       ∧ ys.*1 = period_data.*1
       ∧ (∀ i date close, period_data !! i = Some (date, close) →
            ys !! i = Some (date, yield_on dividends date close)))
  ∧ (∀ earlier later d a date close,
       dividends = earlier ++ (d, a) :: later →
       (d ≤ date)%Z →
       Forall (λ p, (date < p.1)%Z) later →
       yield_on dividends date close = (a * 4 / close)%float)
  ∧ (∀ date close,
       Forall (λ p, (date < p.1)%Z) dividends →
       yield_on dividends date close = 0%float)
  ∧ (∀ divs, yield_chart divs None = NoPriceData
           ∧ yield_chart divs (Some []) = NoPriceData)
  ∧ yield_chart (Some []) (Some period_data) = NoDividendData
  ∧ yield_chart None (Some period_data) = LoadError.
Proof.
  intros Hne Hprices. split_and!.
  - unfold yield_chart. destruct period_data as [|row rows]; [done|].
    rewrite decide_True by (destruct dividends; [done|cbn; lia]).
    eexists. split; [reflexivity|]. split.
    + rewrite <- list_fmap_compose. done.
    + intros i date close Hi. rewrite list_lookup_fmap, Hi. done.
  - intros earlier later d a date close -> Hd Hlater.
    unfold yield_on. by rewrite last_dividend_split by done.
  - intros date close Hall. unfold yield_on.
    by rewrite last_dividend_before.
  - done.
  - by destruct period_data.
  - by destruct period_data.
Qed.

Lemma yield_series_points_witness :
  Details.yield_chart (Some DetailsSample.dividends)
    (Some DetailsSample.period_data)
  = Details.Charted
      [(5%Z, 0%float); (50%Z, 0.05%float); (60%Z, infinity);
       (120%Z, 0.049999999999999996%float)]
  ∧ Details.yield_on DetailsSample.dividends 50 40 = 0.05%float.
Proof.
  destruct (yield_series_points DetailsSample.dividends
              DetailsSample.period_data) as (_ & H & _).
  - discriminate.
  - discriminate.
  - split.
    + by vm_compute.
    + rewrite (H [] [(100%Z, 0.6%float)] 10%Z 0.5%float 50%Z 40%float).
      * by vm_compute.
      * reflexivity.
      * lia.
      * apply list.Forall_cons. split; [cbn; lia|apply list.Forall_nil; exact I].
Defined.

End dividend_yield.
